(** * Filebench variables: a shallow embedding of [vars.c]

    [vars.c] implements the attribute value descriptors ([avd_t]) and the
    named variables ([var_t]) of the workload language.  Both kinds of
    object live in the shared memory segment [filebench_shm]; descriptors
    point into variables, so the embedding keeps an explicit store of
    variables addressed by index and threads it through every routine.

    - A [uint64_t] is a [Z]; the file does no arithmetic on it, it only
      stores, compares with zero and prints it.  A [char *] is an
      [option string], [None] for [NULL].  A pointer to a [var_t] or to a
      [randdist_t] is an [option nat], an index into the pool of the
      segment; a pointer to a member of [var_val] is the index of its
      variable, the member being named by the variant of the descriptor.
    - The three chains of [filebench_shm] are lists of indices in
      [var_next] order: linking at the head is [cons], linking at the tail
      is [app] of a singleton.
    - A routine is a function from the world to an outcome: it returns a
      value and a world, it calls [filebench_shutdown], or it dereferences
      [NULL].
    - [double], the random sampling function and the providers of the
      internal variables are parameters, bundled in two classes. *)

From Stdlib Require Import ZArith String Ascii List Bool Lia DecimalString.
From stdpp Require Import base option list strings gmap.

Local Open Scope string_scope.

(** ** Declarations of [vars.h] and [fb_random.h] *)

(** Modelled from the spec: [vars.h] is not among the sources.  The scope
    class of a variable is what [var_type & VAR_TYPE_MASK] selects: one of
    Global/Normal, Random, Special, Local, fixed at allocation. *)
Inductive var_class : Type :=
| VAR_TYPE_NORMAL
| VAR_TYPE_RANDOM
| VAR_TYPE_SPECIAL
| VAR_TYPE_LOCAL.

(** Modelled from the spec: the part of [var_type] under
    [VAR_TYPE_SET_MASK].  Every value facet has an is-set flag of its own;
    setting one facet never clears the flag of another. *)
Record var_set : Type := mk_var_set {
  has_bool : bool;
  has_int : bool;
  has_str : bool;
  has_dbl : bool;
  has_rand : bool
}.

Definition VAR_TYPE_NONE_SET : var_set := mk_var_set false false false false false.
Definition VAR_TYPE_BOOL_SET : var_set := mk_var_set true false false false false.
Definition VAR_TYPE_INT_SET : var_set := mk_var_set false true false false false.
Definition VAR_TYPE_STR_SET : var_set := mk_var_set false false true false false.
Definition VAR_TYPE_DBL_SET : var_set := mk_var_set false false false true false.
Definition VAR_TYPE_RAND_SET : var_set := mk_var_set false false false false true.

Global Instance var_class_eq_dec : EqDecision var_class.
Proof. solve_decision. Defined.

Global Instance var_set_eq_dec : EqDecision var_set.
Proof. solve_decision. Defined.

(** Modelled from the spec: the distribution family under
    [rnd_type & RAND_TYPE_MASK] and the entropy source bit
    [RAND_SRC_GENERATOR] of [fb_random.h]. *)
Inductive rand_family : Type :=
| RAND_TYPE_UNSET
| RAND_TYPE_UNIFORM
| RAND_TYPE_GAMMA
| RAND_TYPE_TABLE.

Inductive rand_param : Type :=
| RAND_PARAM_TYPE
| RAND_PARAM_SRC
| RAND_PARAM_SEED
| RAND_PARAM_MIN
| RAND_PARAM_MEAN
| RAND_PARAM_GAMMA
| RAND_PARAM_ROUND
| RAND_PARAM_OTHER.

Inductive avd_type_t : Type :=
| AVD_INVALID
| AVD_VAL_BOOL
| AVD_VARVAL_BOOL
| AVD_VAL_INT
| AVD_VARVAL_INT
| AVD_VAL_STR
| AVD_VARVAL_STR
| AVD_VAL_DBL
| AVD_VARVAL_DBL
| AVD_RANDVAR.

Global Instance avd_type_eq_dec : EqDecision avd_type_t.
Proof. solve_decision. Defined.

Inductive log_level : Type :=
| LOG_ERROR
| LOG_DEBUG_SCRIPT.

(** Pointers are indices into the pool they point to; [None] is [NULL]. *)
Definition ptr : Type := option nat.

(** ** Text helpers for the C string idioms of the file *)

(** [name += 1]: the callers pass a name with its sigil; the empty text,
    which no caller passes, is left as it is. *)
Definition skip1 (name : string) : string :=
  match name with
  | EmptyString => EmptyString
  | String _ rest => rest
  end.

(** [*name]: the first character, NUL for the empty text. *)
Definition first_char (name : string) : ascii :=
  match name with
  | EmptyString => zero
  | String c _ => c
  end.

(** [name[strlen(name) - 1]] where [name] is one past [c0]. *)
Fixpoint last_char (c0 : ascii) (name : string) : ascii :=
  match name with
  | EmptyString => c0
  | String c rest => last_char c rest
  end.

(** [name[strlen(name) - 1] = 0] on a non-empty text. *)
Fixpoint chop_last (name : string) : string :=
  match name with
  | EmptyString => EmptyString
  | String c EmptyString => EmptyString
  | String c rest => String c (chop_last rest)
  end.

(** [name + strlen(prefix)]. *)
Fixpoint skip_len (prefix name : string) : string :=
  match prefix, name with
  | String _ p, String _ n => skip_len p n
  | _, _ => name
  end.

(** [snprintf(tmp, sizeof (tmp), "%llu", v)]. *)
Definition fmt_llu (v : Z) : string :=
  NilEmpty.string_of_uint (N.to_uint (Z.to_N v)).

(** [double] with its zero and its two C conversions, taken as given. *)
Class Double : Type := {
  double : Type;
  dbl_zero : double;
  dbl_of_u64 : Z -> double;
  u64_of_dbl : double -> Z
}.

Section Model.

Context {D : Double}.

(** An attribute value descriptor: [avd_type] with the member of [avd_val]
    that the type selects. *)
Inductive avd : Type :=
| AvdInvalid
| AvdValBool (boolval : bool)
| AvdVarvalBool (boolptr : ptr)
| AvdValInt (intval : Z)
| AvdVarvalInt (intptr : ptr)
| AvdValStr (strval : option string)
| AvdVarvalStr (strptr : ptr)
| AvdValDbl (dblval : double)
| AvdVarvalDbl (dblptr : ptr)
| AvdRandvar (randptr : ptr).

(** [avd_t] is a pointer to a descriptor, possibly [NULL]. *)
Definition avd_t : Type := option avd.

Definition avd_type (a : avd) : avd_type_t :=
  match a with
  | AvdInvalid => AVD_INVALID
  | AvdValBool _ => AVD_VAL_BOOL
  | AvdVarvalBool _ => AVD_VARVAL_BOOL
  | AvdValInt _ => AVD_VAL_INT
  | AvdVarvalInt _ => AVD_VARVAL_INT
  | AvdValStr _ => AVD_VAL_STR
  | AvdVarvalStr _ => AVD_VARVAL_STR
  | AvdValDbl _ => AVD_VAL_DBL
  | AvdVarvalDbl _ => AVD_VARVAL_DBL
  | AvdRandvar _ => AVD_RANDVAR
  end.

(** A variable.  [var_next] is not a field: each of the three lists of
    [filebench_shm] is kept as the list of addresses in chain order. *)
Record var_t : Type := mk_var {
  var_name : string;
  var_class_of : var_class;
  var_set_of : var_set;
  var_boolean : bool;
  var_integer : Z;
  var_dbl_flt : double;
  var_string : option string;
  var_randptr : ptr
}.

(** Modelled from the spec: the random distribution object of
    [fb_random.h], with the fields this file reads or writes. *)
Record randdist_t : Type := mk_randdist {
  rnd_family : rand_family;
  rnd_src_generator : bool;
  rnd_var : ptr;
  rnd_seed : avd_t;
  rnd_min : avd_t;
  rnd_mean : avd_t;
  rnd_gamma : avd_t;
  rnd_round : avd_t
}.

(** The shared segment together with the process environment and the log
    sink.  Modelled from the spec: the arena is a set of pools that only
    grow; what is left of each pool is a counter. *)
Record world : Type := mk_world {
  shm_var_list : list nat;
  shm_var_special_list : list nat;
  shm_var_loc_list : list nat;
  shm_vars : list var_t;
  shm_randdists : list randdist_t;
  ipc_free_var : nat;
  ipc_free_avd : nat;
  ipc_free_randdist : nat;
  ipc_free_str : nat;
  environ : gmap string string;
  log : list (log_level * string)
}.

(** What a routine does to the process: it returns, it calls
    [filebench_shutdown], or it dereferences [NULL]. *)
Inductive outcome (A : Type) : Type :=
| Ret (a : A) (w : world)
| Exit (code : Z) (w : world)
| Fault (w : world).

Definition M (A : Type) : Type := world -> outcome A.

End Model.

Arguments Ret {D A} a w.
Arguments Exit {D A} code w.
Arguments Fault {D A} w.

(** The providers behind [var_find_internal] and the sampling function
    behind [rndp->rnd_get].  A provider is handed the special variable and
    answers with a variable or [NULL]. *)
Class Providers {D : Double} : Type := {
  rnd_get : randdist_t -> double * randdist_t;
  STATS_VAR : string;
  EVENTGEN_VAR : string;
  DATE_VAR : string;
  SCRIPT_VAR : string;
  HOST_VAR : string;
  stats_findvar : nat -> string -> world -> ptr * world;
  eventgen_ratevar : nat -> world -> ptr * world;
  date_var : nat -> world -> ptr * world;
  script_var : nat -> world -> ptr * world;
  host_var : nat -> world -> ptr * world
}.

Section Ops.

Context {D : Double} {P : Providers}.

Local Open Scope Z_scope.

(** ** Sequencing *)

Definition ret {A : Type} (a : A) : M A := fun w => Ret a w.

Definition bind {A B : Type} (m : M A) (k : A -> M B) : M B :=
  fun w =>
    match m w with
    | Ret a w' => k a w'
    | Exit code w' => Exit code w'
    | Fault w' => Fault w'
    end.

Local Notation "x <- c ;; k" := (bind c (fun x => k))
  (at level 100, c at next level, right associativity).
Local Notation "c ;;; k" := (bind c (fun _ => k))
  (at level 100, right associativity).

Definition get_world : M world := fun w => Ret w w.

Definition put_world (w' : world) : M unit := fun _ => Ret tt w'.

(** [filebench_shutdown(code)]: never returns. *)
Definition filebench_shutdown {A : Type} (code : Z) : M A := fun w => Exit code w.

(** A dereference of [NULL]. *)
Definition fault {A : Type} : M A := fun w => Fault w.

(** ** Field updates *)

Definition set_log (l : list (log_level * string)) (w : world) : world :=
  mk_world (shm_var_list w) (shm_var_special_list w) (shm_var_loc_list w)
    (shm_vars w) (shm_randdists w) (ipc_free_var w) (ipc_free_avd w)
    (ipc_free_randdist w) (ipc_free_str w) (environ w) l.

Definition set_environ (e : gmap string string) (w : world) : world :=
  mk_world (shm_var_list w) (shm_var_special_list w) (shm_var_loc_list w)
    (shm_vars w) (shm_randdists w) (ipc_free_var w) (ipc_free_avd w)
    (ipc_free_randdist w) (ipc_free_str w) e (log w).

Definition set_var_list (l : list nat) (w : world) : world :=
  mk_world l (shm_var_special_list w) (shm_var_loc_list w)
    (shm_vars w) (shm_randdists w) (ipc_free_var w) (ipc_free_avd w)
    (ipc_free_randdist w) (ipc_free_str w) (environ w) (log w).

Definition set_var_special_list (l : list nat) (w : world) : world :=
  mk_world (shm_var_list w) l (shm_var_loc_list w)
    (shm_vars w) (shm_randdists w) (ipc_free_var w) (ipc_free_avd w)
    (ipc_free_randdist w) (ipc_free_str w) (environ w) (log w).

Definition set_var_loc_list (l : list nat) (w : world) : world :=
  mk_world (shm_var_list w) (shm_var_special_list w) l
    (shm_vars w) (shm_randdists w) (ipc_free_var w) (ipc_free_avd w)
    (ipc_free_randdist w) (ipc_free_str w) (environ w) (log w).

Definition set_vars (vs : list var_t) (w : world) : world :=
  mk_world (shm_var_list w) (shm_var_special_list w) (shm_var_loc_list w)
    vs (shm_randdists w) (ipc_free_var w) (ipc_free_avd w)
    (ipc_free_randdist w) (ipc_free_str w) (environ w) (log w).

Definition set_randdists (rs : list randdist_t) (w : world) : world :=
  mk_world (shm_var_list w) (shm_var_special_list w) (shm_var_loc_list w)
    (shm_vars w) rs (ipc_free_var w) (ipc_free_avd w)
    (ipc_free_randdist w) (ipc_free_str w) (environ w) (log w).

Definition set_free_var (n : nat) (w : world) : world :=
  mk_world (shm_var_list w) (shm_var_special_list w) (shm_var_loc_list w)
    (shm_vars w) (shm_randdists w) n (ipc_free_avd w)
    (ipc_free_randdist w) (ipc_free_str w) (environ w) (log w).

Definition set_free_avd (n : nat) (w : world) : world :=
  mk_world (shm_var_list w) (shm_var_special_list w) (shm_var_loc_list w)
    (shm_vars w) (shm_randdists w) (ipc_free_var w) n
    (ipc_free_randdist w) (ipc_free_str w) (environ w) (log w).

Definition set_free_randdist (n : nat) (w : world) : world :=
  mk_world (shm_var_list w) (shm_var_special_list w) (shm_var_loc_list w)
    (shm_vars w) (shm_randdists w) (ipc_free_var w) (ipc_free_avd w)
    n (ipc_free_str w) (environ w) (log w).

Definition set_free_str (n : nat) (w : world) : world :=
  mk_world (shm_var_list w) (shm_var_special_list w) (shm_var_loc_list w)
    (shm_vars w) (shm_randdists w) (ipc_free_var w) (ipc_free_avd w)
    (ipc_free_randdist w) n (environ w) (log w).

(** ** The collaborators: log sink, arena, environment *)

(** Modelled from the spec: the logging sink behind [filebench_log], which
    is not among the sources: a leveled message is appended, nothing is
    returned.  The message is the format with its arguments applied. *)
Definition filebench_log (lvl : log_level) (msg : string) : M unit :=
  fun w => Ret tt (set_log (log w ++ [(lvl, msg)]) w).

(** The object after [memset] to zero: a null name, class and set bits
    zero, every member of [var_val] zero. *)
Definition var_zero : var_t :=
  mk_var EmptyString VAR_TYPE_NORMAL VAR_TYPE_NONE_SET false 0 dbl_zero None None.

Definition randdist_zero : randdist_t :=
  mk_randdist RAND_TYPE_UNSET false None None None None None None.

(** Modelled from the spec: [ipc_malloc(FILEBENCH_VARIABLE)] of the arena
    allocator, which is not among the sources: the next object of the
    pool, or [NULL] when the pool is used up.  The object is zeroed here
    already, which is what the [memset] of [var_alloc_cmn] makes of it. *)
Definition ipc_malloc_var : M ptr :=
  fun w =>
    match ipc_free_var w with
    | O => Ret None w
    | S n => Ret (Some (length (shm_vars w)))
               (set_free_var n (set_vars (shm_vars w ++ [var_zero]) w))
    end.

(** Modelled from the spec: [ipc_malloc(FILEBENCH_AVD)] of the arena
    allocator.  Descriptors never change once built, so they are handed
    around by value and only the success of the allocation is recorded. *)
Definition ipc_malloc_avd : M bool :=
  fun w =>
    match ipc_free_avd w with
    | O => Ret false w
    | S n => Ret true (set_free_avd n w)
    end.

(** Modelled from the spec: [randdist_alloc()] of the distribution
    provider, which is not among the sources: a new distribution object
    with no family chosen yet, or [NULL]. *)
Definition randdist_alloc : M ptr :=
  fun w =>
    match ipc_free_randdist w with
    | O => Ret None w
    | S n => Ret (Some (length (shm_randdists w)))
               (set_free_randdist n (set_randdists (shm_randdists w ++ [randdist_zero]) w))
    end.

(** Modelled from the spec: [ipc_stralloc(string)] of the arena allocator:
    a fresh copy of the text in the string region, or [NULL] when the text
    with its terminator does not fit in what is left of it. *)
Definition ipc_stralloc (s : string) : M (option string) :=
  fun w =>
    if decide (String.length s + 1 <= ipc_free_str w)%nat
    then Ret (Some s) (set_free_str (ipc_free_str w - (String.length s + 1)) w)
    else Ret None w.

(** [getenv(name)] of the C library, on the environment of the world. *)
Definition getenv (name : string) : M (option string) :=
  fun w => Ret (environ w !! name) w.

(** Modelled from the spec: [fb_stralloc(s)], which is not among the
    sources: a private heap copy of the text, taken to succeed. *)
Definition fb_stralloc (s : string) : string := s.

(** ** Access to the variables of the segment *)

Definition var_at (w : world) (a : nat) : var_t :=
  default var_zero (shm_vars w !! a).

Definition randdist_at (w : world) (r : nat) : randdist_t :=
  default randdist_zero (shm_randdists w !! r).

Definition load_var (a : nat) : M var_t := fun w => Ret (var_at w a) w.

Definition store_var (a : nat) (v : var_t) : M unit :=
  fun w => Ret tt (set_vars (<[a := v]> (shm_vars w)) w).

Definition load_randdist (r : nat) : M randdist_t := fun w => Ret (randdist_at w r) w.

Definition store_randdist (r : nat) (d : randdist_t) : M unit :=
  fun w => Ret tt (set_randdists (<[r := d]> (shm_randdists w)) w).

(** ** Macros of [vars.h] *)

(** Modelled from the spec: [VAR_HAS_*] test the is-set flag of one
    facet; [VAR_SET_*] store the value and raise that flag only. *)
Definition VAR_HAS_BOOLEAN (v : var_t) : bool := has_bool (var_set_of v).
Definition VAR_HAS_INTEGER (v : var_t) : bool := has_int (var_set_of v).
Definition VAR_HAS_STRING (v : var_t) : bool := has_str (var_set_of v).
Definition VAR_HAS_DOUBLE (v : var_t) : bool := has_dbl (var_set_of v).
Definition VAR_HAS_RANDDIST (v : var_t) : bool := has_rand (var_set_of v).

Definition VAR_SET_BOOL (v : var_t) (val : bool) : var_t :=
  let t := var_set_of v in
  mk_var (var_name v) (var_class_of v)
    (mk_var_set true (has_int t) (has_str t) (has_dbl t) (has_rand t))
    val (var_integer v) (var_dbl_flt v) (var_string v) (var_randptr v).

Definition VAR_SET_INT (v : var_t) (val : Z) : var_t :=
  let t := var_set_of v in
  mk_var (var_name v) (var_class_of v)
    (mk_var_set (has_bool t) true (has_str t) (has_dbl t) (has_rand t))
    (var_boolean v) val (var_dbl_flt v) (var_string v) (var_randptr v).

Definition VAR_SET_DBL (v : var_t) (val : double) : var_t :=
  let t := var_set_of v in
  mk_var (var_name v) (var_class_of v)
    (mk_var_set (has_bool t) (has_int t) (has_str t) true (has_rand t))
    (var_boolean v) (var_integer v) val (var_string v) (var_randptr v).

Definition VAR_SET_STR (v : var_t) (val : option string) : var_t :=
  let t := var_set_of v in
  mk_var (var_name v) (var_class_of v)
    (mk_var_set (has_bool t) (has_int t) true (has_dbl t) (has_rand t))
    (var_boolean v) (var_integer v) (var_dbl_flt v) val (var_randptr v).

Definition VAR_SET_RAND (v : var_t) (val : ptr) : var_t :=
  let t := var_set_of v in
  mk_var (var_name v) (var_class_of v)
    (mk_var_set (has_bool t) (has_int t) (has_str t) (has_dbl t) true)
    (var_boolean v) (var_integer v) (var_dbl_flt v) (var_string v) val.

(** [newvar->var_type = var_type] with one of the four class constants:
    the class is stored and no set bit is raised. *)
Definition set_var_type (v : var_t) (c : var_class) : var_t :=
  mk_var (var_name v) c VAR_TYPE_NONE_SET
    (var_boolean v) (var_integer v) (var_dbl_flt v) (var_string v) (var_randptr v).

Definition set_var_name (v : var_t) (n : string) : var_t :=
  mk_var n (var_class_of v) (var_set_of v)
    (var_boolean v) (var_integer v) (var_dbl_flt v) (var_string v) (var_randptr v).

Definition set_rnd_var (d : randdist_t) (x : ptr) : randdist_t :=
  mk_randdist (rnd_family d) (rnd_src_generator d) x
    (rnd_seed d) (rnd_min d) (rnd_mean d) (rnd_gamma d) (rnd_round d).

(** A statement [f(var)] that writes through the pointer [a]. *)
Definition update_var (a : nat) (f : var_t -> var_t) : M unit :=
  v <- load_var a ;; store_var a (f v).

Definition nl : string := String (ascii_of_nat 10) EmptyString.

(** ** Attribute value descriptors *)

Definition avd_get_type_string (a : avd) : string :=
  match avd_type a with
  | AVD_INVALID => "uninitialized"
  | AVD_VAL_BOOL => "boolean value"
  | AVD_VARVAL_BOOL => "points to boolean in var_t"
  | AVD_VAL_INT => "integer value"
  | AVD_VARVAL_INT => "points to integer in var_t"
  | AVD_VAL_STR => "string"
  | AVD_VARVAL_STR => "points to string in var_t"
  | AVD_VAL_DBL => "double float value"
  | AVD_VARVAL_DBL => "points to double float in var_t"
  | AVD_RANDVAR => "points to var_t's random distribution object"
  end.

(** [rndp->rnd_get(rndp)]. *)
Definition call_rnd_get (r : nat) : M double :=
  d <- load_randdist r ;;
  store_randdist r (snd (rnd_get d)) ;;;
  ret (fst (rnd_get d)).

Definition avd_get_int (a : avd_t) : M Z :=
  match a with
  | None => ret 0
  | Some d =>
      match d with
      | AvdValInt intval => ret intval
      | AvdVarvalInt intptr =>
          match intptr with
          | Some x => v <- load_var x ;; ret (var_integer v)
          | None => ret 0
          end
      | AvdRandvar rndp =>
          match rndp with
          | Some r => s <- call_rnd_get r ;; ret (u64_of_dbl s)
          | None => ret 0
          end
      | _ =>
          filebench_log LOG_ERROR
            ("Attempt to get integer from " ++ avd_get_type_string d ++ " avd") ;;;
          ret 0
      end
  end.

Definition avd_get_dbl (a : avd_t) : M double :=
  match a with
  | None => ret dbl_zero
  | Some d =>
      match d with
      | AvdValInt intval => ret (dbl_of_u64 intval)
      | AvdValDbl dblval => ret dblval
      | AvdVarvalInt intptr =>
          match intptr with
          | Some x => v <- load_var x ;; ret (dbl_of_u64 (var_integer v))
          | None => ret dbl_zero
          end
      | AvdVarvalDbl dblptr =>
          match dblptr with
          | Some x => v <- load_var x ;; ret (var_dbl_flt v)
          | None => ret dbl_zero
          end
      | AvdRandvar rndp =>
          match rndp with
          | Some r => call_rnd_get r
          | None => ret dbl_zero
          end
      | _ =>
          filebench_log LOG_ERROR
            ("Attempt to get floating point from " ++ avd_get_type_string d ++ " avd") ;;;
          ret dbl_zero
      end
  end.

Definition avd_get_bool (a : avd_t) : M bool :=
  match a with
  | None => ret false
  | Some d =>
      match d with
      | AvdValBool boolval => ret boolval
      | AvdVarvalBool boolptr =>
          match boolptr with
          | Some x => v <- load_var x ;; ret (var_boolean v)
          | None => ret false
          end
      | AvdValInt intval => ret (negb (intval =? 0)%Z)
      | AvdVarvalInt intptr =>
          match intptr with
          | Some x => v <- load_var x ;; ret (negb (var_integer v =? 0)%Z)
          | None => ret false
          end
      | _ =>
          filebench_log LOG_ERROR
            ("Attempt to get boolean from " ++ avd_get_type_string d ++ " avd") ;;;
          ret false
      end
  end.

Definition avd_get_str (a : avd_t) : M (option string) :=
  match a with
  | None => ret None
  | Some d =>
      match d with
      | AvdValStr strval => ret strval
      | AvdVarvalStr strptr =>
          match strptr with
          | Some x => v <- load_var x ;; ret (var_string v)
          | None => ret None
          end
      | _ =>
          filebench_log LOG_ERROR
            ("Attempt to get string from " ++ avd_get_type_string d ++ " avd") ;;;
          ret None
      end
  end.

(** [avd_alloc_cmn]: whether a descriptor could be had. *)
Definition avd_alloc_cmn : M bool :=
  ok <- ipc_malloc_avd ;;
  (if negb ok then filebench_log LOG_ERROR "AVD allocation failed" else ret tt) ;;;
  ret ok.

Definition avd_bool_alloc (val : bool) : M avd_t :=
  ok <- avd_alloc_cmn ;;
  if negb ok then ret None
  else ret (Some (AvdValBool val)).

Definition avd_int_alloc (val : Z) : M avd_t :=
  ok <- avd_alloc_cmn ;;
  if negb ok then ret None
  else ret (Some (AvdValInt val)).

Definition avd_str_alloc (str : option string) : M avd_t :=
  match str with
  | None => filebench_log LOG_ERROR ("No string supplied" ++ nl) ;;; ret None
  | Some text =>
      ok <- avd_alloc_cmn ;;
      if negb ok then ret None
      else strval <- ipc_stralloc text ;; ret (Some (AvdValStr strval))
  end.

(** Allocates a descriptor and points it at the facet of [var] that the
    set bits select. *)
Definition avd_alloc_var_ptr (var : ptr) : M avd_t :=
  match var with
  | None => ret None
  | Some x =>
      ok <- avd_alloc_cmn ;;
      if negb ok then ret None
      else
        v <- load_var x ;;
        if decide (var_set_of v = VAR_TYPE_BOOL_SET) then
          ret (Some (AvdVarvalBool (Some x)))
        else if decide (var_set_of v = VAR_TYPE_INT_SET) then
          ret (Some (AvdVarvalInt (Some x)))
        else if decide (var_set_of v = VAR_TYPE_STR_SET) then
          ret (Some (AvdVarvalStr (Some x)))
        else if decide (var_set_of v = VAR_TYPE_DBL_SET) then
          ret (Some (AvdVarvalDbl (Some x)))
        else if decide (var_set_of v = VAR_TYPE_RAND_SET) then
          ret (Some (AvdRandvar (var_randptr v)))
        else
          filebench_log LOG_ERROR "Illegal  variable type" ;;; ret None
  end.

(** ** Variables: allocation and lookup *)

(** [var_alloc_cmn]: the [default] arm of the switch on the class cannot
    be reached with one of the four class constants. *)
Definition var_alloc_cmn (name : string) (var_type : var_class) : M ptr :=
  newvar <- ipc_malloc_var ;;
  match newvar with
  | None => filebench_log LOG_ERROR "Out of memory for variables" ;;; ret None
  | Some x =>
      update_var x (fun v => set_var_type v var_type) ;;;
      var_name' <- ipc_stralloc name ;;
      match var_name' with
      | None => filebench_log LOG_ERROR "Out of memory for strings" ;;; ret None
      | Some text =>
          update_var x (fun v => set_var_name v text) ;;;
          w <- get_world ;;
          match var_type with
          | VAR_TYPE_RANDOM | VAR_TYPE_NORMAL =>
              put_world (set_var_list (shm_var_list w ++ [x]) w) ;;; ret (Some x)
          | VAR_TYPE_SPECIAL =>
              put_world (set_var_special_list (shm_var_special_list w ++ [x]) w) ;;;
              ret (Some x)
          | VAR_TYPE_LOCAL =>
              put_world (set_var_loc_list (x :: shm_var_loc_list w) w) ;;;
              ret (Some x)
          end
      end
  end.

Definition var_alloc (name : string) : M ptr := var_alloc_cmn name VAR_TYPE_NORMAL.

Definition var_alloc_special (name : string) : M ptr :=
  var_alloc_cmn name VAR_TYPE_SPECIAL.

(** The loop [for (var = list; var; var = var->var_next)] with its
    [strcmp] test: the first variable of the chain that bears the name. *)
Fixpoint scan_list (w : world) (name : string) (l : list nat) : ptr :=
  match l with
  | [] => None
  | x :: rest =>
      if String.eqb (var_name (var_at w x)) name then Some x
      else scan_list w name rest
  end.

Definition var_find (name : string) : M ptr :=
  fun w =>
    match scan_list w name (shm_var_loc_list w) with
    | Some x => Ret (Some x) w
    | None => Ret (scan_list w name (shm_var_list w)) w
    end.

Definition var_find_list_only (name : string) (var_list : list nat) : M ptr :=
  fun w => Ret (scan_list w name var_list) w.

(** [printf] of a name that may be [NULL]. *)
Definition show_name (name : option string) : string := default "(null)" name.

Definition var_find_alloc (name : option string) : M ptr :=
  match name with
  | None =>
      filebench_log LOG_ERROR "var_find_alloc: Var name not supplied" ;;; ret None
  | Some text =>
      let name := skip1 text in
      var <- var_find name ;;
      match var with
      | None => var_alloc name
      | Some _ => ret var
      end
  end.

Definition is_random (v : var_t) : bool :=
  bool_decide (var_class_of v = VAR_TYPE_RANDOM).

Definition var_assign_boolean (name : option string) (bool : bool) : M Z :=
  var <- var_find_alloc name ;;
  match var with
  | None =>
      filebench_log LOG_ERROR ("Cannot assign variable " ++ show_name name) ;;; ret (-1)
  | Some x =>
      v <- load_var x ;;
      if is_random v then
        filebench_log LOG_ERROR
          ("Cannot assign boolean to random variable " ++ show_name name) ;;;
        ret (-1)
      else
        update_var x (fun v => VAR_SET_BOOL v bool) ;;; ret 0
  end.

Definition var_assign_integer (name : option string) (integer : Z) : M Z :=
  var <- var_find_alloc name ;;
  match var with
  | None =>
      filebench_log LOG_ERROR ("Cannot assign variable " ++ show_name name) ;;; ret (-1)
  | Some x =>
      v <- load_var x ;;
      if is_random v then
        filebench_log LOG_ERROR
          ("Cannot assign integer to random variable " ++ show_name name) ;;;
        ret (-1)
      else
        update_var x (fun v => VAR_SET_INT v integer) ;;;
        filebench_log LOG_DEBUG_SCRIPT
          ("Assign integer " ++ show_name name ++ "=" ++ fmt_llu integer) ;;;
        ret 0
  end.

Definition var_find_randvar (name : string) : M ptr :=
  let name := skip1 name in
  newvar <- var_find name ;;
  match newvar with
  | None =>
      filebench_log LOG_ERROR ("failed to locate random variable $" ++ name ++ nl) ;;;
      ret None
  | Some x =>
      v <- load_var x ;;
      if negb (is_random v) || negb (VAR_HAS_RANDDIST v) then
        filebench_log LOG_ERROR ("Found variable $" ++ name ++ " not random" ++ nl) ;;;
        ret None
      else ret (Some x)
  end.

Definition var_define_randvar (name : string) : M ptr :=
  let name := skip1 name in
  found <- var_find name ;;
  match found with
  | Some _ =>
      filebench_log LOG_ERROR ("variable name already in use" ++ nl) ;;; ret None
  | None =>
      newvar <- var_alloc_cmn name VAR_TYPE_RANDOM ;;
      match newvar with
      | None =>
          filebench_log LOG_ERROR ("failed to alloc random variable" ++ nl) ;;; ret None
      | Some x =>
          rndp <- randdist_alloc ;;
          match rndp with
          | None =>
              filebench_log LOG_ERROR
                ("failed to alloc random distribution object" ++ nl) ;;;
              ret None
          | Some r =>
              d <- load_randdist r ;;
              store_randdist r (set_rnd_var d (Some x)) ;;;
              update_var x (fun v => VAR_SET_RAND v (Some r)) ;;;
              ret (Some x)
          end
      end
  end.

(** ** Special variables *)

Definition call_provider (f : world -> ptr * world) : M ptr :=
  fun w => Ret (fst (f w)) (snd (f w)).

(** [var_find_internal]: [n] is a copy of the name, [name] is one past its
    first character.  The successive tests are not exclusive: a later
    match overrides an earlier answer. *)
Definition var_find_internal (var : ptr) : M ptr :=
  match var with
  | None => fault
  | Some x =>
      v <- load_var x ;;
      match fb_stralloc (var_name v) with
      | EmptyString => fault
      | String c0 name =>
          if negb (Ascii.eqb (last_char c0 name) "}") then ret None
          else
            let name := chop_last name in
            rtn <- (if String.prefix STATS_VAR name
                    then call_provider (stats_findvar x (skip_len STATS_VAR name))
                    else ret None) ;;
            rtn <- (if String.eqb name EVENTGEN_VAR
                    then call_provider (eventgen_ratevar x) else ret rtn) ;;
            rtn <- (if String.eqb name DATE_VAR
                    then call_provider (date_var x) else ret rtn) ;;
            rtn <- (if String.eqb name SCRIPT_VAR
                    then call_provider (script_var x) else ret rtn) ;;
            rtn <- (if String.eqb name HOST_VAR
                    then call_provider (host_var x) else ret rtn) ;;
            ret rtn
      end
  end.

(** [var_find_environment]: [VAR_SET_STR(var, strptr)] stores the pointer
    that [getenv] returned, on every call, and makes no copy.  The variable
    holds here the text that pointer refers to when it is stored.  No
    routine of the file changes the environment, so as long as they alone
    run the pointer refers to that text.  What it refers to once other code
    has changed the environment is up to the C library: nothing is stated
    about a read of the variable between such a change and the next lookup
    of the name, which stores the pointer anew. *)
Definition var_find_environment (var : ptr) : M ptr :=
  match var with
  | None => fault
  | Some x =>
      v <- load_var x ;;
      match fb_stralloc (var_name v) with
      | EmptyString => fault
      | String c0 name =>
          if negb (Ascii.eqb (last_char c0 name) ")") then ret None
          else
            let name := chop_last name in
            strptr <- getenv name ;;
            match strptr with
            | Some text =>
                update_var x (fun v => VAR_SET_STR v (Some text)) ;;; ret (Some x)
            | None => ret None
            end
      end
  end.

Definition var_find_special (name : string) : M ptr :=
  w <- get_world ;;
  var <- (match scan_list w name (shm_var_special_list w) with
          | Some x => ret (Some x)
          | None => var_alloc_special name
          end) ;;
  if Ascii.eqb (first_char name) "{" then
    rtn <- var_find_internal var ;;
    match rtn with
    | Some _ => ret rtn
    | None =>
        match var with
        | None => fault
        | Some x =>
            v <- load_var x ;;
            filebench_log LOG_ERROR ("Cannot find internal variable " ++ var_name v) ;;;
            ret None
        end
    end
  else if Ascii.eqb (first_char name) "(" then
    rtn <- var_find_environment var ;;
    match rtn with
    | Some _ => ret rtn
    | None =>
        match var with
        | None => fault
        | Some x =>
            v <- load_var x ;;
            filebench_log LOG_ERROR ("Cannot find environment variable " ++ var_name v) ;;;
            ret None
        end
    end
  else ret None.

(** ** References and textualization *)

Definition var_ref_attr (name : string) : M avd_t :=
  let name := skip1 name in
  var <- var_find name ;;
  var <- (match var with
          | None => var_find_special name
          | Some _ => ret var
          end) ;;
  var <- (match var with
          | None => var_alloc name
          | Some _ => ret var
          end) ;;
  (match var with
   | None =>
       filebench_log LOG_ERROR ("Invalid variable $" ++ name) ;;;
       filebench_shutdown 1
   | Some _ => ret tt
   end) ;;;
  avd_alloc_var_ptr var.

Definition rand_type_label (f : rand_family) : string :=
  match f with
  | RAND_TYPE_UNIFORM => "uniform random var"
  | RAND_TYPE_GAMMA => "gamma random var"
  | RAND_TYPE_TABLE => "tabular random var"
  | RAND_TYPE_UNSET => "unitialized random var"
  end.

Definition __var_to_string (var : nat) : M string :=
  v <- load_var var ;;
  if is_random v then
    match var_randptr v with
    | None => fault
    | Some r => d <- load_randdist r ;; ret (fb_stralloc (rand_type_label (rnd_family d)))
    end
  else
    match (if VAR_HAS_STRING v then var_string v else None) with
    | Some text => ret (fb_stralloc text)
    | None =>
        if VAR_HAS_BOOLEAN v then
          if var_boolean v then ret (fb_stralloc "true")
          else ret (fb_stralloc "false")
        else if VAR_HAS_INTEGER v then
          ret (fb_stralloc (fmt_llu (var_integer v)))
        else ret (fb_stralloc "No default")
    end.

Definition var_to_string (name : string) : M (option string) :=
  let name := skip1 name in
  var <- var_find name ;;
  var <- (match var with
          | None => var_find_special name
          | Some _ => ret var
          end) ;;
  match var with
  | None => ret None
  | Some x => text <- __var_to_string x ;; ret (Some text)
  end.

Definition rand_type_name (f : rand_family) : string :=
  match f with
  | RAND_TYPE_UNIFORM => "uniform"
  | RAND_TYPE_GAMMA => "gamma"
  | RAND_TYPE_TABLE => "tabular"
  | RAND_TYPE_UNSET => "uninitialized"
  end.

Definition var_randvar_to_string (name : string) (param_name : rand_param)
  : M (option string) :=
  var <- var_find (skip1 name) ;;
  match var with
  | None => var_to_string name
  | Some x =>
      v <- load_var x ;;
      if negb (is_random v) || negb (VAR_HAS_RANDDIST v) then var_to_string name
      else
        match var_randptr v with
        | None => fault
        | Some r =>
            d <- load_randdist r ;;
            let as_llu (a : avd_t) : M (option string) :=
              value <- avd_get_int a ;; ret (Some (fb_stralloc (fmt_llu value))) in
            match param_name with
            | RAND_PARAM_TYPE => ret (Some (fb_stralloc (rand_type_name (rnd_family d))))
            | RAND_PARAM_SRC =>
                if rnd_src_generator d then ret (Some (fb_stralloc "rand48"))
                else ret (Some (fb_stralloc "urandom"))
            | RAND_PARAM_SEED => as_llu (rnd_seed d)
            | RAND_PARAM_MIN => as_llu (rnd_min d)
            | RAND_PARAM_MEAN => as_llu (rnd_mean d)
            | RAND_PARAM_GAMMA => as_llu (rnd_gamma d)
            | RAND_PARAM_ROUND => as_llu (rnd_round d)
            | RAND_PARAM_OTHER => ret None
            end
        end
  end.

(** ** Copies and assignments *)

(** [var_copy]: the source is read through its pointer at each test, as
    the two pointers may be the same. *)
Definition var_copy (dst_var src_var : nat) : M Z :=
  src <- load_var src_var ;;
  (if VAR_HAS_BOOLEAN src
   then update_var dst_var (fun v => VAR_SET_BOOL v (var_boolean src))
   else ret tt) ;;;
  src <- load_var src_var ;;
  (if VAR_HAS_INTEGER src
   then update_var dst_var (fun v => VAR_SET_INT v (var_integer src))
   else ret tt) ;;;
  src <- load_var src_var ;;
  (if VAR_HAS_DOUBLE src
   then update_var dst_var (fun v => VAR_SET_DBL v (var_dbl_flt src))
   else ret tt) ;;;
  src <- load_var src_var ;;
  if VAR_HAS_STRING src then
    match var_string src with
    | None => fault
    | Some text =>
        strptr <- ipc_stralloc text ;;
        match strptr with
        | None =>
            dst <- load_var dst_var ;;
            filebench_log LOG_ERROR
              ("Cannot assign string for variable " ++ var_name dst) ;;;
            ret (-1)
        | Some _ =>
            update_var dst_var (fun v => VAR_SET_STR v strptr) ;;; ret 0
        end
    end
  else ret 0.

Definition var_assign_string (name : string) (str : string) : M Z :=
  let name := skip1 name in
  var <- var_find name ;;
  var <- (match var with
          | None => var_alloc name
          | Some _ => ret var
          end) ;;
  match var with
  | None => filebench_log LOG_ERROR ("Cannot assign variable " ++ name) ;;; ret (-1)
  | Some x =>
      v <- load_var x ;;
      if is_random v then
        filebench_log LOG_ERROR ("Cannot assign string to random variable " ++ name) ;;;
        ret (-1)
      else
        strptr <- ipc_stralloc str ;;
        match strptr with
        | None =>
            filebench_log LOG_ERROR ("Cannot assign variable " ++ name) ;;; ret (-1)
        | Some _ => update_var x (fun v => VAR_SET_STR v strptr) ;;; ret 0
        end
  end.

Definition var_lvar_alloc_local (name : string) : M ptr :=
  let name := if Ascii.eqb (first_char name) "$" then skip1 name else name in
  var_alloc_cmn name VAR_TYPE_LOCAL.

(** [var_lvar_assign_var]: one arm of the chain is taken, the first whose
    test holds; the arm for a double stores through [VAR_SET_INT]. *)
Definition var_lvar_assign_var (name : string) (src_name : string) : M ptr :=
  let src_name := skip1 src_name in
  src_var <- var_find src_name ;;
  match src_var with
  | None =>
      filebench_log LOG_ERROR ("Cannot find source variable " ++ src_name) ;;; ret None
  | Some s =>
      dst_var <- var_lvar_alloc_local name ;;
      match dst_var with
      | None => filebench_log LOG_ERROR ("Cannot assign variable " ++ name) ;;; ret None
      | Some x =>
          src <- load_var s ;;
          if VAR_HAS_BOOLEAN src then
            update_var x (fun v => VAR_SET_BOOL v (var_boolean src)) ;;; ret (Some x)
          else if VAR_HAS_INTEGER src then
            update_var x (fun v => VAR_SET_INT v (var_integer src)) ;;; ret (Some x)
          else if VAR_HAS_STRING src then
            match var_string src with
            | None => fault
            | Some text =>
                strptr <- ipc_stralloc text ;;
                match strptr with
                | None =>
                    filebench_log LOG_ERROR ("Cannot assign variable " ++ name) ;;;
                    ret None
                | Some _ =>
                    update_var x (fun v => VAR_SET_STR v strptr) ;;; ret (Some x)
                end
            end
          else if VAR_HAS_DOUBLE src then
            update_var x (fun v => VAR_SET_INT v (u64_of_dbl (var_dbl_flt src))) ;;;
            ret (Some x)
          else if VAR_HAS_RANDDIST src then
            update_var x (fun v => VAR_SET_RAND v (var_randptr src)) ;;; ret (Some x)
          else ret (Some x)
      end
  end.

Definition var_lvar_assign_boolean (name : string) (bool : bool) : M ptr :=
  var <- var_lvar_alloc_local name ;;
  match var with
  | None => filebench_log LOG_ERROR ("Cannot assign variable " ++ name) ;;; ret None
  | Some x => update_var x (fun v => VAR_SET_BOOL v bool) ;;; ret (Some x)
  end.

Definition var_lvar_assign_integer (name : string) (integer : Z) : M ptr :=
  var <- var_lvar_alloc_local name ;;
  match var with
  | None => filebench_log LOG_ERROR ("Cannot assign variable " ++ name) ;;; ret None
  | Some x => update_var x (fun v => VAR_SET_INT v integer) ;;; ret (Some x)
  end.

Definition var_lvar_assign_double (name : string) (dbl : double) : M ptr :=
  var <- var_lvar_alloc_local name ;;
  match var with
  | None => filebench_log LOG_ERROR ("Cannot assign variable " ++ name) ;;; ret None
  | Some x => update_var x (fun v => VAR_SET_DBL v dbl) ;;; ret (Some x)
  end.

Definition var_lvar_assign_string (name : string) (str : string) : M ptr :=
  var <- var_lvar_alloc_local name ;;
  match var with
  | None => filebench_log LOG_ERROR ("Cannot assign variable " ++ name) ;;; ret None
  | Some x =>
      strptr <- ipc_stralloc str ;;
      match strptr with
      | None => filebench_log LOG_ERROR ("Cannot assign variable " ++ name) ;;; ret None
      | Some _ => update_var x (fun v => VAR_SET_STR v strptr) ;;; ret (Some x)
      end
  end.

(** ** Local variables of a composite flowop *)

Definition avd_update (avdp : avd_t) (lvar_list : list nat) : M unit := ret tt.

(** [var_update_comp_lvars]: the result of [var_copy] is discarded. *)
Definition var_update_comp_lvars (newlvar : nat) (proto_comp_vars : list nat)
    (mstr_lvars : list nat) : M unit :=
  new <- load_var newlvar ;;
  proto_lvar <- var_find_list_only (var_name new) proto_comp_vars ;;
  match proto_lvar with
  | None => ret tt
  | Some p =>
      new <- load_var newlvar ;;
      if decide (var_set_of new = VAR_TYPE_NONE_SET) then
        var_copy newlvar p ;;; ret tt
      else ret tt
  end.

End Ops.

(** ** A concrete platform for the examples

    Doubles that are whole numbers, a sampling function that always
    answers 7, and providers that know no internal variable. *)
Definition whole_double : Double :=
  {| double := Z; dbl_zero := 0%Z; dbl_of_u64 := fun z => z; u64_of_dbl := fun d => d |}.

Definition quiet_providers : @Providers whole_double :=
  {| rnd_get := fun d => (7%Z : @double whole_double, d);
     STATS_VAR := "stats.";
     EVENTGEN_VAR := "rate";
     DATE_VAR := "date";
     SCRIPT_VAR := "scriptname";
     HOST_VAR := "hostname";
     stats_findvar := fun _ _ w => (None, w);
     eventgen_ratevar := fun _ w => (None, w);
     date_var := fun _ w => (None, w);
     script_var := fun _ w => (None, w);
     host_var := fun _ w => (None, w) |}.

(** The segment after [ipc_init]: empty lists, untouched pools. *)
Definition world_init (vars avds randdists strs : nat) (env : gmap string string)
  : @world whole_double :=
  mk_world [] [] [] [] [] vars avds randdists strs env [].

(** ** The variants each reader accepts, in the spec's words

    [read_int] takes an integer literal, an integer reference or a random
    reference; [read_double] takes those and the two double variants;
    [read_bool] takes the boolean and the integer variants; [read_string]
    takes the two string variants. *)
Definition int_variant (t : avd_type_t) : bool :=
  match t with
  | AVD_VAL_INT | AVD_VARVAL_INT | AVD_RANDVAR => true
  | _ => false
  end.

Definition dbl_variant (t : avd_type_t) : bool :=
  match t with
  | AVD_VAL_INT | AVD_VARVAL_INT | AVD_VAL_DBL | AVD_VARVAL_DBL | AVD_RANDVAR => true
  | _ => false
  end.

Definition bool_variant (t : avd_type_t) : bool :=
  match t with
  | AVD_VAL_BOOL | AVD_VARVAL_BOOL | AVD_VAL_INT | AVD_VARVAL_INT => true
  | _ => false
  end.

Definition str_variant (t : avd_type_t) : bool :=
  match t with
  | AVD_VAL_STR | AVD_VARVAL_STR => true
  | _ => false
  end.

(** The world after one error message. *)
Definition logged_error {D : Double} (msg : string) (w : world) : world :=
  set_log (log w ++ [(LOG_ERROR, msg)]) w.

(** A routine returns: it neither shuts the process down nor faults. *)
Definition returns {D : Double} {A : Type} (m : M A) (w : world) : Prop :=
  exists a w', m w = Ret a w'.

(** ** Vocabulary for the statements about the registries *)

Section Vocabulary.

Context {D : Double}.

Local Open Scope list_scope.

(** What [find] answers in a world: the first local bearing the name,
    else the first global. *)
Definition find_ptr (w : world) (name : string) : ptr :=
  match scan_list w name (shm_var_loc_list w) with
  | Some x => Some x
  | None => scan_list w name (shm_var_list w)
  end.

(** [x] is the first variable of the chain [l] that bears [name]. *)
Definition first_named (w : world) (name : string) (l : list nat) (x : nat) : Prop :=
  exists l1 l2, l = l1 ++ x :: l2 /\ var_name (var_at w x) = name /\
    Forall (fun y => var_name (var_at w y) <> name) l1.

(** No variable of the chain [l] bears [name]. *)
Definition none_named (w : world) (name : string) (l : list nat) : Prop :=
  Forall (fun y => var_name (var_at w y) <> name) l.

(** Every pointer of the chain points to an allocated variable. *)
Definition valid_list (w : world) (l : list nat) : Prop :=
  Forall (fun y => (y < length (shm_vars w))%nat) l.

Definition valid_lists (w : world) : Prop :=
  valid_list w (shm_var_loc_list w) /\ valid_list w (shm_var_list w) /\
  valid_list w (shm_var_special_list w).

(** The text and its terminator fit in what is left of the string region. *)
Definition fits (s : string) (w : world) : Prop :=
  (String.length s + 1 <= ipc_free_str w)%nat.

(** The variable that [var_alloc_cmn] builds, and the world it leaves
    when both of its allocations succeed. *)
Definition new_var (name : string) (c : var_class) : var_t :=
  mk_var name c VAR_TYPE_NONE_SET false 0%Z dbl_zero None None.

Definition link_var (c : var_class) (x : nat) (w : world) : world :=
  match c with
  | VAR_TYPE_RANDOM | VAR_TYPE_NORMAL => set_var_list (shm_var_list w ++ [x]) w
  | VAR_TYPE_SPECIAL => set_var_special_list (shm_var_special_list w ++ [x]) w
  | VAR_TYPE_LOCAL => set_var_loc_list (x :: shm_var_loc_list w) w
  end.

Definition alloc_world (name : string) (c : var_class) (w : world) : world :=
  link_var c (length (shm_vars w))
    (set_free_str (ipc_free_str w - (String.length name + 1))
       (set_free_var (pred (ipc_free_var w))
          (set_vars (shm_vars w ++ [new_var name c]) w))).

(** The world after a run of successful allocations, oldest first. *)
Fixpoint alloc_all (l : list (string * var_class)) (w : world) : world :=
  match l with
  | [] => w
  | (n, c) :: rest => alloc_all rest (alloc_world n c w)
  end.

(** In the spec's words: among the allocations of a name, the local
    inserted most recently, else the global inserted first. *)
Definition local_named (name : string) (nc : string * var_class) : bool :=
  bool_decide (nc.1 = name /\ nc.2 = VAR_TYPE_LOCAL).

Definition global_named (name : string) (nc : string * var_class) : bool :=
  bool_decide (nc.1 = name /\ (nc.2 = VAR_TYPE_NORMAL \/ nc.2 = VAR_TYPE_RANDOM)).

Fixpoint first_index {A : Type} (p : A -> bool) (l : list A) : option nat :=
  match l with
  | [] => None
  | a :: rest => if p a then Some 0%nat else S <$> first_index p rest
  end.

Fixpoint last_index {A : Type} (p : A -> bool) (l : list A) : option nat :=
  match l with
  | [] => None
  | a :: rest =>
      match last_index p rest with
      | Some i => Some (S i)
      | None => if p a then Some 0%nat else None
      end
  end.

Definition innermost (name : string) (base : nat) (l : list (string * var_class)) : ptr :=
  match last_index (local_named name) l with
  | Some i => Some (base + i)%nat
  | None => (fun i => (base + i)%nat) <$> first_index (global_named name) l
  end.

(** The world with the variable at [x] replaced. *)
Definition with_var (x : nat) (v : var_t) (w : world) : world :=
  set_vars (<[x := v]> (shm_vars w)) w.

(** The four statements of [var_copy], each as the world it leaves. *)
Definition copy_bool_step (dst src : nat) (w : world) : world :=
  if VAR_HAS_BOOLEAN (var_at w src)
  then with_var dst (VAR_SET_BOOL (var_at w dst) (var_boolean (var_at w src))) w
  else w.

Definition copy_int_step (dst src : nat) (w : world) : world :=
  if VAR_HAS_INTEGER (var_at w src)
  then with_var dst (VAR_SET_INT (var_at w dst) (var_integer (var_at w src))) w
  else w.

Definition copy_dbl_step (dst src : nat) (w : world) : world :=
  if VAR_HAS_DOUBLE (var_at w src)
  then with_var dst (VAR_SET_DBL (var_at w dst) (var_dbl_flt (var_at w src))) w
  else w.

Definition copy_str_step (dst src : nat) (w : world) : outcome Z :=
  if VAR_HAS_STRING (var_at w src) then
    match var_string (var_at w src) with
    | None => Fault w
    | Some text =>
        if decide (String.length text + 1 <= ipc_free_str w)%nat then
          let w' := set_free_str (ipc_free_str w - (String.length text + 1)) w in
          Ret 0%Z (with_var dst (VAR_SET_STR (var_at w' dst) (Some text)) w')
        else
          Ret (-1)%Z
            (logged_error ("Cannot assign string for variable " +:+ var_name (var_at w dst)) w)
    end
  else Ret 0%Z w.

(** [copy(dst, src)] in the spec's words: every set facet of the source
    goes into the destination, boolean, integer and double first. *)
Definition copy_numeric (s d : var_t) : var_t :=
  let d1 := if VAR_HAS_BOOLEAN s then VAR_SET_BOOL d (var_boolean s) else d in
  let d2 := if VAR_HAS_INTEGER s then VAR_SET_INT d1 (var_integer s) else d1 in
  if VAR_HAS_DOUBLE s then VAR_SET_DBL d2 (var_dbl_flt s) else d2.

(** ... then the string, whose text is allocated afresh in the arena; when
    that allocation fails the copy fails with -1 and an error in the log. *)
Definition copy_spec (dst src : nat) (w : world) : outcome Z :=
  let s := var_at w src in
  let d := copy_numeric s (var_at w dst) in
  if VAR_HAS_STRING s then
    match var_string s with
    | None => Fault (with_var dst d w)
    | Some text =>
        if decide (String.length text + 1 <= ipc_free_str w)%nat then
          Ret 0%Z
            (with_var dst (VAR_SET_STR d (Some text))
               (set_free_str (ipc_free_str w - (String.length text + 1)) w))
        else
          Ret (-1)%Z
            (logged_error ("Cannot assign string for variable " +:+ var_name (var_at w dst))
               (with_var dst d w))
    end
  else Ret 0%Z (with_var dst d w).

(** The name under which [var_lvar_alloc_local] allocates. *)
Definition local_name (name : string) : string :=
  if Ascii.eqb (first_char name) "$" then skip1 name else name.

(** A routine never calls [filebench_shutdown]. *)
Definition never_exits {A : Type} (m : M A) : Prop :=
  forall w code w', m w <> Exit code w'.

(** Between [w] and [w'] the log has only grown, and its last entry is an
    error. *)
Definition appends_error (w w' : world) : Prop :=
  exists l msg, log w' = log w ++ l ++ [(LOG_ERROR, msg)].

(** Whenever the routine returns, the log has only grown. *)
Definition grows {A : Type} (m : M A) : Prop :=
  forall w a w', m w = Ret a w' -> exists l, log w' = log w ++ l.

(** Whenever the routine returns a value that reports a failure, it has
    appended to the log and the last entry is an error. *)
Definition fails_logged {A : Type} (m : M A) (bad : A -> Prop) : Prop :=
  forall w a w', m w = Ret a w' -> bad a -> appends_error w w'.

(** Whenever the routine returns, its value is one of [S]. *)
Definition ret_in {A : Type} (m : M A) (S : A -> Prop) : Prop :=
  forall w a w', m w = Ret a w' -> S a.

(** From [w] to [w'] the registries have only grown: the pool of
    variables is at least as long, every variable of [w] bears the name
    and the scope class it had, and each chain of [w'] is the chain of [w]
    with variables allocated since linked in front of it (locals) or
    behind it (globals, specials). *)
Definition extends (w w' : world) : Prop :=
  (length (shm_vars w) <= length (shm_vars w'))%nat /\
  (forall x, (x < length (shm_vars w))%nat ->
     var_name (var_at w' x) = var_name (var_at w x) /\
     var_class_of (var_at w' x) = var_class_of (var_at w x)) /\
  (exists l, shm_var_loc_list w' = l ++ shm_var_loc_list w /\
     Forall (fun y => (length (shm_vars w) <= y)%nat) l) /\
  (exists l, shm_var_list w' = shm_var_list w ++ l /\
     Forall (fun y => (length (shm_vars w) <= y)%nat) l) /\
  (exists l, shm_var_special_list w' = shm_var_special_list w ++ l /\
     Forall (fun y => (length (shm_vars w) <= y)%nat) l).

(** From [w] on, [name] resolves to [x] until a local of that name is
    allocated: in every world that extends [w], [var_find] answers [x]
    or a local of the name that is newer than every variable of [w]. *)
Definition resolves_until_shadowed (name : string) (w : world) (x : nat) : Prop :=
  forall w', extends w w' ->
    find_ptr w' name = Some x \/
    exists y, find_ptr w' name = Some y /\ (length (shm_vars w) <= y)%nat /\
      y ∈ shm_var_loc_list w' /\ var_name (var_at w' y) = name.

(** Whenever the routine returns from a world whose chains hold allocated
    variables only, it leaves such a world, and one that extends the world
    it started from. *)
Definition keeps_registry {A : Type} (m : M A) : Prop :=
  forall w a w', valid_lists w -> m w = Ret a w' -> valid_lists w' /\ extends w w'.

(** What a successful assignment to [name] leaves, whatever the facet: in
    [w1] the name resolves to [x], a variable that is not Random-scoped
    and that either is what the name resolved to in [w] or is a new global
    linked at the tail; the local chain is as it was, no other variable
    has changed and every other name resolves as it did. *)
Definition assigned_to (name : string) (w w1 : world) (x : nat) : Prop :=
  find_ptr w1 name = Some x /\
  var_name (var_at w1 x) = name /\ is_random (var_at w1 x) = false /\
  valid_lists w1 /\
  (find_ptr w name = Some x /\ shm_var_list w1 = shm_var_list w \/
   find_ptr w name = None /\ x = length (shm_vars w) /\
   shm_var_list w1 = shm_var_list w ++ [x]) /\
  shm_var_loc_list w1 = shm_var_loc_list w /\
  (forall y, (y < length (shm_vars w))%nat -> y <> x -> var_at w1 y = var_at w y) /\
  (forall m, m <> name -> find_ptr w1 m = find_ptr w m).

(** What the allocation of a local [name] leaves: in [w1] the name
    resolves to [x], the new variable, Local-scoped and at the head of the
    local chain, whatever bore the name before; the global chain and every
    older variable are as they were and every other name resolves as it
    did. *)
Definition local_bound (name : string) (w w1 : world) (x : nat) : Prop :=
  x = length (shm_vars w) /\
  find_ptr w1 name = Some x /\
  var_name (var_at w1 x) = name /\ var_class_of (var_at w1 x) = VAR_TYPE_LOCAL /\
  valid_lists w1 /\
  shm_var_loc_list w1 = x :: shm_var_loc_list w /\
  shm_var_list w1 = shm_var_list w /\
  (forall y, (y < length (shm_vars w))%nat -> var_at w1 y = var_at w y) /\
  (forall m, m <> name -> find_ptr w1 m = find_ptr w m).

(** The special variable that [var_find_special] has in hand after its
    scan: the first of the special chain that bears the name, or a new one
    linked at the tail of that chain when none does. *)
Definition special_in_hand (name : string) (w w1 : world) (x : nat) : Prop :=
  scan_list w name (shm_var_special_list w) = Some x /\ w1 = w \/
  scan_list w name (shm_var_special_list w) = None /\
    (0 < ipc_free_var w)%nat /\ fits name w /\
    x = length (shm_vars w) /\ w1 = alloc_world name VAR_TYPE_SPECIAL w.

(** Two worlds with the same variables, chains, arena budgets and
    environment: they differ at most in the distribution objects and in
    the log. *)
Definition same_variables (w w' : world) : Prop :=
  shm_vars w' = shm_vars w /\
  shm_var_loc_list w' = shm_var_loc_list w /\
  shm_var_list w' = shm_var_list w /\
  shm_var_special_list w' = shm_var_special_list w /\
  ipc_free_var w' = ipc_free_var w /\ ipc_free_avd w' = ipc_free_avd w /\
  ipc_free_randdist w' = ipc_free_randdist w /\ ipc_free_str w' = ipc_free_str w /\
  environ w' = environ w.

End Vocabulary.

Arguments alloc_world : simpl never.
Arguments var_alloc_cmn : simpl never.
Arguments var_find_internal : simpl never.
Arguments var_find_environment : simpl never.
Arguments var_find_special : simpl never.
Arguments avd_alloc_var_ptr : simpl never.
Arguments var_copy : simpl never.
Arguments var_find : simpl never.

(** ** Example worlds on the concrete platform *)

Section ExampleWorlds.

#[local] Existing Instance whole_double.
#[local] Existing Instance quiet_providers.

(** The world an outcome carries. *)
Definition world_of {A : Type} (o : outcome A) : world :=
  match o with
  | Ret _ w => w
  | Exit _ w => w
  | Fault w => w
  end.

(** A fresh segment with room for eight objects of each kind and 64 bytes
    of text, and an empty environment. *)
Definition fresh_world : world := world_init 8 8 8 64 ∅.

(** The same with no room for a variable, and with no room for a
    distribution object. *)
Definition no_var_world : world := world_init 0 8 8 64 ∅.

Definition no_randdist_world : world := world_init 8 8 0 64 ∅.

(** [PATH=/bin] at the first lookup of [(PATH)], [PATH=/usr/bin] later. *)
Definition env_bin : gmap string string := {[ "PATH" := "/bin" ]}.

Definition env_usr : gmap string string := {[ "PATH" := "/usr/bin" ]}.

Definition path_world : world :=
  Eval vm_compute in world_of (var_find_special "(PATH)" (world_init 8 8 8 64 env_bin)).

Definition path_world_later : world := set_environ env_usr path_world.

(** A random variable [$x], then a local [$x] in front of it. *)
Definition random_world : world := Eval vm_compute in world_of (var_define_randvar "$x" fresh_world).

Definition shadowed_world : world :=
  Eval vm_compute in world_of (var_lvar_assign_integer "$x" 5 random_world).

(** A global [$s] with its boolean and its integer facet set, and a local
    [$s] holding a double. *)
Definition both_set_world : world :=
  Eval vm_compute in world_of (var_assign_integer (Some "$s") 5
              (world_of (var_assign_boolean (Some "$s") true fresh_world))).

Definition double_world : world := Eval vm_compute in world_of (var_lvar_assign_double "$s" 3%Z fresh_world).

(** A prototype local [$n = 42] and a new local [$n] with nothing set. *)
Definition proto_world : world :=
  Eval vm_compute in world_of (var_lvar_alloc_local "$n"
              (world_of (var_lvar_assign_integer "$n" 42 fresh_world))).

(** [$x] assigned the empty text, and [$i] assigned 42. *)
Definition empty_string_world : world :=
  Eval vm_compute in world_of (var_assign_string "$x" "" fresh_world).

(** The new local [$d] that a copy of [$s] is to fill. *)
Definition copy_target_world : world :=
  Eval vm_compute in world_of (var_lvar_alloc_local "$d" both_set_world).

Definition double_target_world : world :=
  Eval vm_compute in world_of (var_lvar_alloc_local "$d" double_world).

Definition forty_two_world : world :=
  Eval vm_compute in world_of (var_assign_integer (Some "$i") 42 fresh_world).

(** A local [$n] holding 42 and a random global [$r]. *)
Definition random_and_local_world : world :=
  Eval vm_compute in world_of (var_define_randvar "$r"
              (world_of (var_lvar_assign_integer "$n" 42 fresh_world))).

(** ... and a second local [$n], copied from [$r]: it holds the
    distribution handle of [$r] and no value. *)
Definition handle_only_world : world :=
  Eval vm_compute in world_of (var_lvar_assign_var "$n" "$r" random_and_local_world).

(** In a segment with sixteen bytes of text, a local [$n] holding a text
    of eight characters ... *)
Definition long_text_world : world :=
  Eval vm_compute in world_of (var_lvar_assign_string "$n" "abcdefgh" (world_init 8 8 8 16 ∅)).

(** ... and a second local [$n] with nothing assigned: three bytes are
    left. *)
Definition long_text_target_world : world :=
  Eval vm_compute in world_of (var_lvar_alloc_local "$n" long_text_world).

(** A fresh segment with four bytes of text only. *)
Definition tight_world : world := world_init 8 8 8 4 ∅.



(** The segment of [no_randdist_world] after [$r] could not be defined. *)
Definition orphan_world : world :=
  Eval vm_compute in world_of (var_define_randvar "$r" no_randdist_world).

(** [$x] referenced before anything was assigned to it: the global [$x]
    is the variable 1, with no set bit. *)
Definition unset_world : world :=
  Eval vm_compute in world_of (var_ref_attr "$x" fresh_world).

End ExampleWorlds.

Section Readers.

Context {D : Double} {P : Providers}.

Local Open Scope list_scope.

Lemma avd_get_int_returns (a : avd_t) (w : world) : returns (avd_get_int a) w.
Proof.
  destruct a as [d|]; [|by eexists _, _].
  destruct d as [| | | |[x|]| | | | |[r|]]; by eexists _, _.
Qed.

Lemma avd_get_dbl_returns (a : avd_t) (w : world) : returns (avd_get_dbl a) w.
Proof.
  destruct a as [d|]; [|by eexists _, _].
  destruct d as [| | | |[x|]| | | |[x|]|[r|]]; by eexists _, _.
Qed.

Lemma avd_get_bool_returns (a : avd_t) (w : world) : returns (avd_get_bool a) w.
Proof.
  destruct a as [d|]; [|by eexists _, _].
  destruct d as [| |[x|]| |[x|]| | | | |]; by eexists _, _.
Qed.

Lemma avd_get_str_returns (a : avd_t) (w : world) : returns (avd_get_str a) w.
Proof.
  destruct a as [d|]; [|by eexists _, _].
  destruct d as [| | | | | |[x|]| | |]; by eexists _, _.
Qed.

(** C3: each of the four typed readers always returns; on an absent
    descriptor it returns the zero of its type and leaves the world, its
    log included, as it was; on a descriptor of a variant it does not
    accept (the uninitialized one included) it appends one error to the
    log and returns the same zero.  [avd_get_str] accepts the two string
    variants only, so every numeric or boolean variant yields [None]. *)
Theorem avd_readers_total (w : world) :
  (forall a, returns (avd_get_int a) w /\ returns (avd_get_dbl a) w /\
             returns (avd_get_bool a) w /\ returns (avd_get_str a) w) /\
  (avd_get_int None w = Ret 0%Z w /\ avd_get_dbl None w = Ret dbl_zero w /\
   avd_get_bool None w = Ret false w /\ avd_get_str None w = Ret None w) /\
  (forall d, int_variant (avd_type d) = false ->
     avd_get_int (Some d) w =
     Ret 0%Z (logged_error ("Attempt to get integer from " +:+ avd_get_type_string d +:+ " avd") w)) /\
  (forall d, dbl_variant (avd_type d) = false ->
     avd_get_dbl (Some d) w =
     Ret dbl_zero
       (logged_error ("Attempt to get floating point from " +:+ avd_get_type_string d +:+ " avd") w)) /\
  (forall d, bool_variant (avd_type d) = false ->
     avd_get_bool (Some d) w =
     Ret false (logged_error ("Attempt to get boolean from " +:+ avd_get_type_string d +:+ " avd") w)) /\
  (forall d, str_variant (avd_type d) = false ->
     avd_get_str (Some d) w =
     Ret None (logged_error ("Attempt to get string from " +:+ avd_get_type_string d +:+ " avd") w)).
Proof.
  split; [|split; [|repeat split]].
  - intros a. auto using avd_get_int_returns, avd_get_dbl_returns,
      avd_get_bool_returns, avd_get_str_returns.
  - done.
  - intros d Hd. by destruct d.
  - intros d Hd. by destruct d.
  - intros d Hd. by destruct d.
  - intros d Hd. by destruct d.
Qed.

End Readers.

(** ** Allocation and lookup in the registries *)

Section Registry.

Context {D : Double} {P : Providers}.

Local Open Scope list_scope.

Lemma insert_snoc {A : Type} (l : list A) (a b : A) :
  <[length l := b]> (l ++ [a]) = l ++ [b].
Proof. rewrite insert_app_r_alt by lia. by rewrite Nat.sub_diag. Qed.

Lemma lookup_snoc {A : Type} (l : list A) (a : A) : (l ++ [a]) !! length l = Some a.
Proof. by rewrite list_lookup_middle. Qed.

(** The three ways [var_alloc_cmn] can end. *)
Lemma var_alloc_cmn_no_var (name : string) (c : var_class) (w : world) :
  ipc_free_var w = 0%nat ->
  var_alloc_cmn name c w = Ret None (logged_error "Out of memory for variables" w).
Proof.
  intros Hv. unfold var_alloc_cmn, bind, ipc_malloc_var. by rewrite Hv.
Qed.

Lemma var_alloc_cmn_no_str (name : string) (c : var_class) (w : world) :
  (0 < ipc_free_var w)%nat -> ~ fits name w ->
  exists w', var_alloc_cmn name c w = Ret None w' /\
    shm_var_list w' = shm_var_list w /\
    shm_var_loc_list w' = shm_var_loc_list w /\
    shm_var_special_list w' = shm_var_special_list w /\
    log w' = log w ++ [(LOG_ERROR, "Out of memory for strings")].
Proof.
  intros Hv Hs. destruct w as [gl sl ll vs rs fv fa fr fs env lg].
  unfold fits in Hs. simpl in *. destruct fv as [|fv]; [lia|].
  unfold var_alloc_cmn, bind, ipc_malloc_var, update_var, bind, load_var, store_var,
    ipc_stralloc, var_at. simpl.
  rewrite lookup_snoc. simpl. rewrite insert_snoc.
  destruct (decide _) as [?|_]; [lia|]. simpl. by eexists.
Qed.

Lemma var_alloc_cmn_ok (name : string) (c : var_class) (w : world) :
  (0 < ipc_free_var w)%nat -> fits name w ->
  var_alloc_cmn name c w = Ret (Some (length (shm_vars w))) (alloc_world name c w).
Proof.
  intros Hv Hs. destruct w as [gl sl ll vs rs fv fa fr fs env lg].
  unfold fits in Hs. simpl in *. destruct fv as [|fv]; [lia|].
  unfold var_alloc_cmn, bind, ipc_malloc_var, update_var, bind, load_var, store_var,
    ipc_stralloc, var_at. simpl.
  rewrite lookup_snoc. simpl. rewrite insert_snoc.
  destruct (decide _) as [_|?]; [|lia]. simpl.
  rewrite lookup_snoc. simpl. rewrite insert_snoc.
  unfold alloc_world, new_var. by destruct c.
Qed.

(** [var_alloc_cmn] always returns, and a variable comes back only from
    the third way. *)
Lemma var_alloc_cmn_cases (name : string) (c : var_class) (w : world) :
  (exists w', var_alloc_cmn name c w = Ret None w' /\
     ((ipc_free_var w = 0)%nat \/ ~ fits name w) /\
     shm_var_list w' = shm_var_list w /\
     shm_var_loc_list w' = shm_var_loc_list w /\
     shm_var_special_list w' = shm_var_special_list w /\
     exists msg, log w' = log w ++ [(LOG_ERROR, msg)]) \/
  ((0 < ipc_free_var w)%nat /\ fits name w /\
   var_alloc_cmn name c w = Ret (Some (length (shm_vars w))) (alloc_world name c w)).
Proof.
  destruct (decide (ipc_free_var w = 0)%nat) as [Hv|Hv].
  - left. eexists. split; [by apply var_alloc_cmn_no_var|].
    repeat split; eauto.
  - destruct (decide (String.length name + 1 <= ipc_free_str w)%nat) as [Hs|Hs].
    + right. repeat split; [lia|done|]. apply var_alloc_cmn_ok; [lia|done].
    + left. destruct (var_alloc_cmn_no_str name c w) as (w' & -> & ? & ? & ? & ?);
        [lia|done|].
      eexists. repeat split; eauto.
Qed.

Lemma var_alloc_cmn_inv (name : string) (c : var_class) (w w' : world) (x : nat) :
  var_alloc_cmn name c w = Ret (Some x) w' ->
  (0 < ipc_free_var w)%nat /\ fits name w /\
  x = length (shm_vars w) /\ w' = alloc_world name c w.
Proof.
  intros H.
  destruct (var_alloc_cmn_cases name c w) as [(w1 & H1 & _)|(Hv & Hs & H1)];
    rewrite H1 in H; [discriminate|].
  by inversion H.
Qed.


Lemma shm_vars_alloc_world (name : string) (c : var_class) (w : world) :
  shm_vars (alloc_world name c w) = shm_vars w ++ [new_var name c].
Proof. by destruct c. Qed.

Lemma var_at_alloc_old (name : string) (c : var_class) (w : world) (y : nat) :
  (y < length (shm_vars w))%nat -> var_at (alloc_world name c w) y = var_at w y.
Proof.
  intros Hy. unfold var_at. rewrite shm_vars_alloc_world.
  by rewrite lookup_app_l.
Qed.

Lemma var_at_alloc_new (name : string) (c : var_class) (w : world) :
  var_at (alloc_world name c w) (length (shm_vars w)) = new_var name c.
Proof. unfold var_at. by rewrite shm_vars_alloc_world, lookup_snoc. Qed.

Lemma lists_alloc_world (name : string) (c : var_class) (w : world) :
  let x := length (shm_vars w) in
  let w' := alloc_world name c w in
  shm_var_loc_list w' =
    (if decide (c = VAR_TYPE_LOCAL) then x :: shm_var_loc_list w else shm_var_loc_list w) /\
  shm_var_list w' =
    (if decide (c = VAR_TYPE_NORMAL \/ c = VAR_TYPE_RANDOM)
     then shm_var_list w ++ [x] else shm_var_list w) /\
  shm_var_special_list w' =
    (if decide (c = VAR_TYPE_SPECIAL)
     then shm_var_special_list w ++ [x] else shm_var_special_list w).
Proof. by destruct c. Qed.

(** The scan reads nothing but the names of the variables of the chain. *)
Lemma scan_list_ext (w w' : world) (name : string) (l : list nat) :
  Forall (fun y => var_name (var_at w' y) = var_name (var_at w y)) l ->
  scan_list w' name l = scan_list w name l.
Proof.
  induction 1 as [|y l Hy _ IH]; [done|].
  simpl. rewrite Hy, IH. done.
Qed.

Lemma scan_list_app (w : world) (name : string) (l1 l2 : list nat) :
  scan_list w name (l1 ++ l2) =
  match scan_list w name l1 with
  | Some x => Some x
  | None => scan_list w name l2
  end.
Proof.
  induction l1 as [|y l1 IH]; [done|].
  simpl. by destruct (String.eqb _ _).
Qed.

Lemma scan_list_Some (w : world) (name : string) (l : list nat) (x : nat) :
  scan_list w name l = Some x <-> first_named w name l x.
Proof.
  split.
  - induction l as [|y l IH]; [done|]. simpl.
    destruct (String.eqb _ _) eqn:E.
    + intros [= ->]. exists [], l. apply String.eqb_eq in E. by repeat split.
    + intros (l1 & l2 & -> & Hx & Hl1)%IH. exists (y :: l1), l2.
      repeat split; [done|]. constructor; [|done]. by apply String.eqb_neq.
  - intros (l1 & l2 & -> & Hx & Hl1). induction Hl1 as [|y l1 Hy _ IH]; simpl.
    + by rewrite (proj2 (String.eqb_eq _ _) Hx).
    + by rewrite (proj2 (String.eqb_neq _ _) Hy).
Qed.

Lemma scan_list_None (w : world) (name : string) (l : list nat) :
  scan_list w name l = None <-> none_named w name l.
Proof.
  unfold none_named. induction l as [|y l IH]; simpl.
  - split; [constructor|done].
  - destruct (String.eqb _ _) eqn:E.
    + split; [done|]. intros H. inversion H as [|? ? Hy _].
      by apply String.eqb_eq in E.
    + rewrite IH. apply String.eqb_neq in E. split.
      * by constructor.
      * by inversion 1.
Qed.

Lemma var_find_eq (name : string) (w : world) :
  var_find name w = Ret (find_ptr w name) w.
Proof. unfold var_find, find_ptr. by destruct (scan_list _ _ _). Qed.

(** Allocation leaves the scan of a chain of allocated variables as it
    was. *)
Lemma scan_list_alloc_old (n name : string) (c : var_class) (w : world) (l : list nat) :
  valid_list w l ->
  scan_list (alloc_world n c w) name l = scan_list w name l.
Proof.
  intros Hl. apply scan_list_ext. eapply Forall_impl; [exact Hl|].
  intros y Hy. simpl in Hy. by rewrite var_at_alloc_old.
Qed.


Lemma scan_list_cons (w : world) (name : string) (y : nat) (l : list nat) :
  scan_list w name (y :: l) =
  if String.eqb (var_name (var_at w y)) name then Some y else scan_list w name l.
Proof. done. Qed.

Lemma scan_list_alloc_new (n name : string) (c : var_class) (w : world) (l : list nat) :
  scan_list (alloc_world n c w) name (length (shm_vars w) :: l) =
  if String.eqb n name then Some (length (shm_vars w))
  else scan_list (alloc_world n c w) name l.
Proof. by rewrite scan_list_cons, var_at_alloc_new. Qed.

Lemma find_ptr_alloc_local (name : string) (w : world) :
  find_ptr (alloc_world name VAR_TYPE_LOCAL w) name = Some (length (shm_vars w)).
Proof.
  unfold find_ptr.
  destruct (lists_alloc_world name VAR_TYPE_LOCAL w) as (Hl & _).
  rewrite Hl, decide_True by done.
  by rewrite scan_list_alloc_new, String.eqb_refl.
Qed.

Lemma find_ptr_alloc_global (name : string) (c : var_class) (w : world) :
  c = VAR_TYPE_NORMAL \/ c = VAR_TYPE_RANDOM -> valid_lists w ->
  find_ptr (alloc_world name c w) name =
  Some (default (length (shm_vars w)) (find_ptr w name)).
Proof.
  intros Hc (Hv & Hg & _). unfold find_ptr.
  destruct (lists_alloc_world name c w) as (Hl & Hgl & _).
  rewrite Hl, Hgl. clear Hl Hgl.
  destruct Hc as [-> | ->]; simpl.
  all: rewrite scan_list_app.
  all: rewrite (scan_list_alloc_old _ _ _ _ _ Hv), (scan_list_alloc_old _ _ _ _ _ Hg).
  all: destruct (scan_list w name (shm_var_loc_list w)); [done|].
  all: destruct (scan_list w name (shm_var_list w)); [done|].
  all: by rewrite scan_list_alloc_new, String.eqb_refl.
Qed.

Lemma find_ptr_alloc_other (n name : string) (c : var_class) (w : world) :
  n <> name -> valid_lists w ->
  find_ptr (alloc_world n c w) name = find_ptr w name.
Proof.
  intros Hn (Hv & Hg & _). unfold find_ptr.
  apply String.eqb_neq in Hn.
  destruct (lists_alloc_world n c w) as (Hl & Hgl & _).
  rewrite Hl, Hgl. clear Hl Hgl.
  destruct c; simpl.
  - rewrite scan_list_app.
    rewrite (scan_list_alloc_old _ _ _ _ _ Hv), (scan_list_alloc_old _ _ _ _ _ Hg).
    rewrite scan_list_alloc_new, Hn. simpl.
    by repeat destruct (scan_list w name _).
  - rewrite scan_list_app.
    rewrite (scan_list_alloc_old _ _ _ _ _ Hv), (scan_list_alloc_old _ _ _ _ _ Hg).
    rewrite scan_list_alloc_new, Hn. simpl.
    by repeat destruct (scan_list w name _).
  - by rewrite (scan_list_alloc_old _ _ _ _ _ Hv), (scan_list_alloc_old _ _ _ _ _ Hg).
  - rewrite var_at_alloc_new. simpl. rewrite Hn.
    by rewrite (scan_list_alloc_old _ _ _ _ _ Hv), (scan_list_alloc_old _ _ _ _ _ Hg).
Qed.

Lemma find_ptr_alloc_special (n name : string) (w : world) :
  valid_lists w ->
  find_ptr (alloc_world n VAR_TYPE_SPECIAL w) name = find_ptr w name.
Proof.
  intros (Hv & Hg & _). unfold find_ptr.
  destruct (lists_alloc_world n VAR_TYPE_SPECIAL w) as (Hl & Hgl & _).
  rewrite Hl, Hgl. simpl.
  by rewrite (scan_list_alloc_old _ _ _ _ _ Hv), (scan_list_alloc_old _ _ _ _ _ Hg).
Qed.

(** Allocation keeps the chains within the allocated variables. *)
Lemma valid_lists_alloc_world (n : string) (c : var_class) (w : world) :
  valid_lists w -> valid_lists (alloc_world n c w).
Proof.
  intros (Hl & Hg & Hs).
  assert (Hlen : length (shm_vars (alloc_world n c w)) = S (length (shm_vars w))).
  { rewrite shm_vars_alloc_world, length_app. simpl. lia. }
  assert (Hup : forall l, valid_list w l -> valid_list (alloc_world n c w) l).
  { intros l H. unfold valid_list in *. rewrite Hlen.
    eapply Forall_impl; [exact H|]. simpl. lia. }
  assert (Hnew : valid_list (alloc_world n c w) [length (shm_vars w)]).
  { unfold valid_list. rewrite Hlen. repeat constructor. }
  destruct (lists_alloc_world n c w) as (El & Eg & Es).
  unfold valid_lists. rewrite El, Eg, Es.
  destruct c; simpl; repeat split; auto.
  - apply Forall_app. split; [by apply Hup|exact Hnew].
  - apply Forall_app. split; [by apply Hup|exact Hnew].
  - apply Forall_app. split; [by apply Hup|exact Hnew].
  - constructor; [rewrite Hlen; lia|]. by apply Hup.
Qed.

Lemma alloc_all_snoc (l : list (string * var_class)) (n : string) (c : var_class)
    (w : world) :
  alloc_all (l ++ [(n, c)]) w = alloc_world n c (alloc_all l w).
Proof.
  revert w. induction l as [|[n' c'] l IH]; intros w; [done|].
  simpl. by rewrite IH.
Qed.

Lemma alloc_all_invariant (l : list (string * var_class)) (w : world) :
  valid_lists w ->
  valid_lists (alloc_all l w) /\
  length (shm_vars (alloc_all l w)) = (length (shm_vars w) + length l)%nat.
Proof.
  revert w. induction l as [|[n c] l IH]; intros w Hw; simpl.
  - split; [done|lia].
  - destruct (IH (alloc_world n c w)) as [Hv Hlen];
      [by apply valid_lists_alloc_world|].
    split; [done|]. rewrite Hlen, shm_vars_alloc_world, length_app. simpl. lia.
Qed.

Lemma first_index_snoc {A : Type} (p : A -> bool) (l : list A) (a : A) :
  first_index p (l ++ [a]) =
  match first_index p l with
  | Some i => Some i
  | None => if p a then Some (length l) else None
  end.
Proof.
  induction l as [|b l IH]; simpl.
  - by destruct (p a).
  - destruct (p b); [done|]. rewrite IH.
    destruct (first_index p l); [done|]. by destruct (p a).
Qed.

Lemma last_index_snoc {A : Type} (p : A -> bool) (l : list A) (a : A) :
  last_index p (l ++ [a]) = if p a then Some (length l) else last_index p l.
Proof.
  induction l as [|b l IH]; simpl.
  - by destruct (p a).
  - rewrite IH. destruct (p a); [done|].
    by destruct (last_index p l).
Qed.

(** After any run of allocations from a world that knows no variable of
    the name, [var_find] answers as the spec says. *)
Lemma find_ptr_alloc_all (name : string) (l : list (string * var_class)) (w : world) :
  valid_lists w -> find_ptr w name = None ->
  find_ptr (alloc_all l w) name = innermost name (length (shm_vars w)) l.
Proof.
  intros Hw Hn. induction l as [|[n c] l IH] using rev_ind; [done|].
  rewrite alloc_all_snoc.
  destruct (alloc_all_invariant l w Hw) as [Hv Hlen].
  unfold innermost in *. rewrite last_index_snoc, first_index_snoc.
  unfold local_named at 1, global_named at 2. simpl.
  destruct (decide (n = name)) as [->|Hne].
  - destruct c.
    + rewrite bool_decide_eq_false_2 by (intros [_ ?]; done).
      rewrite bool_decide_eq_true_2 by auto.
      rewrite find_ptr_alloc_global by auto. rewrite IH, Hlen.
      destruct (last_index _ l); [done|].
      by destruct (first_index _ l).
    + rewrite bool_decide_eq_false_2 by (intros [_ ?]; done).
      rewrite bool_decide_eq_true_2 by auto.
      rewrite find_ptr_alloc_global by auto. rewrite IH, Hlen.
      destruct (last_index _ l); [done|].
      by destruct (first_index _ l).
    + rewrite bool_decide_eq_false_2 by (intros [_ ?]; done).
      rewrite bool_decide_eq_false_2 by (intros [_ [?|?]]; done).
      rewrite find_ptr_alloc_special by done. rewrite IH.
      destruct (last_index _ l); [done|].
      by destruct (first_index _ l).
    + rewrite bool_decide_eq_true_2 by auto.
      by rewrite find_ptr_alloc_local, Hlen.
  - rewrite bool_decide_eq_false_2 by (intros [? _]; done).
    rewrite bool_decide_eq_false_2 by (intros [? _]; done).
    rewrite find_ptr_alloc_other by done. rewrite IH.
    destruct (last_index _ l); [done|].
    by destruct (first_index _ l).
Qed.

(** C4: [var_find] scans the local chain from its head and answers with
    the first variable that bears the name; only when no local bears it
    does it scan the global chain, again from the head.  A local is linked
    at the head, so a newly allocated local is what [var_find] answers for
    its name from then on, whatever bore that name before; a global is
    linked at the tail, so after a new global the answer for its name is
    what it was before, and the new variable only if there was none.
    Allocating under another name changes no answer.  Hence, after any run
    of successful allocations from a world that knew no variable of the
    name, [var_find] answers with the local of that name allocated last
    and, when the run allocated no such local, with the global of that
    name allocated first.  Each step of such a run is the world
    [var_alloc_cmn] leaves when the arena has a variable and room for the
    name. *)
Theorem var_find_shadowing (name : string) (w : world) :
  var_find name w = Ret (find_ptr w name) w /\
  (forall x, find_ptr w name = Some x <->
     first_named w name (shm_var_loc_list w) x \/
     (none_named w name (shm_var_loc_list w) /\
      first_named w name (shm_var_list w) x)) /\
  (find_ptr w name = None <->
     none_named w name (shm_var_loc_list w) /\ none_named w name (shm_var_list w)) /\
  (forall x w',
     var_alloc_cmn name VAR_TYPE_LOCAL w = Ret (Some x) w' ->
     shm_var_loc_list w' = x :: shm_var_loc_list w /\
     shm_var_list w' = shm_var_list w /\
     var_find name w' = Ret (Some x) w') /\
  (forall c x w',
     c = VAR_TYPE_NORMAL \/ c = VAR_TYPE_RANDOM -> valid_lists w ->
     var_alloc_cmn name c w = Ret (Some x) w' ->
     shm_var_list w' = shm_var_list w ++ [x] /\
     shm_var_loc_list w' = shm_var_loc_list w /\
     var_find name w' = Ret (Some (default x (find_ptr w name))) w') /\
  (forall n c x w',
     n <> name -> valid_lists w ->
     var_alloc_cmn n c w = Ret (Some x) w' ->
     var_find name w' = Ret (find_ptr w name) w') /\
  (forall l,
     valid_lists w -> find_ptr w name = None ->
     var_find name (alloc_all l w) =
     Ret (innermost name (length (shm_vars w)) l) (alloc_all l w)) /\
  (forall n c,
     (0 < ipc_free_var w)%nat -> fits n w ->
     var_alloc_cmn n c w = Ret (Some (length (shm_vars w))) (alloc_world n c w)).
Proof.
  split; [apply var_find_eq|].
  split; [|split; [|split; [|split; [|split; [|split]]]]].
  - intros x. unfold find_ptr.
    destruct (scan_list w name (shm_var_loc_list w)) as [y|] eqn:E.
    + split.
      * intros [= ->]. left. by apply scan_list_Some.
      * intros [Hx|[Hn _]].
        -- apply scan_list_Some in Hx. congruence.
        -- apply scan_list_None in Hn. congruence.
    + rewrite scan_list_Some. split.
      * intros Hx. right. split; [by apply scan_list_None|done].
      * intros [Hx|[_ Hx]]; [|done].
        apply scan_list_Some in Hx. congruence.
  - unfold find_ptr.
    destruct (scan_list w name (shm_var_loc_list w)) as [y|] eqn:E.
    + split; [done|]. intros [Hn _]. apply scan_list_None in Hn. congruence.
    + rewrite scan_list_None. apply scan_list_None in E. tauto.
  - intros x w' (_ & _ & -> & ->)%var_alloc_cmn_inv.
    destruct (lists_alloc_world name VAR_TYPE_LOCAL w) as (Hl & Hg & _).
    repeat split; [done..|].
    by rewrite var_find_eq, find_ptr_alloc_local.
  - intros c x w' Hc Hw (_ & _ & -> & ->)%var_alloc_cmn_inv.
    destruct (lists_alloc_world name c w) as (Hl & Hg & _).
    rewrite Hl, Hg.
    pose proof (find_ptr_alloc_global name c w Hc Hw) as Hf.
    rewrite var_find_eq, Hf.
    by destruct Hc as [-> | ->].
  - intros n c x w' Hn Hw (_ & _ & -> & ->)%var_alloc_cmn_inv.
    by rewrite var_find_eq, find_ptr_alloc_other.
  - intros l Hw Hn. by rewrite var_find_eq, find_ptr_alloc_all.
  - intros n c Hv Hs. by apply var_alloc_cmn_ok.
Qed.

End Registry.

(** ** Random variables *)

Section Random.

Context {D : Double} {P : Providers}.

Local Open Scope list_scope.

Lemma find_ptr_same_vars (w w' : world) (name : string) :
  shm_vars w' = shm_vars w ->
  shm_var_loc_list w' = shm_var_loc_list w ->
  shm_var_list w' = shm_var_list w ->
  find_ptr w' name = find_ptr w name.
Proof.
  intros Hv Hl Hg. unfold find_ptr. rewrite Hl, Hg.
  assert (Hs : forall l, scan_list w' name l = scan_list w name l).
  { intros l. apply scan_list_ext, Forall_forall. intros y _.
    unfold var_at. by rewrite Hv. }
  by rewrite !Hs.
Qed.

Lemma find_ptr_logged_error (msg : string) (w : world) (name : string) :
  find_ptr (logged_error msg w) name = find_ptr w name.
Proof. by apply find_ptr_same_vars. Qed.

Lemma var_find_alloc_found (name : string) (x : nat) (w : world) :
  find_ptr w (skip1 name) = Some x ->
  var_find_alloc (Some name) w = Ret (Some x) w.
Proof.
  intros H. unfold var_find_alloc, bind. by rewrite var_find_eq, H.
Qed.

Lemma var_define_randvar_in_use (name : string) (x : nat) (w : world) :
  find_ptr w (skip1 name) = Some x ->
  var_define_randvar name w =
  Ret None (logged_error ("variable name already in use" +:+ nl) w).
Proof.
  intros H. unfold var_define_randvar, bind. by rewrite var_find_eq, H.
Qed.

Lemma var_find_randvar_not_random (name : string) (x : nat) (w : world) :
  find_ptr w (skip1 name) = Some x ->
  is_random (var_at w x) = false \/ VAR_HAS_RANDDIST (var_at w x) = false ->
  var_find_randvar name w =
  Ret None (logged_error ("Found variable $" +:+ skip1 name +:+ " not random" +:+ nl) w).
Proof.
  intros H Hx. unfold var_find_randvar, bind. rewrite var_find_eq, H.
  unfold load_var. by destruct Hx as [-> | ->]; rewrite ?orb_true_r.
Qed.

(** C5 (amended): when [var_find] resolves the name to a Random-scoped
    variable, each of the three assignments logs an error and returns -1,
    and the world differs from the one before in its log only: every
    variable, with its facets and its distribution handle, and every
    distribution object is as it was.  [var_define_randvar] on a name that
    [var_find] resolves, to a variable of any class, logs an error and
    returns [NULL], again with no other change. *)
Theorem assign_to_random_rejected (name : string) (x : nat) (w : world) :
  find_ptr w (skip1 name) = Some x ->
  (is_random (var_at w x) = true ->
   (forall b, var_assign_boolean (Some name) b w =
      Ret (-1)%Z (logged_error ("Cannot assign boolean to random variable " +:+ name) w)) /\
   (forall i, var_assign_integer (Some name) i w =
      Ret (-1)%Z (logged_error ("Cannot assign integer to random variable " +:+ name) w)) /\
   (forall s, var_assign_string name s w =
      Ret (-1)%Z
        (logged_error ("Cannot assign string to random variable " +:+ skip1 name) w))) /\
  var_define_randvar name w =
     Ret None (logged_error ("variable name already in use" +:+ nl) w) /\
  (forall msg, shm_vars (logged_error msg w) = shm_vars w /\
               shm_randdists (logged_error msg w) = shm_randdists w /\
               shm_var_list (logged_error msg w) = shm_var_list w /\
               shm_var_loc_list (logged_error msg w) = shm_var_loc_list w /\
               shm_var_special_list (logged_error msg w) = shm_var_special_list w).
Proof.
  intros H. repeat apply conj; try done.
  - intros Hr. repeat apply conj.
    + intros b. unfold var_assign_boolean, bind.
      rewrite (var_find_alloc_found _ _ _ H). unfold load_var. by rewrite Hr.
    + intros i. unfold var_assign_integer, bind.
      rewrite (var_find_alloc_found _ _ _ H). unfold load_var. by rewrite Hr.
    + intros s. unfold var_assign_string, bind.
      rewrite var_find_eq, H. unfold ret, load_var. by rewrite Hr.
  - by apply var_define_randvar_in_use with x.
Qed.

(** C10: when [var_define_randvar] has allocated and linked its variable
    and [randdist_alloc] then fails, it returns [NULL]; the variable stays
    at the tail of the global chain, Random-scoped, with no distribution
    attached.  In the world it leaves, and in every world with the same
    variables and chains, [var_find] resolves the name to that variable, a
    second [var_define_randvar] of the name fails with "variable name
    already in use", and [var_find_randvar] of it fails with "Found
    variable ... not random". *)
Theorem define_randvar_consumes_name (name : string) (w : world) :
  valid_lists w ->
  find_ptr w (skip1 name) = None ->
  (0 < ipc_free_var w)%nat ->
  fits (skip1 name) w ->
  ipc_free_randdist w = 0%nat ->
  let x := length (shm_vars w) in
  let w1 := logged_error ("failed to alloc random distribution object" +:+ nl)
              (alloc_world (skip1 name) VAR_TYPE_RANDOM w) in
  var_define_randvar name w = Ret None w1 /\
  shm_var_list w1 = shm_var_list w ++ [x] /\
  var_at w1 x = new_var (skip1 name) VAR_TYPE_RANDOM /\
  var_randptr (var_at w1 x) = None /\
  VAR_HAS_RANDDIST (var_at w1 x) = false /\
  find_ptr w1 (skip1 name) = Some x /\
  var_define_randvar name w1 =
    Ret None (logged_error ("variable name already in use" +:+ nl) w1) /\
  var_find_randvar name w1 =
    Ret None (logged_error ("Found variable $" +:+ skip1 name +:+ " not random" +:+ nl) w1) /\
  (forall w2,
     shm_vars w2 = shm_vars w1 ->
     shm_var_loc_list w2 = shm_var_loc_list w1 ->
     shm_var_list w2 = shm_var_list w1 ->
     var_define_randvar name w2 =
       Ret None (logged_error ("variable name already in use" +:+ nl) w2) /\
     var_find_randvar name w2 =
       Ret None
         (logged_error ("Found variable $" +:+ skip1 name +:+ " not random" +:+ nl) w2)).
Proof.
  intros Hw Hf Hv Hs Hr x w1.
  assert (Hx : var_at w1 x = new_var (skip1 name) VAR_TYPE_RANDOM)
    by apply var_at_alloc_new.
  assert (Hf1 : find_ptr w1 (skip1 name) = Some x).
  { unfold w1. rewrite find_ptr_logged_error.
    rewrite find_ptr_alloc_global by auto. by rewrite Hf. }
  repeat apply conj.
  - unfold var_define_randvar, bind. rewrite var_find_eq, Hf.
    rewrite var_alloc_cmn_ok by done.
    unfold randdist_alloc.
    change (ipc_free_randdist (alloc_world (skip1 name) VAR_TYPE_RANDOM w))
      with (ipc_free_randdist w).
    by rewrite Hr.
  - done.
  - done.
  - by rewrite Hx.
  - by rewrite Hx.
  - done.
  - by apply var_define_randvar_in_use with x.
  - apply var_find_randvar_not_random with x; [done|]. right. by rewrite Hx.
  - intros w2 H2v H2l H2g.
    assert (Hf2 : find_ptr w2 (skip1 name) = Some x)
      by (by rewrite (find_ptr_same_vars w1 w2)).
    split; [by apply var_define_randvar_in_use with x|].
    apply var_find_randvar_not_random with x; [done|]. right.
    unfold var_at. rewrite H2v. fold (var_at w1 x). by rewrite Hx.
Qed.

End Random.

(** ** Special variables from the environment *)

Section Environment.

Context {D : Double} {P : Providers}.

Local Open Scope list_scope.

Lemma last_char_closing (c0 c : ascii) (s : string) :
  last_char c0 (s +:+ String c EmptyString) = c.
Proof. revert c0. induction s as [|a s IH]; intros c0; simpl; [done|apply IH]. Qed.

Lemma chop_last_closing (c : ascii) (s : string) :
  chop_last (s +:+ String c EmptyString) = s.
Proof.
  induction s as [|a s IH]; [done|].
  simpl. rewrite IH. by destruct s.
Qed.

Lemma scan_list_name (w : world) (name : string) (l : list nat) (x : nat) :
  scan_list w name l = Some x -> var_name (var_at w x) = name.
Proof. by intros (_ & _ & _ & ? & _)%scan_list_Some. Qed.

(** [var_find_environment] on a variable named [(NAME)]: the environment
    is read and, when [NAME] is set, its text is stored. *)
Lemma var_find_environment_eq (NAME : string) (x : nat) (w : world) :
  var_name (var_at w x) = String "(" (NAME +:+ ")") ->
  var_find_environment (Some x) w =
  match environ w !! NAME with
  | Some text => Ret (Some x) (with_var x (VAR_SET_STR (var_at w x) (Some text)) w)
  | None => Ret None w
  end.
Proof.
  intros Hn. unfold var_find_environment, bind, load_var, fb_stralloc.
  rewrite Hn, last_char_closing, chop_last_closing. simpl.
  unfold getenv. by destruct (environ w !! NAME).
Qed.

Lemma var_find_special_cached (NAME : string) (x : nat) (w : world) :
  scan_list w (String "(" (NAME +:+ ")")) (shm_var_special_list w) = Some x ->
  var_find_special (String "(" (NAME +:+ ")")) w =
  match environ w !! NAME with
  | Some text => Ret (Some x) (with_var x (VAR_SET_STR (var_at w x) (Some text)) w)
  | None =>
      Ret None
        (logged_error ("Cannot find environment variable " +:+ String "(" (NAME +:+ ")")) w)
  end.
Proof.
  intros Hs. pose proof (scan_list_name _ _ _ _ Hs) as Hn.
  unfold var_find_special, bind, get_world. rewrite Hs. simpl.
  rewrite (var_find_environment_eq NAME) by done.
  destruct (environ w !! NAME); [done|].
  unfold load_var. by rewrite Hn.
Qed.

Lemma var_find_special_first (NAME : string) (w : world) :
  scan_list w (String "(" (NAME +:+ ")")) (shm_var_special_list w) = None ->
  (0 < ipc_free_var w)%nat -> fits (String "(" (NAME +:+ ")")) w ->
  let x := length (shm_vars w) in
  let w1 := alloc_world (String "(" (NAME +:+ ")")) VAR_TYPE_SPECIAL w in
  var_find_special (String "(" (NAME +:+ ")")) w =
  match environ w !! NAME with
  | Some text => Ret (Some x) (with_var x (VAR_SET_STR (var_at w1 x) (Some text)) w1)
  | None =>
      Ret None
        (logged_error ("Cannot find environment variable " +:+ String "(" (NAME +:+ ")")) w1)
  end.
Proof.
  intros Hs Hv Hf x w1.
  unfold var_find_special, bind, get_world. rewrite Hs.
  unfold var_alloc_special. rewrite var_alloc_cmn_ok by done. simpl.
  fold x w1.
  assert (Hn : var_name (var_at w1 x) = String "(" (NAME +:+ ")"))
    by (unfold w1, x; by rewrite var_at_alloc_new).
  rewrite (var_find_environment_eq NAME) by done.
  change (environ w1) with (environ w).
  destruct (environ w !! NAME); [done|].
  unfold load_var. by rewrite Hn.
Qed.

Lemma var_at_with_var (x : nat) (v : var_t) (w : world) :
  (x < length (shm_vars w))%nat -> var_at (with_var x v w) x = v.
Proof.
  intros Hx. unfold var_at, with_var. simpl.
  by rewrite list_lookup_insert_eq.
Qed.

Lemma var_at_with_var_ne (x y : nat) (v : var_t) (w : world) :
  x <> y -> var_at (with_var x v w) y = var_at w y.
Proof.
  intros Hx. unfold var_at, with_var. simpl.
  by rewrite list_lookup_insert_ne.
Qed.

Lemma var_name_with_var (x : nat) (v : var_t) (w : world) (y : nat) :
  var_name v = var_name (var_at w x) ->
  var_name (var_at (with_var x v w) y) = var_name (var_at w y).
Proof.
  intros Hv. destruct (decide (x = y)) as [<-|Hxy].
  - destruct (decide (x < length (shm_vars w))%nat) as [Hx|Hx].
    + by rewrite var_at_with_var.
    + unfold var_at, with_var. simpl. by rewrite list_insert_ge by lia.
  - by rewrite var_at_with_var_ne.
Qed.

Lemma scan_list_with_var (x : nat) (v : var_t) (w : world) (name : string) (l : list nat) :
  var_name v = var_name (var_at w x) ->
  scan_list (with_var x v w) name l = scan_list w name l.
Proof.
  intros Hv. apply scan_list_ext, Forall_forall. intros y _.
  by apply var_name_with_var.
Qed.

(** C2 (amended): for a special name [(NAME)], the first lookup allocates
    the Special variable, reads [NAME] from the environment and stores its
    text in the string facet.  Every later lookup answers with the same
    variable, but reads the environment again: the string facet is
    overwritten with the text [NAME] has at that moment, and when [NAME]
    is no longer set the lookup logs an error and answers [NULL], the
    variable keeping what it held. *)
Theorem environment_lookup_requeries (NAME : string) (w : world) :
  let name := String "(" (NAME +:+ ")") in
  valid_lists w ->
  (scan_list w name (shm_var_special_list w) = None ->
   (0 < ipc_free_var w)%nat -> fits name w ->
   forall text, environ w !! NAME = Some text ->
   exists w', var_find_special name w = Ret (Some (length (shm_vars w))) w' /\
     shm_var_special_list w' = shm_var_special_list w ++ [length (shm_vars w)] /\
     scan_list w' name (shm_var_special_list w') = Some (length (shm_vars w)) /\
     var_string (var_at w' (length (shm_vars w))) = Some text /\
     VAR_HAS_STRING (var_at w' (length (shm_vars w))) = true /\
     environ w' = environ w) /\
  (forall x, scan_list w name (shm_var_special_list w) = Some x ->
   (forall text, environ w !! NAME = Some text ->
      exists w', var_find_special name w = Ret (Some x) w' /\
        var_string (var_at w' x) = Some text /\
        VAR_HAS_STRING (var_at w' x) = true /\
        scan_list w' name (shm_var_special_list w') = Some x /\
        environ w' = environ w /\
        (forall y, y <> x -> var_at w' y = var_at w y)) /\
   (environ w !! NAME = None ->
      var_find_special name w =
      Ret None (logged_error ("Cannot find environment variable " +:+ name) w))).
Proof.
  intros name (_ & _ & Hsp). split.
  - intros Hs Hv Hf text He.
    pose proof (var_find_special_first NAME w Hs Hv Hf) as H. simpl in H.
    rewrite He in H. eexists. split; [exact H|].
    set (x := length (shm_vars w)) in *.
    set (w1 := alloc_world name VAR_TYPE_SPECIAL w) in *.
    assert (Hx : (x < length (shm_vars w1))%nat).
    { unfold w1. rewrite shm_vars_alloc_world, length_app. simpl. lia. }
    assert (Hn : var_at w1 x = new_var name VAR_TYPE_SPECIAL)
      by apply var_at_alloc_new.
    repeat apply conj.
    + done.
    + rewrite scan_list_with_var by done.
      change (scan_list w1 name (shm_var_special_list w ++ [x]) = Some x).
      rewrite scan_list_app. unfold w1 at 1.
      rewrite scan_list_alloc_old, Hs by done.
      rewrite scan_list_cons, Hn. simpl. by rewrite String.eqb_refl.
    + by rewrite var_at_with_var.
    + by rewrite var_at_with_var.
    + done.
  - intros x Hs.
    assert (Hx : (x < length (shm_vars w))%nat).
    { apply scan_list_Some in Hs as (l1 & l2 & Hl & _).
      unfold valid_list in Hsp. rewrite Hl in Hsp.
      apply Forall_app in Hsp as [_ Hsp]. by inversion Hsp. }
    pose proof (var_find_special_cached NAME x w Hs) as H. split.
    + intros text He. rewrite He in H. eexists. split; [exact H|].
      repeat apply conj.
      * by rewrite var_at_with_var.
      * by rewrite var_at_with_var.
      * by rewrite scan_list_with_var.
      * done.
      * intros y Hy. by rewrite var_at_with_var_ne.
    + intros He. by rewrite He in H.
Qed.

End Environment.

(** ** Copying a variable *)

Section Copy.

Context {D : Double} {P : Providers}.

Local Open Scope list_scope.

Ltac next_world :=
  match goal with
  | |- context [set_vars ?l ?w] =>
      let w1 := fresh "w" in set (w1 := set_vars l w) in *; clearbody w1
  end.

Lemma var_copy_steps (dst src : nat) (w : world) :
  var_copy dst src w =
  copy_str_step dst src (copy_dbl_step dst src (copy_int_step dst src (copy_bool_step dst src w))).
Proof.
  unfold var_copy, bind, load_var, update_var, bind, load_var, store_var, ret.
  unfold copy_bool_step, with_var.
  destruct (VAR_HAS_BOOLEAN (var_at w src)); [next_world|].
  all: unfold copy_int_step, with_var.
  all: match goal with |- context [VAR_HAS_INTEGER (var_at ?w0 ?s)] =>
         destruct (VAR_HAS_INTEGER (var_at w0 s)); [next_world|] end.
  all: unfold copy_dbl_step, with_var.
  all: match goal with |- context [VAR_HAS_DOUBLE (var_at ?w0 ?s)] =>
         destruct (VAR_HAS_DOUBLE (var_at w0 s)); [next_world|] end.
  all: unfold copy_str_step, ipc_stralloc, filebench_log, logged_error, with_var.
  all: match goal with |- context [VAR_HAS_STRING (var_at ?w0 ?s)] =>
         destruct (VAR_HAS_STRING (var_at w0 s)); [|done];
         destruct (var_string (var_at w0 s)); [|done] end.
  all: by destruct (decide _).
Qed.


Lemma with_var_id (x : nat) (w : world) : with_var x (var_at w x) w = w.
Proof.
  unfold with_var, var_at, set_vars.
  destruct w as [gl sl ll vs rs fv fa fr fs env lg]. simpl.
  f_equal. destruct (vs !! x) as [v|] eqn:E; simpl.
  - by apply list_insert_id.
  - apply list_insert_ge. by apply lookup_ge_None.
Qed.

Lemma with_var_with_var (x : nat) (v1 v2 : var_t) (w : world) :
  with_var x v2 (with_var x v1 w) = with_var x v2 w.
Proof. unfold with_var. simpl. by rewrite list_insert_insert_eq. Qed.

Lemma length_with_var (x : nat) (v : var_t) (w : world) :
  length (shm_vars (with_var x v w)) = length (shm_vars w).
Proof. unfold with_var. simpl. by rewrite length_insert. Qed.

Lemma VAR_SET_BOOL_id (s : var_t) :
  VAR_HAS_BOOLEAN s = true -> VAR_SET_BOOL s (var_boolean s) = s.
Proof. destruct s as [? ? [] ? ? ? ? ?]. unfold VAR_HAS_BOOLEAN. simpl. by intros ->. Qed.

Lemma VAR_SET_INT_id (s : var_t) :
  VAR_HAS_INTEGER s = true -> VAR_SET_INT s (var_integer s) = s.
Proof. destruct s as [? ? [] ? ? ? ? ?]. unfold VAR_HAS_INTEGER. simpl. by intros ->. Qed.

Lemma VAR_SET_DBL_id (s : var_t) :
  VAR_HAS_DOUBLE s = true -> VAR_SET_DBL s (var_dbl_flt s) = s.
Proof. destruct s as [? ? [] ? ? ? ? ?]. unfold VAR_HAS_DOUBLE. simpl. by intros ->. Qed.

Lemma VAR_SET_STR_id (s : var_t) :
  VAR_HAS_STRING s = true -> VAR_SET_STR s (var_string s) = s.
Proof. destruct s as [? ? [] ? ? ? ? ?]. unfold VAR_HAS_STRING. simpl. by intros ->. Qed.

Lemma copy_numeric_id (s : var_t) : copy_numeric s s = s.
Proof.
  unfold copy_numeric.
  destruct (VAR_HAS_BOOLEAN s) eqn:Hb; rewrite ?VAR_SET_BOOL_id by done;
  destruct (VAR_HAS_INTEGER s) eqn:Hi; rewrite ?VAR_SET_INT_id by done;
  destruct (VAR_HAS_DOUBLE s) eqn:Hd; rewrite ?VAR_SET_DBL_id by done; done.
Qed.

Lemma copy_numeric_steps (dst src : nat) (w : world) :
  (dst < length (shm_vars w))%nat ->
  copy_dbl_step dst src (copy_int_step dst src (copy_bool_step dst src w)) =
  with_var dst (copy_numeric (var_at w src) (var_at w dst)) w.
Proof.
  intros Hd. destruct (decide (dst = src)) as [<-|Hne].
  - rewrite copy_numeric_id, with_var_id.
    assert (H1 : copy_bool_step dst dst w = w).
    { unfold copy_bool_step. destruct (VAR_HAS_BOOLEAN _) eqn:E; [|done].
      by rewrite VAR_SET_BOOL_id, with_var_id. }
    assert (H2 : copy_int_step dst dst w = w).
    { unfold copy_int_step. destruct (VAR_HAS_INTEGER _) eqn:E; [|done].
      by rewrite VAR_SET_INT_id, with_var_id. }
    assert (H3 : copy_dbl_step dst dst w = w).
    { unfold copy_dbl_step. destruct (VAR_HAS_DOUBLE _) eqn:E; [|done].
      by rewrite VAR_SET_DBL_id, with_var_id. }
    by rewrite H1, H2, H3.
  - unfold copy_numeric, copy_dbl_step, copy_int_step, copy_bool_step.
    set (s := var_at w src). set (d := var_at w dst).
    destruct (VAR_HAS_BOOLEAN s);
      rewrite ?var_at_with_var_ne, ?var_at_with_var by (done || by rewrite ?length_with_var);
      fold s; fold d;
    destruct (VAR_HAS_INTEGER s);
      rewrite ?var_at_with_var_ne, ?var_at_with_var by (done || by rewrite ?length_with_var);
      fold s; fold d;
    destruct (VAR_HAS_DOUBLE s);
      rewrite ?var_at_with_var_ne, ?var_at_with_var by (done || by rewrite ?length_with_var);
      fold s; fold d;
      rewrite ?with_var_with_var; try done.
    by unfold d; rewrite with_var_id.
Qed.


Lemma copy_numeric_name_class (s d : var_t) :
  var_name (copy_numeric s d) = var_name d /\
  var_class_of (copy_numeric s d) = var_class_of d.
Proof.
  unfold copy_numeric.
  by destruct (VAR_HAS_BOOLEAN s), (VAR_HAS_INTEGER s), (VAR_HAS_DOUBLE s).
Qed.

Lemma var_at_copy_numeric_src (dst src : nat) (w : world) :
  (dst < length (shm_vars w))%nat ->
  var_at (with_var dst (copy_numeric (var_at w src) (var_at w dst)) w) src = var_at w src.
Proof.
  intros Hd. destruct (decide (dst = src)) as [<-|Hne].
  - by rewrite var_at_with_var, copy_numeric_id.
  - by rewrite var_at_with_var_ne.
Qed.

(** [var_copy] does what the spec says of [copy]. *)
Lemma var_copy_eq (dst src : nat) (w : world) :
  (dst < length (shm_vars w))%nat ->
  var_copy dst src w = copy_spec dst src w.
Proof.
  intros Hd. rewrite var_copy_steps, copy_numeric_steps by done.
  unfold copy_str_step, copy_spec.
  rewrite var_at_copy_numeric_src by done.
  set (s := var_at w src). set (d := copy_numeric s (var_at w dst)).
  destruct (VAR_HAS_STRING s); [|done].
  destruct (var_string s) as [text|]; [|done].
  change (ipc_free_str (with_var dst d w)) with (ipc_free_str w).
  destruct (decide _) as [Hfit|Hfit].
  - f_equal.
    change (var_at (set_free_str (ipc_free_str w - (String.length text + 1))
                      (with_var dst d w)) dst)
      with (var_at (with_var dst d w) dst).
    rewrite var_at_with_var by done.
    unfold with_var, set_free_str, set_vars. simpl.
    by rewrite list_insert_insert_eq.
  - rewrite var_at_with_var by done.
    unfold d. by rewrite (proj1 (copy_numeric_name_class _ _)).
Qed.


Lemma copy_numeric_facets (s d : var_t) :
  let v := copy_numeric s d in
  VAR_HAS_BOOLEAN v = VAR_HAS_BOOLEAN s || VAR_HAS_BOOLEAN d /\
  var_boolean v = (if VAR_HAS_BOOLEAN s then var_boolean s else var_boolean d) /\
  VAR_HAS_INTEGER v = VAR_HAS_INTEGER s || VAR_HAS_INTEGER d /\
  var_integer v = (if VAR_HAS_INTEGER s then var_integer s else var_integer d) /\
  VAR_HAS_DOUBLE v = VAR_HAS_DOUBLE s || VAR_HAS_DOUBLE d /\
  var_dbl_flt v = (if VAR_HAS_DOUBLE s then var_dbl_flt s else var_dbl_flt d) /\
  VAR_HAS_STRING v = VAR_HAS_STRING d /\ var_string v = var_string d /\
  VAR_HAS_RANDDIST v = VAR_HAS_RANDDIST d /\ var_randptr v = var_randptr d.
Proof.
  unfold copy_numeric.
  by destruct (VAR_HAS_BOOLEAN s), (VAR_HAS_INTEGER s), (VAR_HAS_DOUBLE s).
Qed.

(** What a returning [copy] leaves in the destination. *)
Lemma copy_spec_facets (dst src : nat) (w w' : world) (r : Z) :
  (dst < length (shm_vars w))%nat ->
  copy_spec dst src w = Ret r w' ->
  let s := var_at w src in
  let d := var_at w dst in
  let v := var_at w' dst in
  var_name v = var_name d /\ var_class_of v = var_class_of d /\
  (forall y, y <> dst -> var_at w' y = var_at w y) /\
  VAR_HAS_BOOLEAN v = VAR_HAS_BOOLEAN s || VAR_HAS_BOOLEAN d /\
  var_boolean v = (if VAR_HAS_BOOLEAN s then var_boolean s else var_boolean d) /\
  VAR_HAS_INTEGER v = VAR_HAS_INTEGER s || VAR_HAS_INTEGER d /\
  var_integer v = (if VAR_HAS_INTEGER s then var_integer s else var_integer d) /\
  VAR_HAS_DOUBLE v = VAR_HAS_DOUBLE s || VAR_HAS_DOUBLE d /\
  var_dbl_flt v = (if VAR_HAS_DOUBLE s then var_dbl_flt s else var_dbl_flt d) /\
  VAR_HAS_RANDDIST v = VAR_HAS_RANDDIST d /\ var_randptr v = var_randptr d /\
  (r = 0%Z /\ log w' = log w /\
   VAR_HAS_STRING v = VAR_HAS_STRING s || VAR_HAS_STRING d /\
   var_string v = (if VAR_HAS_STRING s then var_string s else var_string d) /\
   (VAR_HAS_STRING s = true ->
    exists text, var_string s = Some text /\ fits text w /\
      ipc_free_str w' = (ipc_free_str w - (String.length text + 1))%nat) \/
   r = (-1)%Z /\ VAR_HAS_STRING s = true /\
   (exists text, var_string s = Some text /\ ~ fits text w) /\
   VAR_HAS_STRING v = VAR_HAS_STRING d /\ var_string v = var_string d /\
   log w' = log w ++ [(LOG_ERROR, "Cannot assign string for variable " +:+ var_name d)]).
Proof.
  intros Hd H s d v. unfold copy_spec in H. fold s d in H.
  destruct (copy_numeric_name_class s d) as (Hn & Hc).
  destruct (copy_numeric_facets s d) as (Hb & Hbv & Hi & Hiv & Hf & Hfv & Hs & Hsv & Hr & Hrv).
  destruct (VAR_HAS_STRING s) eqn:Es.
  - destruct (var_string s) as [text|] eqn:Et; [|done].
    destruct (decide _) as [Hfit|Hfit]; inversion H; subst r w'; clear H.
    + assert (Hv : v = VAR_SET_STR (copy_numeric s d) (Some text)).
      { unfold v. rewrite var_at_with_var; [done|]. done. }
      rewrite Hv. repeat apply conj; try done.
      * intros y Hy. by rewrite var_at_with_var_ne.
      * left. repeat apply conj; try done. intros _. by exists text.
    + assert (Hv : v = copy_numeric s d).
      { unfold v.
        change (var_at (with_var dst (copy_numeric s d) w) dst = copy_numeric s d).
        by rewrite var_at_with_var. }
      rewrite Hv. repeat apply conj; try done.
      * intros y Hy.
        change (var_at (with_var dst (copy_numeric s d) w) y = var_at w y).
        by rewrite var_at_with_var_ne.
      * right. repeat apply conj; try done. by exists text.
  - inversion H; subst r w'; clear H.
    assert (Hv : v = copy_numeric s d) by (unfold v; by rewrite var_at_with_var).
    rewrite Hv. repeat apply conj; try done.
    + intros y Hy. by rewrite var_at_with_var_ne.
    + left. by repeat apply conj.
Qed.


Lemma scan_list_valid (w : world) (name : string) (l : list nat) (x : nat) :
  valid_list w l -> scan_list w name l = Some x -> (x < length (shm_vars w))%nat.
Proof.
  intros Hl (l1 & l2 & -> & _)%scan_list_Some.
  apply Forall_app in Hl as [_ Hl]. by inversion Hl.
Qed.

Lemma find_ptr_valid (w : world) (name : string) (x : nat) :
  valid_lists w -> find_ptr w name = Some x -> (x < length (shm_vars w))%nat.
Proof.
  intros (Hl & Hg & _). unfold find_ptr.
  destruct (scan_list w name (shm_var_loc_list w)) eqn:E.
  - intros [= <-]. exact (scan_list_valid _ _ _ _ Hl E).
  - intros H. exact (scan_list_valid _ _ _ _ Hg H).
Qed.

(** [var_lvar_assign_var] after a successful lookup and allocation: the
    chain of tests on the source, one arm taken. *)
Lemma var_lvar_assign_var_eq (name src_name : string) (s : nat) (w : world) :
  valid_lists w ->
  find_ptr w (skip1 src_name) = Some s ->
  (0 < ipc_free_var w)%nat -> fits (local_name name) w ->
  let x := length (shm_vars w) in
  let src := var_at w s in
  let w1 := alloc_world (local_name name) VAR_TYPE_LOCAL w in
  let nv := new_var (local_name name) VAR_TYPE_LOCAL in
  var_lvar_assign_var name src_name w =
  if VAR_HAS_BOOLEAN src then
    Ret (Some x) (with_var x (VAR_SET_BOOL nv (var_boolean src)) w1)
  else if VAR_HAS_INTEGER src then
    Ret (Some x) (with_var x (VAR_SET_INT nv (var_integer src)) w1)
  else if VAR_HAS_STRING src then
    match var_string src with
    | None => Fault w1
    | Some text =>
        if decide (String.length text + 1 <= ipc_free_str w1)%nat then
          Ret (Some x)
            (with_var x (VAR_SET_STR nv (Some text))
               (set_free_str (ipc_free_str w1 - (String.length text + 1)) w1))
        else Ret None (logged_error ("Cannot assign variable " +:+ name) w1)
    end
  else if VAR_HAS_DOUBLE src then
    Ret (Some x) (with_var x (VAR_SET_INT nv (u64_of_dbl (var_dbl_flt src))) w1)
  else if VAR_HAS_RANDDIST src then
    Ret (Some x) (with_var x (VAR_SET_RAND nv (var_randptr src)) w1)
  else Ret (Some x) w1.
Proof.
  intros Hw Hf Hv Hs x src w1 nv.
  pose proof (find_ptr_valid _ _ _ Hw Hf) as Hlt.
  unfold var_lvar_assign_var, bind. rewrite var_find_eq, Hf.
  unfold var_lvar_alloc_local. fold (local_name name).
  rewrite var_alloc_cmn_ok by done. fold x w1.
  unfold load_var.
  assert (Hsrc : var_at w1 s = src) by (by apply var_at_alloc_old).
  assert (Hnv : var_at w1 x = nv) by apply var_at_alloc_new.
  rewrite Hsrc.
  assert (Hupd : forall f, update_var x f w1 = Ret tt (with_var x (f nv) w1)).
  { intros f. unfold update_var, bind, load_var, store_var. by rewrite Hnv. }
  destruct (VAR_HAS_BOOLEAN src); [by rewrite Hupd|].
  destruct (VAR_HAS_INTEGER src); [by rewrite Hupd|].
  destruct (VAR_HAS_STRING src).
  - destruct (var_string src); [|done].
    unfold ipc_stralloc. destruct (decide _); [|done].
    unfold update_var, bind, load_var, store_var.
    change (var_at (set_free_str ?n w1) x) with (var_at w1 x). by rewrite Hnv.
  - destruct (VAR_HAS_DOUBLE src); [by rewrite Hupd|].
    destruct (VAR_HAS_RANDDIST src); [by rewrite Hupd|done].
Qed.

(** [var_update_comp_lvars] calls [var_copy], and nothing else, when the
    prototype has a variable of the name and the new one has no set bit. *)
Lemma var_update_comp_lvars_eq (newlvar : nat) (proto mstr : list nat) (w : world) :
  var_update_comp_lvars newlvar proto mstr w =
  match scan_list w (var_name (var_at w newlvar)) proto with
  | None => Ret tt w
  | Some p =>
      if decide (var_set_of (var_at w newlvar) = VAR_TYPE_NONE_SET) then
        match var_copy newlvar p w with
        | Ret _ w' => Ret tt w'
        | Exit code w' => Exit code w'
        | Fault w' => Fault w'
        end
      else Ret tt w
  end.
Proof.
  unfold var_update_comp_lvars, bind, load_var, var_find_list_only.
  destruct (scan_list _ _ _); [|done].
  destruct (decide _); [|done].
  by destruct (var_copy newlvar n w).
Qed.


(** C6 (amended): [var_copy] copies every set facet of the source into the
    destination, boolean, integer and double, then the string, whose text
    is allocated afresh; when that allocation fails the copy returns -1
    with an error in the log, the facets copied before staying copied.  The
    name and the scope class of the destination, and every other variable,
    are never touched.  [var_update_comp_lvars] inherits through this very
    copy.  The copy statement between two variables,
    [var_lvar_assign_var], does not: into the new local it puts the first
    set facet of the source only, tested in the order boolean, integer,
    string, and the distribution handle when no value facet is set. *)
Theorem var_copy_every_set_facet (dst src : nat) (w : world) :
  (dst < length (shm_vars w))%nat ->
  var_copy dst src w = copy_spec dst src w /\
  (forall r w', var_copy dst src w = Ret r w' ->
     let s := var_at w src in
     let d := var_at w dst in
     let v := var_at w' dst in
     var_name v = var_name d /\ var_class_of v = var_class_of d /\
     (forall y, y <> dst -> var_at w' y = var_at w y) /\
     VAR_HAS_BOOLEAN v = VAR_HAS_BOOLEAN s || VAR_HAS_BOOLEAN d /\
     var_boolean v = (if VAR_HAS_BOOLEAN s then var_boolean s else var_boolean d) /\
     VAR_HAS_INTEGER v = VAR_HAS_INTEGER s || VAR_HAS_INTEGER d /\
     var_integer v = (if VAR_HAS_INTEGER s then var_integer s else var_integer d) /\
     VAR_HAS_DOUBLE v = VAR_HAS_DOUBLE s || VAR_HAS_DOUBLE d /\
     var_dbl_flt v = (if VAR_HAS_DOUBLE s then var_dbl_flt s else var_dbl_flt d) /\
     VAR_HAS_RANDDIST v = VAR_HAS_RANDDIST d /\ var_randptr v = var_randptr d /\
     (r = 0%Z /\ log w' = log w /\
      VAR_HAS_STRING v = VAR_HAS_STRING s || VAR_HAS_STRING d /\
      var_string v = (if VAR_HAS_STRING s then var_string s else var_string d) /\
      (VAR_HAS_STRING s = true ->
       exists text, var_string s = Some text /\ fits text w /\
         ipc_free_str w' = (ipc_free_str w - (String.length text + 1))%nat) \/
      r = (-1)%Z /\ VAR_HAS_STRING s = true /\
      (exists text, var_string s = Some text /\ ~ fits text w) /\
      VAR_HAS_STRING v = VAR_HAS_STRING d /\ var_string v = var_string d /\
      log w' = log w ++ [(LOG_ERROR, "Cannot assign string for variable " +:+ var_name d)])) /\
  (forall proto mstr,
     scan_list w (var_name (var_at w dst)) proto = Some src ->
     var_set_of (var_at w dst) = VAR_TYPE_NONE_SET ->
     var_update_comp_lvars dst proto mstr w =
     match var_copy dst src w with
     | Ret _ w' => Ret tt w'
     | Exit code w' => Exit code w'
     | Fault w' => Fault w'
     end) /\
  (forall name src_name,
     valid_lists w ->
     find_ptr w (skip1 src_name) = Some src ->
     (0 < ipc_free_var w)%nat -> fits (local_name name) w ->
     let x := length (shm_vars w) in
     let s := var_at w src in
     let w1 := alloc_world (local_name name) VAR_TYPE_LOCAL w in
     let nv := new_var (local_name name) VAR_TYPE_LOCAL in
     (VAR_HAS_BOOLEAN s = true ->
      var_lvar_assign_var name src_name w =
      Ret (Some x) (with_var x (VAR_SET_BOOL nv (var_boolean s)) w1)) /\
     (VAR_HAS_BOOLEAN s = false -> VAR_HAS_INTEGER s = true ->
      var_lvar_assign_var name src_name w =
      Ret (Some x) (with_var x (VAR_SET_INT nv (var_integer s)) w1)) /\
     (VAR_HAS_BOOLEAN s = false -> VAR_HAS_INTEGER s = false ->
      VAR_HAS_STRING s = true ->
      forall text, var_string s = Some text -> fits text w1 ->
      var_lvar_assign_var name src_name w =
      Ret (Some x)
        (with_var x (VAR_SET_STR nv (Some text))
           (set_free_str (ipc_free_str w1 - (String.length text + 1)) w1))) /\
     (VAR_HAS_BOOLEAN s = false -> VAR_HAS_INTEGER s = false ->
      VAR_HAS_STRING s = false -> VAR_HAS_DOUBLE s = false ->
      VAR_HAS_RANDDIST s = true ->
      var_lvar_assign_var name src_name w =
      Ret (Some x) (with_var x (VAR_SET_RAND nv (var_randptr s)) w1))).
Proof.
  intros Hd. repeat apply conj.
  - by apply var_copy_eq.
  - intros r w' H. rewrite var_copy_eq in H by done.
    exact (copy_spec_facets dst src w w' r Hd H).
  - intros proto mstr Hp Hn.
    rewrite var_update_comp_lvars_eq, Hp. by rewrite decide_True.
  - intros name src_name Hw Hf Hv Hs x s w1 nv.
    pose proof (var_lvar_assign_var_eq name src_name src w Hw Hf Hv Hs) as H.
    simpl in H. fold x s w1 nv in H.
    repeat apply conj.
    + intros Hb. by rewrite H, Hb.
    + intros Hb Hi. by rewrite H, Hb, Hi.
    + intros Hb Hi Hst text Ht Hfit. rewrite H, Hb, Hi, Hst, Ht.
      by rewrite decide_True.
    + intros Hb Hi Hst Hdb Hr. by rewrite H, Hb, Hi, Hst, Hdb, Hr.
Qed.

(** C7 (amended): [var_update_comp_lvars] on a new local variable.  When
    no variable of the prototype's chain bears its name, or when it
    already has a set bit, be it of a value facet or of the distribution
    handle, the world is left exactly as it was, with nothing logged.  When
    it has no set bit at all and the prototype has a variable of its name,
    the first such variable is copied into it.  If that variable has no
    string facet set, or one whose text fits in the arena, every facet set
    there is set in the new variable with the same value, no other facet
    is set and nothing is logged.  If the text of its string facet does
    not fit, the boolean, integer and double facets are copied all the
    same, the string facet is not, an error is logged and the routine
    returns as usual.  In no case does the name or the scope class of the
    new variable, or any other variable, change. *)
Theorem var_update_comp_lvars_defaults (newlvar : nat) (proto mstr : list nat)
    (w : world) :
  (newlvar < length (shm_vars w))%nat ->
  let new := var_at w newlvar in
  (scan_list w (var_name new) proto = None ->
   var_update_comp_lvars newlvar proto mstr w = Ret tt w) /\
  (var_set_of new <> VAR_TYPE_NONE_SET ->
   var_update_comp_lvars newlvar proto mstr w = Ret tt w) /\
  (forall p,
     scan_list w (var_name new) proto = Some p ->
     var_set_of new = VAR_TYPE_NONE_SET ->
     let s := var_at w p in
     (VAR_HAS_STRING s = true -> exists text, var_string s = Some text /\ fits text w) ->
     exists w', var_update_comp_lvars newlvar proto mstr w = Ret tt w' /\
       let v := var_at w' newlvar in
       var_name v = var_name new /\ var_class_of v = var_class_of new /\
       VAR_HAS_BOOLEAN v = VAR_HAS_BOOLEAN s /\
       (VAR_HAS_BOOLEAN s = true -> var_boolean v = var_boolean s) /\
       VAR_HAS_INTEGER v = VAR_HAS_INTEGER s /\
       (VAR_HAS_INTEGER s = true -> var_integer v = var_integer s) /\
       VAR_HAS_DOUBLE v = VAR_HAS_DOUBLE s /\
       (VAR_HAS_DOUBLE s = true -> var_dbl_flt v = var_dbl_flt s) /\
       VAR_HAS_STRING v = VAR_HAS_STRING s /\
       (VAR_HAS_STRING s = true -> var_string v = var_string s) /\
       log w' = log w /\
       (forall y, y <> newlvar -> var_at w' y = var_at w y)) /\
  (VAR_HAS_RANDDIST new = true ->
   var_update_comp_lvars newlvar proto mstr w = Ret tt w) /\
  (forall p text,
     scan_list w (var_name new) proto = Some p ->
     var_set_of new = VAR_TYPE_NONE_SET ->
     let s := var_at w p in
     VAR_HAS_STRING s = true -> var_string s = Some text -> ~ fits text w ->
     exists w', var_update_comp_lvars newlvar proto mstr w = Ret tt w' /\
       let v := var_at w' newlvar in
       var_name v = var_name new /\ var_class_of v = var_class_of new /\
       VAR_HAS_BOOLEAN v = VAR_HAS_BOOLEAN s /\
       (VAR_HAS_BOOLEAN s = true -> var_boolean v = var_boolean s) /\
       VAR_HAS_INTEGER v = VAR_HAS_INTEGER s /\
       (VAR_HAS_INTEGER s = true -> var_integer v = var_integer s) /\
       VAR_HAS_DOUBLE v = VAR_HAS_DOUBLE s /\
       (VAR_HAS_DOUBLE s = true -> var_dbl_flt v = var_dbl_flt s) /\
       VAR_HAS_STRING v = false /\ var_string v = var_string new /\
       log w' = log w ++
         [(LOG_ERROR, "Cannot assign string for variable " +:+ var_name new)] /\
       (forall y, y <> newlvar -> var_at w' y = var_at w y)).
Proof.
  intros Hlt new.
  assert (Hset : var_set_of new <> VAR_TYPE_NONE_SET ->
                 var_update_comp_lvars newlvar proto mstr w = Ret tt w).
  { intros Hn. rewrite var_update_comp_lvars_eq. fold new.
    destruct (scan_list _ _ _); [|done]. by rewrite decide_False. }
  split; [|split; [|split; [|split]]].
  - intros Hp. rewrite var_update_comp_lvars_eq. fold new. by rewrite Hp.
  - exact Hset.
  - intros p Hp Hn s Hfit.
    rewrite var_update_comp_lvars_eq. fold new. rewrite Hp, decide_True by done.
    rewrite var_copy_eq by done.
    destruct (copy_spec newlvar p w) as [r w'|code w'|w'] eqn:E.
    + destruct (copy_spec_facets newlvar p w w' r Hlt E)
        as (Hname & Hclass & Hother & Hb & Hbv & Hi & Hiv & Hf & Hfv & _ & _ & Hstr).
      fold s new in Hname, Hclass, Hb, Hbv, Hi, Hiv, Hf, Hfv, Hstr.
      assert (Hflags : VAR_HAS_BOOLEAN new = false /\ VAR_HAS_INTEGER new = false /\
                       VAR_HAS_DOUBLE new = false /\ VAR_HAS_STRING new = false).
      { unfold VAR_HAS_BOOLEAN, VAR_HAS_INTEGER, VAR_HAS_DOUBLE, VAR_HAS_STRING.
        by rewrite Hn. }
      destruct Hflags as (Nb & Ni & Nd & Ns).
      rewrite Nb, orb_false_r in Hb. rewrite Ni, orb_false_r in Hi.
      rewrite Nd, orb_false_r in Hf.
      exists w'. split; [done|]. simpl.
      destruct Hstr as [(_ & Hlog & Hs & Hsv & _)|(_ & Hs & (text & Ht & Hnfit) & _)].
      * rewrite Ns, orb_false_r in Hs.
        repeat apply conj; try done.
        -- intros Hx. by rewrite Hbv, Hx.
        -- intros Hx. by rewrite Hiv, Hx.
        -- intros Hx. by rewrite Hfv, Hx.
        -- intros Hx. by rewrite Hsv, Hx.
      * destruct (Hfit Hs) as (text' & Ht' & Hfit').
        rewrite Ht in Ht'. by inversion Ht'; subst.
    + unfold copy_spec in E. by repeat case_match.
    + unfold copy_spec in E. fold s in E.
      destruct (VAR_HAS_STRING s) eqn:Es; [|done].
      destruct (Hfit eq_refl) as (text & Ht & _). rewrite Ht in E.
      by destruct (decide _).
  - intros Hr. apply Hset. intros Hn.
    unfold VAR_HAS_RANDDIST in Hr. by rewrite Hn in Hr.
  - intros p text Hp Hn s Hs Ht Hnfit.
    rewrite var_update_comp_lvars_eq. fold new. rewrite Hp, decide_True by done.
    rewrite var_copy_eq by done.
    destruct (copy_spec newlvar p w) as [r w'|code w'|w'] eqn:E.
    + destruct (copy_spec_facets newlvar p w w' r Hlt E)
        as (Hname & Hclass & Hother & Hb & Hbv & Hi & Hiv & Hf & Hfv & _ & _ & Hstr).
      fold s new in Hname, Hclass, Hb, Hbv, Hi, Hiv, Hf, Hfv, Hstr.
      assert (Hflags : VAR_HAS_BOOLEAN new = false /\ VAR_HAS_INTEGER new = false /\
                       VAR_HAS_DOUBLE new = false /\ VAR_HAS_STRING new = false).
      { unfold VAR_HAS_BOOLEAN, VAR_HAS_INTEGER, VAR_HAS_DOUBLE, VAR_HAS_STRING.
        by rewrite Hn. }
      destruct Hflags as (Nb & Ni & Nd & Ns).
      rewrite Nb, orb_false_r in Hb. rewrite Ni, orb_false_r in Hi.
      rewrite Nd, orb_false_r in Hf.
      exists w'. split; [done|]. simpl.
      destruct Hstr as [(_ & _ & _ & _ & Hfits)|(_ & _ & _ & Hsf & Hsv & Hlog)].
      * destruct (Hfits Hs) as (text' & Ht' & Hfit' & _).
        rewrite Ht in Ht'. by inversion Ht'; subst.
      * rewrite Ns in Hsf.
        repeat apply conj; try done.
        -- intros Hx. by rewrite Hbv, Hx.
        -- intros Hx. by rewrite Hiv, Hx.
        -- intros Hx. by rewrite Hfv, Hx.
    + unfold copy_spec in E. by repeat case_match.
    + unfold copy_spec in E. fold s in E. rewrite Hs, Ht in E.
      by destruct (decide _).
Qed.

End Copy.

(** ** Textualization *)

Section Textualization.

Context {D : Double} {P : Providers}.

Local Open Scope list_scope.

(** C8 (amended): [__var_to_string] answers, in this order: for a
    Random-scoped variable with a distribution attached, the label of the
    distribution family ("uniform random var", "gamma random var",
    "tabular random var", and "unitialized random var" for any other),
    whatever facets are set; otherwise the text of a set string facet
    whose pointer is not null, even when that text is empty; otherwise
    "true" or "false" when the boolean facet is set; otherwise the decimal
    text of a set integer facet; otherwise "No default".  The world is
    left as it was. *)
Theorem var_to_string_priority (x : nat) (w : world) :
  let v := var_at w x in
  (is_random v = true ->
   forall r, var_randptr v = Some r ->
   __var_to_string x w = Ret (rand_type_label (rnd_family (randdist_at w r))) w) /\
  (is_random v = false -> VAR_HAS_STRING v = true ->
   forall text, var_string v = Some text ->
   __var_to_string x w = Ret text w) /\
  (is_random v = false -> VAR_HAS_STRING v = false \/ var_string v = None ->
   VAR_HAS_BOOLEAN v = true ->
   __var_to_string x w = Ret (if var_boolean v then "true" else "false") w) /\
  (is_random v = false -> VAR_HAS_STRING v = false \/ var_string v = None ->
   VAR_HAS_BOOLEAN v = false -> VAR_HAS_INTEGER v = true ->
   __var_to_string x w = Ret (fmt_llu (var_integer v)) w) /\
  (is_random v = false -> VAR_HAS_STRING v = false \/ var_string v = None ->
   VAR_HAS_BOOLEAN v = false -> VAR_HAS_INTEGER v = false ->
   __var_to_string x w = Ret "No default" w) /\
  (rand_type_label RAND_TYPE_UNIFORM = "uniform random var" /\
   rand_type_label RAND_TYPE_GAMMA = "gamma random var" /\
   rand_type_label RAND_TYPE_TABLE = "tabular random var" /\
   rand_type_label RAND_TYPE_UNSET = "unitialized random var" /\
   fmt_llu 42 = "42").
Proof.
  intros v. unfold __var_to_string, bind, load_var. fold v.
  repeat apply conj; try done.
  - intros Hr r Hp. by rewrite Hr, Hp.
  - intros Hr Hs text Ht. by rewrite Hr, Hs, Ht.
  - intros Hr Hs Hb. rewrite Hr, Hb.
    destruct Hs as [-> | ->]; destruct (var_boolean v); try done;
      by destruct (VAR_HAS_STRING v).
  - intros Hr Hs Hb Hi. rewrite Hr, Hb, Hi.
    destruct Hs as [-> | ->]; try done; by destruct (VAR_HAS_STRING v).
  - intros Hr Hs Hb Hi. rewrite Hr, Hb, Hi.
    destruct Hs as [-> | ->]; try done; by destruct (VAR_HAS_STRING v).
Qed.

End Textualization.

(** ** Process shutdown *)

Section Shutdown.

Context {D : Double} {P : Providers}.

Local Open Scope list_scope.

Lemma never_exits_ret {A : Type} (a : A) : never_exits (ret a).
Proof. by intros w code w'. Qed.

Lemma never_exits_bind {A B : Type} (m : M A) (k : A -> M B) :
  never_exits m -> (forall a, never_exits (k a)) -> never_exits (bind m k).
Proof.
  intros Hm Hk w code w' H. unfold bind in H.
  destruct (m w) as [a w1|c w1|w1] eqn:E.
  - by apply (Hk a w1 code w').
  - by apply (Hm w c w1).
  - done.
Qed.

Lemma never_exits_fault {A : Type} : never_exits (@fault D A).
Proof. by intros w code w'. Qed.

(** A routine that is one step on the world. *)
Ltac one_step :=
  let w := fresh "w" in
  let H := fresh "H" in
  intros w ? ? H; cbv beta delta [filebench_log get_world put_world load_var
    store_var load_randdist store_randdist ipc_malloc_var ipc_malloc_avd
    randdist_alloc ipc_stralloc getenv call_provider var_find
    var_find_list_only] in H;
  repeat case_match; discriminate.

Lemma never_exits_log (lvl : log_level) (msg : string) :
  never_exits (filebench_log lvl msg).
Proof. one_step. Qed.

Lemma never_exits_get_world : never_exits get_world.
Proof. one_step. Qed.

Lemma never_exits_put_world (w0 : world) : never_exits (put_world w0).
Proof. one_step. Qed.

Lemma never_exits_load_var (a : nat) : never_exits (load_var a).
Proof. one_step. Qed.

Lemma never_exits_store_var (a : nat) (v : var_t) : never_exits (store_var a v).
Proof. one_step. Qed.

Lemma never_exits_load_randdist (r : nat) : never_exits (load_randdist r).
Proof. one_step. Qed.

Lemma never_exits_store_randdist (r : nat) (d : randdist_t) :
  never_exits (store_randdist r d).
Proof. one_step. Qed.

Lemma never_exits_ipc_malloc_var : never_exits ipc_malloc_var.
Proof. one_step. Qed.

Lemma never_exits_ipc_malloc_avd : never_exits ipc_malloc_avd.
Proof. one_step. Qed.

Lemma never_exits_randdist_alloc : never_exits randdist_alloc.
Proof. one_step. Qed.

Lemma never_exits_ipc_stralloc (s : string) : never_exits (ipc_stralloc s).
Proof. one_step. Qed.

Lemma never_exits_getenv (s : string) : never_exits (getenv s).
Proof. one_step. Qed.

Lemma never_exits_call_provider (f : world -> ptr * world) :
  never_exits (call_provider f).
Proof. one_step. Qed.

Lemma never_exits_var_find (name : string) : never_exits (var_find name).
Proof. one_step. Qed.

Lemma never_exits_var_find_list_only (name : string) (l : list nat) :
  never_exits (var_find_list_only name l).
Proof. one_step. Qed.

Create HintDb noexit.

#[local] Hint Resolve never_exits_ret never_exits_fault never_exits_log
  never_exits_get_world never_exits_put_world never_exits_load_var
  never_exits_store_var never_exits_load_randdist never_exits_store_randdist
  never_exits_ipc_malloc_var never_exits_ipc_malloc_avd never_exits_randdist_alloc
  never_exits_ipc_stralloc never_exits_getenv never_exits_call_provider
  never_exits_var_find never_exits_var_find_list_only : noexit.

(** Walks down a routine built from [bind], tests and the steps above. *)
Ltac no_exit :=
  repeat first
    [ progress (intros)
    | solve [auto with noexit]
    | apply never_exits_bind
    | match goal with
      | |- never_exits (match ?x with _ => _ end) => destruct x
      end ].

Lemma never_exits_update_var (a : nat) (f : var_t -> var_t) :
  never_exits (update_var a f).
Proof. unfold update_var. no_exit. Qed.

#[local] Hint Resolve never_exits_update_var : noexit.

Lemma never_exits_call_rnd_get (r : nat) : never_exits (call_rnd_get r).
Proof. unfold call_rnd_get. no_exit. Qed.

#[local] Hint Resolve never_exits_call_rnd_get : noexit.

Lemma never_exits_avd_get_int (a : avd_t) : never_exits (avd_get_int a).
Proof. unfold avd_get_int. no_exit. Qed.

Lemma never_exits_avd_get_dbl (a : avd_t) : never_exits (avd_get_dbl a).
Proof. unfold avd_get_dbl. no_exit. Qed.

Lemma never_exits_avd_get_bool (a : avd_t) : never_exits (avd_get_bool a).
Proof. unfold avd_get_bool. no_exit. Qed.

Lemma never_exits_avd_get_str (a : avd_t) : never_exits (avd_get_str a).
Proof. unfold avd_get_str. no_exit. Qed.

Lemma never_exits_avd_alloc_cmn : never_exits avd_alloc_cmn.
Proof. unfold avd_alloc_cmn. no_exit. Qed.

#[local] Hint Resolve never_exits_avd_get_int never_exits_avd_alloc_cmn : noexit.

Lemma never_exits_avd_bool_alloc (b : bool) : never_exits (avd_bool_alloc b).
Proof. unfold avd_bool_alloc. no_exit. Qed.

Lemma never_exits_avd_int_alloc (i : Z) : never_exits (avd_int_alloc i).
Proof. unfold avd_int_alloc. no_exit. Qed.

Lemma never_exits_avd_str_alloc (s : option string) : never_exits (avd_str_alloc s).
Proof. unfold avd_str_alloc. no_exit. Qed.

Lemma never_exits_avd_alloc_var_ptr (var : ptr) : never_exits (avd_alloc_var_ptr var).
Proof. unfold avd_alloc_var_ptr. no_exit. Qed.

Lemma never_exits_var_alloc_cmn (name : string) (c : var_class) :
  never_exits (var_alloc_cmn name c).
Proof. unfold var_alloc_cmn. no_exit. Qed.

#[local] Hint Resolve never_exits_var_alloc_cmn : noexit.

Lemma never_exits_var_find_alloc (name : option string) :
  never_exits (var_find_alloc name).
Proof. unfold var_find_alloc, var_alloc. no_exit. Qed.

#[local] Hint Resolve never_exits_var_find_alloc : noexit.

Lemma never_exits_var_assign_boolean (name : option string) (b : bool) :
  never_exits (var_assign_boolean name b).
Proof. unfold var_assign_boolean. no_exit. Qed.

Lemma never_exits_var_assign_integer (name : option string) (i : Z) :
  never_exits (var_assign_integer name i).
Proof. unfold var_assign_integer. no_exit. Qed.

Lemma never_exits_var_assign_string (name str : string) :
  never_exits (var_assign_string name str).
Proof. unfold var_assign_string, var_alloc. no_exit. Qed.

Lemma never_exits_var_find_randvar (name : string) :
  never_exits (var_find_randvar name).
Proof. unfold var_find_randvar. no_exit. Qed.

Lemma never_exits_var_define_randvar (name : string) :
  never_exits (var_define_randvar name).
Proof. unfold var_define_randvar. no_exit. Qed.

Lemma never_exits_var_find_internal (var : ptr) : never_exits (var_find_internal var).
Proof. unfold var_find_internal. no_exit. Qed.

Lemma never_exits_var_find_environment (var : ptr) :
  never_exits (var_find_environment var).
Proof. unfold var_find_environment. no_exit. Qed.

#[local] Hint Resolve never_exits_var_find_internal never_exits_var_find_environment
  : noexit.

Lemma never_exits_var_find_special (name : string) :
  never_exits (var_find_special name).
Proof. unfold var_find_special, var_alloc_special. no_exit. Qed.

#[local] Hint Resolve never_exits_var_find_special : noexit.

Lemma never_exits_var_to_string_of (x : nat) : never_exits (__var_to_string x).
Proof. unfold __var_to_string. no_exit. Qed.

#[local] Hint Resolve never_exits_var_to_string_of : noexit.

Lemma never_exits_var_to_string (name : string) : never_exits (var_to_string name).
Proof. unfold var_to_string. no_exit. Qed.

#[local] Hint Resolve never_exits_var_to_string : noexit.

Lemma never_exits_var_randvar_to_string (name : string) (param : rand_param) :
  never_exits (var_randvar_to_string name param).
Proof. unfold var_randvar_to_string. no_exit. Qed.

Lemma never_exits_var_copy (dst src : nat) : never_exits (var_copy dst src).
Proof. unfold var_copy. no_exit. Qed.

#[local] Hint Resolve never_exits_var_copy : noexit.

Lemma never_exits_var_lvar_alloc_local (name : string) :
  never_exits (var_lvar_alloc_local name).
Proof. unfold var_lvar_alloc_local. no_exit. Qed.

#[local] Hint Resolve never_exits_var_lvar_alloc_local : noexit.

Lemma never_exits_var_lvar_assign_var (name src_name : string) :
  never_exits (var_lvar_assign_var name src_name).
Proof. unfold var_lvar_assign_var. no_exit. Qed.

Lemma never_exits_var_lvar_assign_boolean (name : string) (b : bool) :
  never_exits (var_lvar_assign_boolean name b).
Proof. unfold var_lvar_assign_boolean. no_exit. Qed.

Lemma never_exits_var_lvar_assign_integer (name : string) (i : Z) :
  never_exits (var_lvar_assign_integer name i).
Proof. unfold var_lvar_assign_integer. no_exit. Qed.

Lemma never_exits_var_lvar_assign_double (name : string) (d : double) :
  never_exits (var_lvar_assign_double name d).
Proof. unfold var_lvar_assign_double. no_exit. Qed.

Lemma never_exits_var_lvar_assign_string (name str : string) :
  never_exits (var_lvar_assign_string name str).
Proof. unfold var_lvar_assign_string. no_exit. Qed.

Lemma never_exits_avd_update (a : avd_t) (l : list nat) : never_exits (avd_update a l).
Proof. unfold avd_update. no_exit. Qed.

Lemma never_exits_var_update_comp_lvars (x : nat) (proto mstr : list nat) :
  never_exits (var_update_comp_lvars x proto mstr).
Proof. unfold var_update_comp_lvars. no_exit. Qed.


(** *** The log only grows *)

Lemma grows_ret {A : Type} (a : A) : grows (ret a).
Proof. intros w a' w' [= _ <-]. exists []. by rewrite app_nil_r. Qed.

Lemma grows_bind {A B : Type} (m : M A) (k : A -> M B) :
  grows m -> (forall a, grows (k a)) -> grows (bind m k).
Proof.
  intros Hm Hk w b w' H. unfold bind in H.
  destruct (m w) as [a w1|c w1|w1] eqn:E; [|done..].
  destruct (Hm _ _ _ E) as [l1 H1]. destruct (Hk _ _ _ _ H) as [l2 H2].
  exists (l1 ++ l2). by rewrite H2, H1, app_assoc.
Qed.

Lemma grows_fault {A : Type} : grows (@fault D A).
Proof. by intros w a w'. Qed.

(** A step that leaves the log as it is, or appends to it. *)
Ltac log_step :=
  let w := fresh "w" in
  let H := fresh "H" in
  intros w ? ? H; cbv beta delta [filebench_log get_world load_var
    store_var load_randdist store_randdist ipc_malloc_var ipc_malloc_avd
    randdist_alloc ipc_stralloc getenv var_find var_find_list_only] in H;
  repeat case_match; inversion H; subst; simpl;
  first [ by exists []; rewrite app_nil_r | by eexists ].

Lemma grows_log (lvl : log_level) (msg : string) : grows (filebench_log lvl msg).
Proof. log_step. Qed.

Lemma grows_load_var (a : nat) : grows (load_var a).
Proof. log_step. Qed.

Lemma grows_store_var (a : nat) (v : var_t) : grows (store_var a v).
Proof. log_step. Qed.

Lemma grows_load_randdist (r : nat) : grows (load_randdist r).
Proof. log_step. Qed.

Lemma grows_store_randdist (r : nat) (d : randdist_t) : grows (store_randdist r d).
Proof. log_step. Qed.

Lemma grows_ipc_malloc_var : grows ipc_malloc_var.
Proof. log_step. Qed.

Lemma grows_ipc_malloc_avd : grows ipc_malloc_avd.
Proof. log_step. Qed.

Lemma grows_randdist_alloc : grows randdist_alloc.
Proof. log_step. Qed.

Lemma grows_ipc_stralloc (s : string) : grows (ipc_stralloc s).
Proof. log_step. Qed.

Lemma grows_var_find (name : string) : grows (var_find name).
Proof. log_step. Qed.

Lemma grows_get_world : grows get_world.
Proof. log_step. Qed.

Create HintDb loggrow.

#[local] Hint Resolve grows_ret grows_fault grows_log grows_load_var grows_store_var
  grows_load_randdist grows_store_randdist grows_ipc_malloc_var grows_ipc_malloc_avd
  grows_randdist_alloc grows_ipc_stralloc grows_var_find grows_get_world : loggrow.

Ltac log_grows :=
  repeat first
    [ progress (intros)
    | solve [auto with loggrow]
    | apply grows_bind
    | match goal with
      | |- grows (match ?x with _ => _ end) => destruct x
      end ].

Lemma grows_update_var (a : nat) (f : var_t -> var_t) : grows (update_var a f).
Proof. unfold update_var. log_grows. Qed.

#[local] Hint Resolve grows_update_var : loggrow.

Lemma grows_var_alloc_cmn (name : string) (c : var_class) : grows (var_alloc_cmn name c).
Proof.
  intros w a w' H.
  destruct (var_alloc_cmn_cases name c w)
    as [(w1 & H1 & _ & _ & _ & _ & msg & Hl)|(_ & _ & H1)];
    rewrite H1 in H; inversion H; subst.
  - by eexists.
  - exists []. rewrite app_nil_r. by destruct c.
Qed.

#[local] Hint Resolve grows_var_alloc_cmn : loggrow.

Lemma grows_var_find_alloc (name : option string) : grows (var_find_alloc name).
Proof. unfold var_find_alloc, var_alloc. log_grows. Qed.

Lemma grows_var_lvar_alloc_local (name : string) : grows (var_lvar_alloc_local name).
Proof. unfold var_lvar_alloc_local. log_grows. Qed.

Lemma grows_avd_alloc_cmn : grows avd_alloc_cmn.
Proof. unfold avd_alloc_cmn. log_grows. Qed.

#[local] Hint Resolve grows_var_find_alloc grows_var_lvar_alloc_local
  grows_avd_alloc_cmn : loggrow.

(** *** Failures are logged *)

Lemma fails_logged_bind {A B : Type} (m : M A) (k : A -> M B) (bad : B -> Prop) :
  grows m -> (forall a, fails_logged (k a) bad) -> fails_logged (bind m k) bad.
Proof.
  intros Hm Hk w b w' H Hb. unfold bind in H.
  destruct (m w) as [a w1|c w1|w1] eqn:E; [|done..].
  destruct (Hm _ _ _ E) as [l1 H1].
  destruct (Hk _ _ _ _ H Hb) as (l2 & msg & H2).
  exists (l1 ++ l2), msg. by rewrite H2, H1, !app_assoc.
Qed.

Lemma fails_logged_error {A : Type} (msg : string) (a : A) (bad : A -> Prop) :
  fails_logged (bind (filebench_log LOG_ERROR msg) (fun _ => ret a)) bad.
Proof.
  intros w a' w' H _. inversion H; subst. by exists [], msg.
Qed.

Lemma fails_logged_ret {A : Type} (a : A) (bad : A -> Prop) :
  ~ bad a -> fails_logged (ret a) bad.
Proof. intros Ha w a' w' [= <- _] Hb. done. Qed.

Lemma fails_logged_fault {A : Type} (bad : A -> Prop) : fails_logged (@fault D A) bad.
Proof. by intros w a w'. Qed.

Ltac logs_failure :=
  repeat first
    [ progress (intros)
    | apply fails_logged_error
    | apply fails_logged_fault
    | apply fails_logged_ret; solve [auto | done | lia]
    | apply fails_logged_bind; [solve [log_grows]|]
    | match goal with
      | |- fails_logged (match ?x with _ => _ end) _ => destruct x
      end ].

Lemma fails_logged_var_assign_boolean (name : option string) (b : bool) :
  fails_logged (var_assign_boolean name b) (fun r => r <> 0%Z).
Proof. unfold var_assign_boolean. logs_failure. Qed.

Lemma fails_logged_var_assign_integer (name : option string) (i : Z) :
  fails_logged (var_assign_integer name i) (fun r => r <> 0%Z).
Proof. unfold var_assign_integer. logs_failure. Qed.

Lemma fails_logged_var_assign_string (name str : string) :
  fails_logged (var_assign_string name str) (fun r => r <> 0%Z).
Proof. unfold var_assign_string, var_alloc. logs_failure. Qed.

Lemma fails_logged_var_find_randvar (name : string) :
  fails_logged (var_find_randvar name) (fun r => r = None).
Proof. unfold var_find_randvar. logs_failure. Qed.

Lemma fails_logged_var_define_randvar (name : string) :
  fails_logged (var_define_randvar name) (fun r => r = None).
Proof. unfold var_define_randvar. logs_failure. Qed.

Lemma fails_logged_var_lvar_assign_var (name src_name : string) :
  fails_logged (var_lvar_assign_var name src_name) (fun r => r = None).
Proof. unfold var_lvar_assign_var. logs_failure. Qed.

Lemma fails_logged_var_lvar_assign_boolean (name : string) (b : bool) :
  fails_logged (var_lvar_assign_boolean name b) (fun r => r = None).
Proof. unfold var_lvar_assign_boolean. logs_failure. Qed.

Lemma fails_logged_var_lvar_assign_integer (name : string) (i : Z) :
  fails_logged (var_lvar_assign_integer name i) (fun r => r = None).
Proof. unfold var_lvar_assign_integer. logs_failure. Qed.

Lemma fails_logged_var_lvar_assign_double (name : string) (d : double) :
  fails_logged (var_lvar_assign_double name d) (fun r => r = None).
Proof. unfold var_lvar_assign_double. logs_failure. Qed.

Lemma fails_logged_var_lvar_assign_string (name str : string) :
  fails_logged (var_lvar_assign_string name str) (fun r => r = None).
Proof. unfold var_lvar_assign_string. logs_failure. Qed.


Lemma fails_logged_var_alloc_cmn (name : string) (c : var_class) :
  fails_logged (var_alloc_cmn name c) (fun r => r = None).
Proof.
  intros w a w' H ->.
  destruct (var_alloc_cmn_cases name c w)
    as [(w1 & Hr & _ & _ & _ & _ & msg & Hl)|(_ & _ & Hr)];
    rewrite Hr in H; [|done].
  injection H as <-. exists [], msg. by rewrite Hl.
Qed.

Lemma fails_logged_var_lvar_alloc_local (name : string) :
  fails_logged (var_lvar_alloc_local name) (fun r => r = None).
Proof. unfold var_lvar_alloc_local. apply fails_logged_var_alloc_cmn. Qed.

Lemma fails_logged_var_copy (dst src : nat) :
  fails_logged (var_copy dst src) (fun r => r <> 0%Z).
Proof. unfold var_copy. logs_failure. Qed.

(** [avd_str_alloc] does not look at what [ipc_stralloc] returns. *)
Lemma avd_str_alloc_no_room (s : string) (w : world) :
  (0 < ipc_free_avd w)%nat -> ~ fits s w ->
  avd_str_alloc (Some s) w =
  Ret (Some (AvdValStr None)) (set_free_avd (pred (ipc_free_avd w)) w).
Proof.
  intros Ha Hs. unfold avd_str_alloc, avd_alloc_cmn, bind, ipc_malloc_avd.
  destruct (ipc_free_avd w) as [|n]; [lia|]. simpl.
  unfold ipc_stralloc. simpl. by rewrite decide_False by exact Hs.
Qed.

(** [var_update_comp_lvars] has no value to return: a copy that fails is
    logged and nothing more. *)
Lemma var_update_comp_lvars_failed_copy (x p : nat) (proto mstr : list nat)
    (w w' : world) :
  scan_list w (var_name (var_at w x)) proto = Some p ->
  var_set_of (var_at w x) = VAR_TYPE_NONE_SET ->
  var_copy x p w = Ret (-1)%Z w' ->
  var_update_comp_lvars x proto mstr w = Ret tt w' /\ appends_error w w'.
Proof.
  intros Hp Hn Hc. split.
  - rewrite var_update_comp_lvars_eq, Hp, decide_True by done. by rewrite Hc.
  - by apply (fails_logged_var_copy x p w (-1)%Z w').
Qed.

(** [var_to_string] of a name that nothing resolves, and that is neither
    an internal nor an environment one: [NULL], and no word in the log. *)
Lemma var_to_string_unknown (name : string) (w : world) :
  find_ptr w (skip1 name) = None ->
  first_char (skip1 name) <> "{"%char -> first_char (skip1 name) <> "("%char ->
  (forall x, scan_list w (skip1 name) (shm_var_special_list w) = Some x ->
     var_to_string name w = Ret None w) /\
  (scan_list w (skip1 name) (shm_var_special_list w) = None ->
   (0 < ipc_free_var w)%nat -> fits (skip1 name) w ->
   exists w', var_to_string name w = Ret None w' /\ log w' = log w).
Proof.
  intros Hf Hc1 Hc2. apply Ascii.eqb_neq in Hc1, Hc2. split.
  - intros x Hs. unfold var_to_string, bind. rewrite var_find_eq, Hf. simpl.
    unfold var_find_special, bind, get_world. by rewrite Hs, Hc1, Hc2.
  - intros Hs Hv Hfit. eexists.
    unfold var_to_string, bind. rewrite var_find_eq, Hf. simpl.
    unfold var_find_special, bind, get_world. rewrite Hs.
    unfold var_alloc_special. rewrite var_alloc_cmn_ok by done.
    rewrite Hc1, Hc2. by split.
Qed.

(** [var_randvar_to_string] of a random variable, for a parameter that
    is none of the seven it knows. *)
Lemma var_randvar_to_string_unknown (name : string) (x r : nat) (w : world) :
  find_ptr w (skip1 name) = Some x ->
  is_random (var_at w x) = true -> VAR_HAS_RANDDIST (var_at w x) = true ->
  var_randptr (var_at w x) = Some r ->
  var_randvar_to_string name RAND_PARAM_OTHER w = Ret None w.
Proof.
  intros Hf Hr Hh Hp. unfold var_randvar_to_string, bind.
  rewrite var_find_eq, Hf. unfold load_var. by rewrite Hr, Hh, Hp.
Qed.

Lemma fails_logged_avd_alloc_cmn : fails_logged avd_alloc_cmn (fun ok => ok = false).
Proof.
  intros w a w' H Hb. unfold avd_alloc_cmn, bind, ipc_malloc_avd in H.
  destruct (ipc_free_avd w); simpl in H; inversion H; subst; [|done].
  by exists [], "AVD allocation failed".
Qed.

Lemma fails_logged_avd_bool_alloc (b : bool) :
  fails_logged (avd_bool_alloc b) (fun r => r = None).
Proof.
  intros w a w' H Hb. unfold avd_bool_alloc, bind in H.
  destruct (avd_alloc_cmn w) as [[] w1|c w1|w1] eqn:E; simpl in H;
    inversion H; subst; [done|].
  by apply (fails_logged_avd_alloc_cmn _ _ _ E).
Qed.

Lemma fails_logged_avd_int_alloc (i : Z) :
  fails_logged (avd_int_alloc i) (fun r => r = None).
Proof.
  intros w a w' H Hb. unfold avd_int_alloc, bind in H.
  destruct (avd_alloc_cmn w) as [[] w1|c w1|w1] eqn:E; simpl in H;
    inversion H; subst; [done|].
  by apply (fails_logged_avd_alloc_cmn _ _ _ E).
Qed.

Lemma fails_logged_avd_str_alloc (s : option string) :
  fails_logged (avd_str_alloc s) (fun r => r = None).
Proof.
  intros w a w' H Hb. destruct s as [text|]; simpl in H.
  - unfold bind in H.
    destruct (avd_alloc_cmn w) as [[] w1|c w1|w1] eqn:E; simpl in H.
    + unfold ipc_stralloc in H. by destruct (decide _); inversion H; subst.
    + inversion H; subst. by apply (fails_logged_avd_alloc_cmn _ _ _ E).
    + done.
    + done.
  - inversion H; subst. by exists [], ("No string supplied" +:+ nl).
Qed.

Lemma fails_logged_avd_alloc_var_ptr (x : nat) :
  fails_logged (avd_alloc_var_ptr (Some x)) (fun r => r = None).
Proof.
  intros w a w' H Hb. unfold avd_alloc_var_ptr, bind in H.
  destruct (avd_alloc_cmn w) as [[] w1|c w1|w1] eqn:E; simpl in H; [| |done..].
  - destruct (grows_avd_alloc_cmn _ _ _ E) as [l Hl].
    unfold load_var in H. repeat case_decide; inversion H; subst; try done.
    exists l, "Illegal  variable type". simpl. by rewrite Hl, app_assoc.
  - inversion H; subst. by apply (fails_logged_avd_alloc_cmn _ _ _ E).
Qed.

(** *** The values returned *)

Lemma ret_in_ret {A : Type} (a : A) (S : A -> Prop) : S a -> ret_in (ret a) S.
Proof. by intros Ha w a' w' [= <- _]. Qed.

Lemma ret_in_bind {A B : Type} (m : M A) (k : A -> M B) (S : B -> Prop) :
  (forall a, ret_in (k a) S) -> ret_in (bind m k) S.
Proof.
  intros Hk w b w' H. unfold bind in H.
  destruct (m w) as [a w1|c w1|w1]; [|done..]. by apply (Hk a w1 b w').
Qed.

Ltac values :=
  repeat first
    [ progress (intros)
    | apply ret_in_ret; solve [auto]
    | apply ret_in_bind
    | match goal with
      | |- ret_in (match ?x with _ => _ end) _ => destruct x
      end ].

Lemma ret_in_var_assign_boolean (name : option string) (b : bool) :
  ret_in (var_assign_boolean name b) (fun r => r = 0%Z \/ r = (-1)%Z).
Proof. unfold var_assign_boolean. values. Qed.

Lemma ret_in_var_assign_integer (name : option string) (i : Z) :
  ret_in (var_assign_integer name i) (fun r => r = 0%Z \/ r = (-1)%Z).
Proof. unfold var_assign_integer. values. Qed.

Lemma ret_in_var_assign_string (name str : string) :
  ret_in (var_assign_string name str) (fun r => r = 0%Z \/ r = (-1)%Z).
Proof. unfold var_assign_string. values. Qed.

(** *** The one call of [filebench_shutdown] *)

Lemma var_alloc_none (name : string) (w w' : world) :
  var_alloc name w = Ret None w' ->
  ipc_free_var w = 0%nat \/ ~ fits name w.
Proof.
  unfold var_alloc. intros H.
  destruct (var_alloc_cmn_cases name VAR_TYPE_NORMAL w)
    as [(w1 & H1 & Hc & _)|(_ & _ & H1)]; rewrite H1 in H; [done|discriminate].
Qed.

Lemma var_ref_attr_exit (name : string) (w w' : world) (code : Z) :
  var_ref_attr name w = Exit code w' <->
  code = 1%Z /\ find_ptr w (skip1 name) = None /\
  exists w1 w2,
    var_find_special (skip1 name) w = Ret None w1 /\
    var_alloc (skip1 name) w1 = Ret None w2 /\
    w' = logged_error ("Invalid variable $" +:+ skip1 name) w2.
Proof.
  unfold var_ref_attr, bind. rewrite var_find_eq. split.
  - intros H. destruct (find_ptr w (skip1 name)) as [x|] eqn:Ef; simpl in H.
    + by apply never_exits_avd_alloc_var_ptr in H.
    + destruct (var_find_special (skip1 name) w) as [[y|] w1|c w1|w1] eqn:Es; simpl in H.
      * by apply never_exits_avd_alloc_var_ptr in H.
      * destruct (var_alloc (skip1 name) w1) as [[z|] w2|c w2|w2] eqn:Ea; simpl in H.
        -- by apply never_exits_avd_alloc_var_ptr in H.
        -- inversion H; subst. repeat split. by exists w1, w2.
        -- by apply never_exits_var_alloc_cmn in Ea.
        -- done.
      * by apply never_exits_var_find_special in Es.
      * done.
  - intros (-> & Hf & w1 & w2 & Hs & Ha & ->). by rewrite Hf, Hs, Ha.
Qed.


(** C9 (amended): [filebench_shutdown] is called by [var_ref_attr] alone,
    with code 1, and exactly when [var_find] finds nothing, the special
    resolution returns [NULL] and [var_alloc] then returns [NULL], which it
    does only when the pool of variables is used up or the name does not
    fit in the string region.  No other routine of the file ever calls it.
    The assignments return 0 or -1.  Whenever an assignment returns -1,
    and whenever [var_find_randvar], [var_define_randvar],
    [var_lvar_alloc_local], one of the five [var_lvar_assign_*] routines
    or one of the three allocators of a literal descriptor returns
    [NULL], an error has been appended to the log.  Not every failure is
    reported in this way.  [avd_str_alloc] does not look at the result of
    [ipc_stralloc]: for a text that does not fit, when a descriptor is
    left, it returns a descriptor with no text and logs nothing.
    [var_update_comp_lvars] has no value to return: a copy that fails
    inside it is logged and nothing more.  [var_to_string] answers [NULL]
    with no log entry for a name that [var_find] does not resolve and that
    is neither an internal nor an environment one, when the special chain
    has a variable of the name or the arena has room for one.
    [var_randvar_to_string] does the same for a random variable with a
    distribution and a parameter that it does not know. *)
Theorem shutdown_only_from_var_ref_attr :
  (forall name w code w',
     var_ref_attr name w = Exit code w' <->
     code = 1%Z /\ find_ptr w (skip1 name) = None /\
     exists w1 w2,
       var_find_special (skip1 name) w = Ret None w1 /\
       var_alloc (skip1 name) w1 = Ret None w2 /\
       w' = logged_error ("Invalid variable $" +:+ skip1 name) w2) /\
  (forall name w w',
     var_alloc name w = Ret None w' -> ipc_free_var w = 0%nat \/ ~ fits name w) /\
  ((forall a, never_exits (avd_get_int a)) /\
   (forall a, never_exits (avd_get_dbl a)) /\
   (forall a, never_exits (avd_get_bool a)) /\
   (forall a, never_exits (avd_get_str a)) /\
   (forall b, never_exits (avd_bool_alloc b)) /\
   (forall i, never_exits (avd_int_alloc i)) /\
   (forall s, never_exits (avd_str_alloc s)) /\
   (forall name b, never_exits (var_assign_boolean name b)) /\
   (forall name i, never_exits (var_assign_integer name i)) /\
   (forall name s, never_exits (var_assign_string name s)) /\
   (forall name, never_exits (var_find_randvar name)) /\
   (forall name, never_exits (var_define_randvar name)) /\
   (forall name, never_exits (var_to_string name)) /\
   (forall name param, never_exits (var_randvar_to_string name param)) /\
   (forall name, never_exits (var_lvar_alloc_local name)) /\
   (forall name src_name, never_exits (var_lvar_assign_var name src_name)) /\
   (forall name b, never_exits (var_lvar_assign_boolean name b)) /\
   (forall name i, never_exits (var_lvar_assign_integer name i)) /\
   (forall name d, never_exits (var_lvar_assign_double name d)) /\
   (forall name s, never_exits (var_lvar_assign_string name s)) /\
   (forall a l, never_exits (avd_update a l)) /\
   (forall x proto mstr, never_exits (var_update_comp_lvars x proto mstr))) /\
  ((forall name b, ret_in (var_assign_boolean name b) (fun r => r = 0%Z \/ r = (-1)%Z)) /\
   (forall name i, ret_in (var_assign_integer name i) (fun r => r = 0%Z \/ r = (-1)%Z)) /\
   (forall name s, ret_in (var_assign_string name s) (fun r => r = 0%Z \/ r = (-1)%Z))) /\
  ((forall name b, fails_logged (var_assign_boolean name b) (fun r => r <> 0%Z)) /\
   (forall name i, fails_logged (var_assign_integer name i) (fun r => r <> 0%Z)) /\
   (forall name s, fails_logged (var_assign_string name s) (fun r => r <> 0%Z)) /\
   (forall name, fails_logged (var_find_randvar name) (fun r => r = None)) /\
   (forall name, fails_logged (var_define_randvar name) (fun r => r = None)) /\
   (forall name src_name,
      fails_logged (var_lvar_assign_var name src_name) (fun r => r = None)) /\
   (forall name b, fails_logged (var_lvar_assign_boolean name b) (fun r => r = None)) /\
   (forall name i, fails_logged (var_lvar_assign_integer name i) (fun r => r = None)) /\
   (forall name d, fails_logged (var_lvar_assign_double name d) (fun r => r = None)) /\
   (forall name s, fails_logged (var_lvar_assign_string name s) (fun r => r = None)) /\
   (forall b, fails_logged (avd_bool_alloc b) (fun r => r = None)) /\
   (forall i, fails_logged (avd_int_alloc i) (fun r => r = None)) /\
   (forall s, fails_logged (avd_str_alloc s) (fun r => r = None)) /\
   (forall name, fails_logged (var_lvar_alloc_local name) (fun r => r = None))) /\
  (forall s w,
     (0 < ipc_free_avd w)%nat -> ~ fits s w ->
     exists w', avd_str_alloc (Some s) w = Ret (Some (AvdValStr None)) w' /\
       log w' = log w) /\
  (forall x p proto mstr w w',
     scan_list w (var_name (var_at w x)) proto = Some p ->
     var_set_of (var_at w x) = VAR_TYPE_NONE_SET ->
     var_copy x p w = Ret (-1)%Z w' ->
     var_update_comp_lvars x proto mstr w = Ret tt w' /\ appends_error w w') /\
  (forall name w,
     find_ptr w (skip1 name) = None ->
     first_char (skip1 name) <> "{"%char -> first_char (skip1 name) <> "("%char ->
     (forall x, scan_list w (skip1 name) (shm_var_special_list w) = Some x ->
        var_to_string name w = Ret None w) /\
     (scan_list w (skip1 name) (shm_var_special_list w) = None ->
      (0 < ipc_free_var w)%nat -> fits (skip1 name) w ->
      exists w', var_to_string name w = Ret None w' /\ log w' = log w)) /\
  (forall name x r w,
     find_ptr w (skip1 name) = Some x ->
     is_random (var_at w x) = true -> VAR_HAS_RANDDIST (var_at w x) = true ->
     var_randptr (var_at w x) = Some r ->
     var_randvar_to_string name RAND_PARAM_OTHER w = Ret None w).
Proof.
  split; [intros; apply var_ref_attr_exit|].
  split; [exact var_alloc_none|].
  split; [|split; [|split; [|split; [|split; [|split]]]]].
  - repeat apply conj; intros.
    + apply never_exits_avd_get_int.
    + apply never_exits_avd_get_dbl.
    + apply never_exits_avd_get_bool.
    + apply never_exits_avd_get_str.
    + apply never_exits_avd_bool_alloc.
    + apply never_exits_avd_int_alloc.
    + apply never_exits_avd_str_alloc.
    + apply never_exits_var_assign_boolean.
    + apply never_exits_var_assign_integer.
    + apply never_exits_var_assign_string.
    + apply never_exits_var_find_randvar.
    + apply never_exits_var_define_randvar.
    + apply never_exits_var_to_string.
    + apply never_exits_var_randvar_to_string.
    + apply never_exits_var_lvar_alloc_local.
    + apply never_exits_var_lvar_assign_var.
    + apply never_exits_var_lvar_assign_boolean.
    + apply never_exits_var_lvar_assign_integer.
    + apply never_exits_var_lvar_assign_double.
    + apply never_exits_var_lvar_assign_string.
    + apply never_exits_avd_update.
    + apply never_exits_var_update_comp_lvars.
  - repeat apply conj; intros.
    + apply ret_in_var_assign_boolean.
    + apply ret_in_var_assign_integer.
    + apply ret_in_var_assign_string.
  - repeat apply conj; intros.
    + apply fails_logged_var_assign_boolean.
    + apply fails_logged_var_assign_integer.
    + apply fails_logged_var_assign_string.
    + apply fails_logged_var_find_randvar.
    + apply fails_logged_var_define_randvar.
    + apply fails_logged_var_lvar_assign_var.
    + apply fails_logged_var_lvar_assign_boolean.
    + apply fails_logged_var_lvar_assign_integer.
    + apply fails_logged_var_lvar_assign_double.
    + apply fails_logged_var_lvar_assign_string.
    + apply fails_logged_avd_bool_alloc.
    + apply fails_logged_avd_int_alloc.
    + apply fails_logged_avd_str_alloc.
    + apply fails_logged_var_lvar_alloc_local.
  - intros s w Ha Hs. eexists. split; [by apply avd_str_alloc_no_room|done].
  - intros x p proto mstr w w'. apply var_update_comp_lvars_failed_copy.
  - intros name w. apply var_to_string_unknown.
  - intros name x r w. apply var_randvar_to_string_unknown.
Qed.

(** *** References *)

Lemma var_ref_attr_found (name : string) (x : nat) (w : world) :
  find_ptr w (skip1 name) = Some x ->
  var_ref_attr name w = avd_alloc_var_ptr (Some x) w.
Proof.
  intros Hf. unfold var_ref_attr, bind. by rewrite var_find_eq, Hf.
Qed.

(** A descriptor comes back only for a variable with exactly one set bit,
    and it is of the variant of that bit. *)
Lemma avd_alloc_var_ptr_some (x : nat) (w w' : world) (a : avd) :
  avd_alloc_var_ptr (Some x) w = Ret (Some a) w' ->
  let t := var_set_of (var_at w x) in
  (t = VAR_TYPE_BOOL_SET /\ a = AvdVarvalBool (Some x)) \/
  (t = VAR_TYPE_INT_SET /\ a = AvdVarvalInt (Some x)) \/
  (t = VAR_TYPE_STR_SET /\ a = AvdVarvalStr (Some x)) \/
  (t = VAR_TYPE_DBL_SET /\ a = AvdVarvalDbl (Some x)) \/
  (t = VAR_TYPE_RAND_SET /\ a = AvdRandvar (var_randptr (var_at w x))).
Proof.
  unfold avd_alloc_var_ptr, bind, avd_alloc_cmn, bind, ipc_malloc_avd.
  destruct (ipc_free_avd w); simpl; [done|].
  unfold load_var. change (var_at (set_free_avd n w) x) with (var_at w x).
  repeat case_decide; intros [= <- <-]; tauto.
Qed.

(** C1: a reference to a name that [var_find] does not find and that the
    special resolution does not resolve allocates a new global of that
    name; the new global has no set bit, so [avd_alloc_var_ptr] takes the
    default arm of its switch, logs an error and returns [NULL].  No
    descriptor of any variant comes back for the freshly allocated
    variable. *)
Theorem var_ref_attr_fresh_global_null (name : string) (w w1 w2 : world) (x : nat) :
  find_ptr w (skip1 name) = None ->
  var_find_special (skip1 name) w = Ret None w1 ->
  var_alloc (skip1 name) w1 = Ret (Some x) w2 ->
  var_at w2 x = new_var (skip1 name) VAR_TYPE_NORMAL /\
  shm_var_list w2 = shm_var_list w1 ++ [x] /\
  exists w', var_ref_attr name w = Ret None w' /\ appends_error w2 w' /\
    shm_vars w' = shm_vars w2 /\ shm_var_list w' = shm_var_list w2.
Proof.
  intros Hf Hs Ha.
  apply var_alloc_cmn_inv in Ha as (Hv & Hfit & -> & ->).
  assert (Hx : var_at (alloc_world (skip1 name) VAR_TYPE_NORMAL w1)
                 (length (shm_vars w1)) = new_var (skip1 name) VAR_TYPE_NORMAL)
    by apply var_at_alloc_new.
  split; [done|]. split; [done|].
  unfold var_ref_attr, bind. rewrite var_find_eq, Hf, Hs.
  unfold var_alloc. rewrite var_alloc_cmn_ok by done. simpl.
  set (w2 := alloc_world (skip1 name) VAR_TYPE_NORMAL w1) in *.
  unfold avd_alloc_var_ptr, bind, avd_alloc_cmn, bind, ipc_malloc_avd.
  destruct (ipc_free_avd w2) as [|n] eqn:En; simpl.
  - eexists. split; [done|]. split; [|done].
    by exists [], "AVD allocation failed".
  - unfold load_var.
    change (var_at (set_free_avd n w2) (length (shm_vars w1)))
      with (var_at w2 (length (shm_vars w1))).
    rewrite Hx. simpl.
    eexists. split; [done|]. split; [|done].
    by exists [], "Illegal  variable type".
Qed.

End Shutdown.

(** ** Worked examples on the concrete platform *)

(** ** Literal descriptors *)

Section Literals.

Context {D : Double} {P : Providers}.

Local Open Scope list_scope.

(** X1: A literal descriptor gives back what it was built from.  With a
    descriptor left in the arena, [avd_int_alloc], [avd_bool_alloc] and
    [avd_str_alloc] each use up exactly one, log nothing, and the typed
    readers return the literal: an integer literal reads as itself, as its
    conversion to [double] and as the boolean "not zero"; a boolean
    literal reads as itself; a string literal whose text fits in the
    string region reads as that text. *)
Theorem literal_descriptor_round_trip (w : world) :
  (0 < ipc_free_avd w)%nat ->
  (forall i, exists a w',
     avd_int_alloc i w = Ret (Some a) w' /\ avd_type a = AVD_VAL_INT /\
     ipc_free_avd w' = pred (ipc_free_avd w) /\ log w' = log w /\
     avd_get_int (Some a) w' = Ret i w' /\
     avd_get_dbl (Some a) w' = Ret (dbl_of_u64 i) w' /\
     avd_get_bool (Some a) w' = Ret (negb (i =? 0)%Z) w') /\
  (forall b, exists a w',
     avd_bool_alloc b w = Ret (Some a) w' /\ avd_type a = AVD_VAL_BOOL /\
     ipc_free_avd w' = pred (ipc_free_avd w) /\ log w' = log w /\
     avd_get_bool (Some a) w' = Ret b w') /\
  (forall s, fits s w -> exists a w',
     avd_str_alloc (Some s) w = Ret (Some a) w' /\ avd_type a = AVD_VAL_STR /\
     ipc_free_avd w' = pred (ipc_free_avd w) /\
     ipc_free_str w' = (ipc_free_str w - (String.length s + 1))%nat /\
     log w' = log w /\
     avd_get_str (Some a) w' = Ret (Some s) w').
Proof.
  intros Ha. destruct (ipc_free_avd w) as [|n] eqn:En; [lia|].
  repeat apply conj.
  - intros i. eexists _, _.
    unfold avd_int_alloc, avd_alloc_cmn, bind, ipc_malloc_avd. rewrite En. simpl.
    by repeat apply conj.
  - intros b. eexists _, _.
    unfold avd_bool_alloc, avd_alloc_cmn, bind, ipc_malloc_avd. rewrite En. simpl.
    by repeat apply conj.
  - intros s Hs. eexists _, _.
    unfold avd_str_alloc, avd_alloc_cmn, bind, ipc_malloc_avd. rewrite En. simpl.
    unfold ipc_stralloc. simpl. rewrite decide_True by exact Hs.
    by repeat apply conj.
Qed.

(** X2: What [avd_str_alloc] does not check.  Without a text it logs "No
    string supplied" and returns [NULL], taking no descriptor.  With a
    text that does not fit in the string region it still returns a
    descriptor, of the string variant and with a [NULL] text, and logs
    nothing: the descriptor is used up, and [avd_get_str] of it answers
    [NULL] without an error.  With no descriptor left it returns [NULL]
    after "AVD allocation failed", and no text is allocated. *)
Theorem avd_str_alloc_unchecked_text (w : world) :
  avd_str_alloc None w = Ret None (logged_error ("No string supplied" +:+ nl) w) /\
  (forall s, (0 < ipc_free_avd w)%nat -> ~ fits s w ->
     exists w', avd_str_alloc (Some s) w = Ret (Some (AvdValStr None)) w' /\
       ipc_free_avd w' = pred (ipc_free_avd w) /\
       ipc_free_str w' = ipc_free_str w /\ log w' = log w /\
       avd_get_str (Some (AvdValStr None)) w' = Ret None w') /\
  (forall s, ipc_free_avd w = 0%nat ->
     avd_str_alloc (Some s) w = Ret None (logged_error "AVD allocation failed" w)).
Proof.
  repeat apply conj.
  - done.
  - intros s Ha Hs. destruct (ipc_free_avd w) as [|n] eqn:En; [lia|].
    eexists.
    unfold avd_str_alloc, avd_alloc_cmn, bind, ipc_malloc_avd. rewrite En. simpl.
    unfold ipc_stralloc. simpl. rewrite decide_False by exact Hs.
    by repeat apply conj.
  - intros s En.
    unfold avd_str_alloc, avd_alloc_cmn, bind, ipc_malloc_avd. by rewrite En.
Qed.

End Literals.

(** ** The registries only grow *)

Section Growth.

Context {D : Double} {P : Providers}.

Local Open Scope list_scope.

Lemma extends_refl (w : world) : extends w w.
Proof.
  repeat apply conj; [lia|done|exists []..]; by rewrite ?app_nil_r.
Qed.

Lemma extends_trans (w1 w2 w3 : world) :
  extends w1 w2 -> extends w2 w3 -> extends w1 w3.
Proof.
  intros (Hl1 & Hn1 & (a1 & Ha1 & Fa1) & (b1 & Hb1 & Fb1) & (c1 & Hc1 & Fc1))
         (Hl2 & Hn2 & (a2 & Ha2 & Fa2) & (b2 & Hb2 & Fb2) & (c2 & Hc2 & Fc2)).
  assert (Hmono : forall l, Forall (fun y => (length (shm_vars w2) <= y)%nat) l ->
                            Forall (fun y => (length (shm_vars w1) <= y)%nat) l).
  { intros l Hl. eapply Forall_impl; [exact Hl|]. intros y Hy. simpl in Hy. lia. }
  repeat apply conj.
  - lia.
  - intros x Hx. destruct (Hn1 x Hx) as [<- <-]. apply Hn2. lia.
  - exists (a2 ++ a1). rewrite Ha2, Ha1, app_assoc. split; [done|].
    apply Forall_app. auto.
  - exists (b1 ++ b2). rewrite Hb2, Hb1, app_assoc. split; [done|].
    apply Forall_app. auto.
  - exists (c1 ++ c2). rewrite Hc2, Hc1, app_assoc. split; [done|].
    apply Forall_app. auto.
Qed.

(** A world with the same variables and chains. *)
Lemma registry_same (w w' : world) :
  shm_vars w' = shm_vars w -> shm_var_loc_list w' = shm_var_loc_list w ->
  shm_var_list w' = shm_var_list w ->
  shm_var_special_list w' = shm_var_special_list w ->
  valid_lists w -> valid_lists w' /\ extends w w'.
Proof.
  intros Hv Hl Hg Hs Hw. split.
  - unfold valid_lists, valid_list. rewrite Hv, Hl, Hg, Hs. exact Hw.
  - unfold extends, var_at. rewrite Hv, Hl, Hg, Hs.
    repeat apply conj; [lia|done|exists []..]; by rewrite ?app_nil_r.
Qed.

(** A step that touches neither the pool of variables nor a chain. *)
Lemma keeps_registry_same {A : Type} (m : M A) :
  (forall w a w', m w = Ret a w' ->
     shm_vars w' = shm_vars w /\ shm_var_loc_list w' = shm_var_loc_list w /\
     shm_var_list w' = shm_var_list w /\
     shm_var_special_list w' = shm_var_special_list w) ->
  keeps_registry m.
Proof.
  intros H w a w' Hw Hr. destruct (H w a w' Hr) as (Hv & Hl & Hg & Hs).
  by apply registry_same.
Qed.

Lemma keeps_registry_ret {A : Type} (a : A) : keeps_registry (ret a).
Proof. apply keeps_registry_same. by intros w a' w' [= _ <-]. Qed.

Lemma keeps_registry_fault {A : Type} : keeps_registry (@fault D A).
Proof. by intros w a w' _ H. Qed.

Lemma keeps_registry_shutdown {A : Type} (code : Z) :
  keeps_registry (@filebench_shutdown D A code).
Proof. by intros w a w' _ H. Qed.

Lemma keeps_registry_bind {A B : Type} (m : M A) (k : A -> M B) :
  keeps_registry m -> (forall a, keeps_registry (k a)) -> keeps_registry (bind m k).
Proof.
  intros Hm Hk w b w' Hw H. unfold bind in H.
  destruct (m w) as [a w1|c w1|w1] eqn:E; [|done..].
  destruct (Hm w a w1 Hw E) as [Hw1 He1].
  destruct (Hk a w1 b w' Hw1 H) as [Hw' He'].
  split; [done|]. by apply extends_trans with w1.
Qed.

Ltac same_step :=
  apply keeps_registry_same;
  let w := fresh "w" in
  let H := fresh "H" in
  intros w ? ? H; cbv beta delta [filebench_log get_world load_var
    load_randdist store_randdist ipc_malloc_avd
    randdist_alloc ipc_stralloc getenv var_find
    var_find_list_only] in H;
  repeat case_match; by simplify_eq.

Lemma keeps_registry_log (lvl : log_level) (msg : string) :
  keeps_registry (filebench_log lvl msg).
Proof. same_step. Qed.

Lemma keeps_registry_get_world : keeps_registry get_world.
Proof. same_step. Qed.

Lemma keeps_registry_load_var (a : nat) : keeps_registry (load_var a).
Proof. same_step. Qed.

Lemma keeps_registry_load_randdist (r : nat) : keeps_registry (load_randdist r).
Proof. same_step. Qed.

Lemma keeps_registry_store_randdist (r : nat) (d : randdist_t) :
  keeps_registry (store_randdist r d).
Proof. same_step. Qed.

Lemma keeps_registry_ipc_malloc_avd : keeps_registry ipc_malloc_avd.
Proof. same_step. Qed.

Lemma keeps_registry_randdist_alloc : keeps_registry randdist_alloc.
Proof. same_step. Qed.

Lemma keeps_registry_ipc_stralloc (s : string) : keeps_registry (ipc_stralloc s).
Proof. same_step. Qed.

Lemma keeps_registry_getenv (s : string) : keeps_registry (getenv s).
Proof. same_step. Qed.

Lemma keeps_registry_var_find (name : string) : keeps_registry (var_find name).
Proof. same_step. Qed.

Lemma keeps_registry_var_find_list_only (name : string) (l : list nat) :
  keeps_registry (var_find_list_only name l).
Proof. same_step. Qed.

(** A store through a pointer that changes neither name nor class. *)
Lemma keeps_registry_update_var (x : nat) (f : var_t -> var_t) :
  (forall v, var_name (f v) = var_name v /\ var_class_of (f v) = var_class_of v) ->
  keeps_registry (update_var x f).
Proof.
  intros Hf w a w' Hw H.
  assert (Hw' : w' = with_var x (f (var_at w x)) w)
    by (unfold update_var, bind, load_var, store_var in H; by injection H).
  subst w'.
  split.
  - unfold valid_lists, valid_list. rewrite length_with_var. exact Hw.
  - repeat apply conj.
    + rewrite length_with_var. lia.
    + intros y Hy. destruct (decide (x = y)) as [<-|Hne].
      * rewrite var_at_with_var by done. apply Hf.
      * by rewrite var_at_with_var_ne.
    + by exists [].
    + exists []. by rewrite app_nil_r.
    + exists []. by rewrite app_nil_r.
Qed.

Lemma extends_alloc_world (name : string) (c : var_class) (w : world) :
  extends w (alloc_world name c w).
Proof.
  destruct (lists_alloc_world name c w) as (Hl & Hg & Hs).
  repeat apply conj.
  - rewrite shm_vars_alloc_world, length_app. simpl. lia.
  - intros x Hx. by rewrite var_at_alloc_old.
  - rewrite Hl. destruct c; simpl;
      first [by exists []
            |exists [length (shm_vars w)]; split; [done|apply Forall_singleton; simpl; lia]].
  - rewrite Hg. destruct c; simpl;
      first [exists []; by rewrite app_nil_r
            |exists [length (shm_vars w)]; split; [done|apply Forall_singleton; simpl; lia]].
  - rewrite Hs. destruct c; simpl;
      first [exists []; by rewrite app_nil_r
            |exists [length (shm_vars w)]; split; [done|apply Forall_singleton; simpl; lia]].
Qed.

(** A world that has one more variable, linked nowhere. *)
Lemma extends_unlinked (w w' : world) (v : var_t) :
  shm_vars w' = shm_vars w ++ [v] ->
  shm_var_loc_list w' = shm_var_loc_list w ->
  shm_var_list w' = shm_var_list w ->
  shm_var_special_list w' = shm_var_special_list w ->
  valid_lists w -> valid_lists w' /\ extends w w'.
Proof.
  intros Hv Hl Hg Hs Hw. split.
  - unfold valid_lists, valid_list. rewrite Hv, Hl, Hg, Hs, length_app.
    destruct Hw as (H1 & H2 & H3).
    repeat apply conj; (eapply Forall_impl; [eassumption|]); intros y Hy; simpl in *; lia.
  - unfold extends, var_at. rewrite Hv, Hl, Hg, Hs, length_app.
    repeat apply conj.
    + lia.
    + intros x Hx. by rewrite lookup_app_l.
    + by exists [].
    + exists []. by rewrite app_nil_r.
    + exists []. by rewrite app_nil_r.
Qed.

Lemma keeps_registry_var_alloc_cmn (name : string) (c : var_class) :
  keeps_registry (var_alloc_cmn name c).
Proof.
  intros w a w' Hw H. destruct a as [x|].
  - apply var_alloc_cmn_inv in H as (_ & _ & _ & ->).
    split; [by apply valid_lists_alloc_world|apply extends_alloc_world].
  - unfold var_alloc_cmn, bind, ipc_malloc_var in H.
    destruct (ipc_free_var w) as [|n] eqn:En.
    + injection H as <-. by apply registry_same.
    + simpl in H. unfold ipc_stralloc in H. simpl in H.
      destruct (decide _) as [Hfit|Hfit]; [by destruct c|].
      injection H as <-.
      eapply extends_unlinked; [|done..]. simpl. apply insert_snoc.
Qed.

Create HintDb registry.

#[local] Hint Resolve keeps_registry_ret keeps_registry_fault keeps_registry_shutdown
  keeps_registry_log keeps_registry_get_world keeps_registry_load_var
  keeps_registry_load_randdist keeps_registry_store_randdist
  keeps_registry_ipc_malloc_avd keeps_registry_randdist_alloc
  keeps_registry_ipc_stralloc keeps_registry_getenv keeps_registry_var_find
  keeps_registry_var_find_list_only keeps_registry_var_alloc_cmn : registry.

(** Walks down a routine built from [bind], tests, the steps above and
    stores of a facet. *)
Ltac grows_only :=
  repeat first
    [ progress (intros)
    | solve [auto with registry]
    | apply keeps_registry_update_var; solve [by intros []]
    | apply keeps_registry_bind
    | match goal with
      | |- keeps_registry (match ?x with _ => _ end) => destruct x
      end ].

Lemma keeps_registry_call_rnd_get (r : nat) : keeps_registry (call_rnd_get r).
Proof. unfold call_rnd_get. grows_only. Qed.

#[local] Hint Resolve keeps_registry_call_rnd_get : registry.

Lemma keeps_registry_avd_get_int (a : avd_t) : keeps_registry (avd_get_int a).
Proof. unfold avd_get_int. grows_only. Qed.

Lemma keeps_registry_avd_get_dbl (a : avd_t) : keeps_registry (avd_get_dbl a).
Proof. unfold avd_get_dbl. grows_only. Qed.

Lemma keeps_registry_avd_get_bool (a : avd_t) : keeps_registry (avd_get_bool a).
Proof. unfold avd_get_bool. grows_only. Qed.

Lemma keeps_registry_avd_get_str (a : avd_t) : keeps_registry (avd_get_str a).
Proof. unfold avd_get_str. grows_only. Qed.

Lemma keeps_registry_avd_alloc_cmn : keeps_registry avd_alloc_cmn.
Proof. unfold avd_alloc_cmn. grows_only. Qed.

#[local] Hint Resolve keeps_registry_avd_get_int keeps_registry_avd_alloc_cmn : registry.

Lemma keeps_registry_avd_bool_alloc (b : bool) : keeps_registry (avd_bool_alloc b).
Proof. unfold avd_bool_alloc. grows_only. Qed.

Lemma keeps_registry_avd_int_alloc (i : Z) : keeps_registry (avd_int_alloc i).
Proof. unfold avd_int_alloc. grows_only. Qed.

Lemma keeps_registry_avd_str_alloc (s : option string) :
  keeps_registry (avd_str_alloc s).
Proof. unfold avd_str_alloc. grows_only. Qed.

Lemma keeps_registry_avd_update (a : avd_t) (l : list nat) :
  keeps_registry (avd_update a l).
Proof. unfold avd_update. grows_only. Qed.

Lemma keeps_registry_avd_alloc_var_ptr (var : ptr) :
  keeps_registry (avd_alloc_var_ptr var).
Proof. unfold avd_alloc_var_ptr. grows_only. Qed.

Lemma keeps_registry_var_find_alloc (name : option string) :
  keeps_registry (var_find_alloc name).
Proof. unfold var_find_alloc, var_alloc. grows_only. Qed.

#[local] Hint Resolve keeps_registry_avd_alloc_var_ptr keeps_registry_var_find_alloc
  : registry.

Lemma keeps_registry_var_assign_boolean (name : option string) (b : bool) :
  keeps_registry (var_assign_boolean name b).
Proof. unfold var_assign_boolean. grows_only. Qed.

Lemma keeps_registry_var_assign_integer (name : option string) (i : Z) :
  keeps_registry (var_assign_integer name i).
Proof. unfold var_assign_integer. grows_only. Qed.

Lemma keeps_registry_var_assign_string (name str : string) :
  keeps_registry (var_assign_string name str).
Proof. unfold var_assign_string, var_alloc. grows_only. Qed.

Lemma keeps_registry_var_find_randvar (name : string) :
  keeps_registry (var_find_randvar name).
Proof. unfold var_find_randvar. grows_only. Qed.

Lemma keeps_registry_var_define_randvar (name : string) :
  keeps_registry (var_define_randvar name).
Proof. unfold var_define_randvar. grows_only. Qed.

Lemma keeps_registry_var_copy (dst src : nat) : keeps_registry (var_copy dst src).
Proof. unfold var_copy. grows_only. Qed.

Lemma keeps_registry_var_lvar_alloc_local (name : string) :
  keeps_registry (var_lvar_alloc_local name).
Proof. unfold var_lvar_alloc_local. grows_only. Qed.

#[local] Hint Resolve keeps_registry_var_copy keeps_registry_var_lvar_alloc_local
  : registry.

Lemma keeps_registry_var_lvar_assign_var (name src_name : string) :
  keeps_registry (var_lvar_assign_var name src_name).
Proof. unfold var_lvar_assign_var. grows_only. Qed.

Lemma keeps_registry_var_lvar_assign_boolean (name : string) (b : bool) :
  keeps_registry (var_lvar_assign_boolean name b).
Proof. unfold var_lvar_assign_boolean. grows_only. Qed.

Lemma keeps_registry_var_lvar_assign_integer (name : string) (i : Z) :
  keeps_registry (var_lvar_assign_integer name i).
Proof. unfold var_lvar_assign_integer. grows_only. Qed.

Lemma keeps_registry_var_lvar_assign_double (name : string) (d : double) :
  keeps_registry (var_lvar_assign_double name d).
Proof. unfold var_lvar_assign_double. grows_only. Qed.

Lemma keeps_registry_var_lvar_assign_string (name str : string) :
  keeps_registry (var_lvar_assign_string name str).
Proof. unfold var_lvar_assign_string. grows_only. Qed.

Lemma keeps_registry_var_update_comp_lvars (x : nat) (proto mstr : list nat) :
  keeps_registry (var_update_comp_lvars x proto mstr).
Proof. unfold var_update_comp_lvars. grows_only. Qed.

Lemma keeps_registry_var_find_environment (var : ptr) :
  keeps_registry (var_find_environment var).
Proof. unfold var_find_environment, fb_stralloc. grows_only. Qed.

#[local] Hint Resolve keeps_registry_var_find_environment : registry.

(** The special resolution of a name that is not an internal one. *)
Lemma keeps_registry_var_find_special (name : string) :
  first_char name <> "{"%char -> keeps_registry (var_find_special name).
Proof.
  intros Hc. unfold var_find_special, var_alloc_special.
  replace (Ascii.eqb (first_char name) "{") with false
    by (symmetry; by apply Ascii.eqb_neq).
  grows_only.
Qed.

Lemma keeps_registry_var_to_string_of (x : nat) : keeps_registry (__var_to_string x).
Proof. unfold __var_to_string. grows_only. Qed.

#[local] Hint Resolve keeps_registry_var_to_string_of : registry.

Lemma keeps_registry_var_to_string (name : string) :
  first_char (skip1 name) <> "{"%char -> keeps_registry (var_to_string name).
Proof.
  intros Hc. pose proof (keeps_registry_var_find_special _ Hc).
  unfold var_to_string. grows_only.
Qed.

Lemma keeps_registry_var_randvar_to_string (name : string) (param : rand_param) :
  first_char (skip1 name) <> "{"%char ->
  keeps_registry (var_randvar_to_string name param).
Proof.
  intros Hc. pose proof (keeps_registry_var_to_string _ Hc).
  unfold var_randvar_to_string. grows_only.
Qed.

Lemma keeps_registry_var_ref_attr (name : string) :
  first_char (skip1 name) <> "{"%char -> keeps_registry (var_ref_attr name).
Proof.
  intros Hc. pose proof (keeps_registry_var_find_special _ Hc).
  unfold var_ref_attr, var_alloc. grows_only.
Qed.

(** What [var_find] answers in a world that extends another. *)
Lemma find_ptr_extends (w w' : world) (name : string) (x : nat) :
  valid_lists w -> extends w w' -> find_ptr w name = Some x ->
  find_ptr w' name = Some x \/
  exists y, find_ptr w' name = Some y /\ (length (shm_vars w) <= y)%nat /\
    y ∈ shm_var_loc_list w' /\ var_name (var_at w' y) = name.
Proof.
  intros (Hvl & Hvg & _) (_ & Hn & (a & Ha & Fa) & (b & Hb & Fb) & _) Hf.
  assert (Hs : forall l, valid_list w l -> scan_list w' name l = scan_list w name l).
  { intros l Hl. apply scan_list_ext. eapply Forall_impl; [exact Hl|].
    intros y Hy. by apply Hn. }
  unfold find_ptr in *. rewrite Ha, scan_list_app.
  destruct (scan_list w' name a) as [y|] eqn:Ey.
  - right. exists y. split; [done|].
    pose proof (scan_list_name _ _ _ _ Ey) as Hname.
    apply scan_list_Some in Ey as (l1 & l2 & -> & _).
    apply Forall_app in Fa as [_ Fa]. inversion Fa; subst.
    repeat apply conj; [done| |done].
    apply elem_of_app. left. apply elem_of_app. right. by left.
  - left. rewrite (Hs _ Hvl).
    destruct (scan_list w name (shm_var_loc_list w)); [done|].
    rewrite Hb, scan_list_app, (Hs _ Hvg). by rewrite Hf.
Qed.

Lemma resolves_until_shadowed_intro (w : world) (name : string) (x : nat) :
  valid_lists w -> find_ptr w name = Some x -> resolves_until_shadowed name w x.
Proof. intros Hw Hf w' He. by apply find_ptr_extends. Qed.

(** X3: The registries only grow.  From a world whose chains hold allocated
    variables only, every routine of the file that returns leaves such a
    world, and one in which no variable was taken off a chain, renamed or
    given another scope class: the chains of before are still there, with
    new variables in front of the local chain or behind the other two.
    [var_find_internal] is left out, as it only hands on what the
    providers answer, and they are not part of the file; for
    [var_find_special] and the three routines that call it the statement
    is about every name that is not an internal one.  Hence a name that
    [var_find] resolves keeps resolving whatever runs in between, and to
    the same variable unless a local of that name was allocated since. *)
Theorem registry_only_grows :
  ((forall name c, keeps_registry (var_alloc_cmn name c)) /\
   (forall name, keeps_registry (var_alloc name)) /\
   (forall name, keeps_registry (var_alloc_special name)) /\
   (forall name, keeps_registry (var_find name)) /\
   (forall name l, keeps_registry (var_find_list_only name l)) /\
   (forall name, keeps_registry (var_find_alloc name)) /\
   (forall name b, keeps_registry (var_assign_boolean name b)) /\
   (forall name i, keeps_registry (var_assign_integer name i)) /\
   (forall name s, keeps_registry (var_assign_string name s)) /\
   (forall name, keeps_registry (var_find_randvar name)) /\
   (forall name, keeps_registry (var_define_randvar name)) /\
   (forall dst src, keeps_registry (var_copy dst src)) /\
   (forall name, keeps_registry (var_lvar_alloc_local name)) /\
   (forall name src_name, keeps_registry (var_lvar_assign_var name src_name)) /\
   (forall name b, keeps_registry (var_lvar_assign_boolean name b)) /\
   (forall name i, keeps_registry (var_lvar_assign_integer name i)) /\
   (forall name d, keeps_registry (var_lvar_assign_double name d)) /\
   (forall name s, keeps_registry (var_lvar_assign_string name s)) /\
   (forall x proto mstr, keeps_registry (var_update_comp_lvars x proto mstr)) /\
   (forall var, keeps_registry (var_find_environment var)) /\
   (forall x, keeps_registry (__var_to_string x))) /\
  ((forall a, keeps_registry (avd_get_int a)) /\
   (forall a, keeps_registry (avd_get_dbl a)) /\
   (forall a, keeps_registry (avd_get_bool a)) /\
   (forall a, keeps_registry (avd_get_str a)) /\
   (forall b, keeps_registry (avd_bool_alloc b)) /\
   (forall i, keeps_registry (avd_int_alloc i)) /\
   (forall s, keeps_registry (avd_str_alloc s)) /\
   (forall var, keeps_registry (avd_alloc_var_ptr var)) /\
   (forall a l, keeps_registry (avd_update a l))) /\
  (forall name, first_char name <> "{"%char ->
     keeps_registry (var_find_special name)) /\
  (forall name, first_char (skip1 name) <> "{"%char ->
     keeps_registry (var_ref_attr name) /\
     keeps_registry (var_to_string name) /\
     (forall param, keeps_registry (var_randvar_to_string name param))) /\
  (forall w w' name x,
     valid_lists w -> extends w w' -> find_ptr w name = Some x ->
     find_ptr w' name = Some x \/
     exists y, find_ptr w' name = Some y /\ (length (shm_vars w) <= y)%nat /\
       y ∈ shm_var_loc_list w' /\ var_name (var_at w' y) = name).
Proof.
  split; [|split; [|split; [|split]]].
  - repeat apply conj; intros.
    + apply keeps_registry_var_alloc_cmn.
    + apply keeps_registry_var_alloc_cmn.
    + apply keeps_registry_var_alloc_cmn.
    + apply keeps_registry_var_find.
    + apply keeps_registry_var_find_list_only.
    + apply keeps_registry_var_find_alloc.
    + apply keeps_registry_var_assign_boolean.
    + apply keeps_registry_var_assign_integer.
    + apply keeps_registry_var_assign_string.
    + apply keeps_registry_var_find_randvar.
    + apply keeps_registry_var_define_randvar.
    + apply keeps_registry_var_copy.
    + apply keeps_registry_var_lvar_alloc_local.
    + apply keeps_registry_var_lvar_assign_var.
    + apply keeps_registry_var_lvar_assign_boolean.
    + apply keeps_registry_var_lvar_assign_integer.
    + apply keeps_registry_var_lvar_assign_double.
    + apply keeps_registry_var_lvar_assign_string.
    + apply keeps_registry_var_update_comp_lvars.
    + apply keeps_registry_var_find_environment.
    + apply keeps_registry_var_to_string_of.
  - repeat apply conj; intros.
    + apply keeps_registry_avd_get_int.
    + apply keeps_registry_avd_get_dbl.
    + apply keeps_registry_avd_get_bool.
    + apply keeps_registry_avd_get_str.
    + apply keeps_registry_avd_bool_alloc.
    + apply keeps_registry_avd_int_alloc.
    + apply keeps_registry_avd_str_alloc.
    + apply keeps_registry_avd_alloc_var_ptr.
    + apply keeps_registry_avd_update.
  - intros name Hc. by apply keeps_registry_var_find_special.
  - intros name Hc. repeat apply conj; intros.
    + by apply keeps_registry_var_ref_attr.
    + by apply keeps_registry_var_to_string.
    + by apply keeps_registry_var_randvar_to_string.
  - intros w w' name x. apply find_ptr_extends.
Qed.

End Growth.

(** ** Assignments and lookup *)

Section Assignments.

Context {D : Double} {P : Providers}.

Local Open Scope list_scope.

(** Splits the conjunctions that are written out, not the ones behind a
    definition. *)
Ltac split_all := repeat match goal with |- _ /\ _ => split end.

Lemma update_var_eq (x : nat) (f : var_t -> var_t) (w : world) :
  update_var x f w = Ret tt (with_var x (f (var_at w x)) w).
Proof. done. Qed.

Lemma find_ptr_name (w : world) (name : string) (x : nat) :
  find_ptr w name = Some x -> var_name (var_at w x) = name.
Proof.
  unfold find_ptr. destruct (scan_list w name (shm_var_loc_list w)) eqn:E.
  - intros [= <-]. by apply scan_list_name with (shm_var_loc_list w).
  - apply scan_list_name.
Qed.

Lemma find_ptr_with_var (x : nat) (v : var_t) (w : world) (name : string) :
  var_name v = var_name (var_at w x) ->
  find_ptr (with_var x v w) name = find_ptr w name.
Proof.
  intros Hv. unfold find_ptr.
  change (shm_var_loc_list (with_var x v w)) with (shm_var_loc_list w).
  change (shm_var_list (with_var x v w)) with (shm_var_list w).
  by rewrite !scan_list_with_var.
Qed.

Lemma valid_lists_with_var (x : nat) (v : var_t) (w : world) :
  valid_lists w -> valid_lists (with_var x v w).
Proof. unfold valid_lists, valid_list. by rewrite length_with_var. Qed.

Lemma var_find_alloc_eq (name : string) (w : world) :
  var_find_alloc (Some name) w =
  match find_ptr w (skip1 name) with
  | Some x => Ret (Some x) w
  | None => var_alloc_cmn (skip1 name) VAR_TYPE_NORMAL w
  end.
Proof.
  unfold var_find_alloc, bind. rewrite var_find_eq.
  by destruct (find_ptr w (skip1 name)).
Qed.

(** The world in which an assignment has its variable in hand: the one it
    was called in, or that world with a new global of the name. *)
Lemma found_or_allocated (n : string) (w wa : world) (x : nat) :
  valid_lists w ->
  match find_ptr w n with
  | Some y => Ret (Some y) w
  | None => var_alloc_cmn n VAR_TYPE_NORMAL w
  end = Ret (Some x) wa ->
  find_ptr w n = Some x /\ wa = w \/
  find_ptr w n = None /\ x = length (shm_vars w) /\
    wa = alloc_world n VAR_TYPE_NORMAL w.
Proof.
  intros Hw H. destruct (find_ptr w n) as [y|] eqn:Ef.
  - left. by injection H as -> ->.
  - right. by apply var_alloc_cmn_inv in H as (_ & _ & -> & ->).
Qed.

(** A facet stored into the variable in hand, possibly after a text was
    allocated. *)
Lemma assigned_to_store (n : string) (w wa w2 : world) (x : nat) (f : var_t -> var_t) :
  valid_lists w ->
  find_ptr w n = Some x /\ wa = w \/
  find_ptr w n = None /\ x = length (shm_vars w) /\
    wa = alloc_world n VAR_TYPE_NORMAL w ->
  is_random (var_at wa x) = false ->
  shm_vars w2 = shm_vars wa -> shm_var_loc_list w2 = shm_var_loc_list wa ->
  shm_var_list w2 = shm_var_list wa ->
  shm_var_special_list w2 = shm_var_special_list wa ->
  (forall v, var_name (f v) = var_name v /\ var_class_of (f v) = var_class_of v) ->
  let w1 := with_var x (f (var_at w2 x)) w2 in
  assigned_to n w w1 x /\ var_at w1 x = f (var_at wa x).
Proof.
  intros Hw Hcase Hr Hv Hl Hg Hs Hf w1.
  assert (Hat : forall y, var_at w2 y = var_at wa y)
    by (intros y; unfold var_at; by rewrite Hv).
  assert (Hwa : valid_lists wa /\ find_ptr wa n = Some x).
  { destruct Hcase as [(Hfd & ->)|(Hfd & -> & ->)]; [done|].
    split; [by apply valid_lists_alloc_world|].
    rewrite find_ptr_alloc_global by auto. by rewrite Hfd. }
  destruct Hwa as [Hwa Hfa].
  pose proof (find_ptr_valid _ _ _ Hwa Hfa) as Hx.
  assert (Hw2 : valid_lists w2)
    by (unfold valid_lists, valid_list; by rewrite Hv, Hl, Hg, Hs).
  assert (Hf2 : forall m, find_ptr w2 m = find_ptr wa m)
    by (intros m; by apply find_ptr_same_vars).
  assert (Hf1 : forall m, find_ptr w1 m = find_ptr wa m).
  { intros m. unfold w1. rewrite find_ptr_with_var by apply Hf. apply Hf2. }
  assert (Hx1 : var_at w1 x = f (var_at wa x)).
  { unfold w1. rewrite var_at_with_var by (by rewrite Hv). by rewrite Hat. }
  split; [|done]. unfold assigned_to. split_all.
  - by rewrite Hf1.
  - rewrite Hx1. destruct (Hf (var_at wa x)) as [-> _]. by apply find_ptr_name.
  - rewrite Hx1. unfold is_random in *. by destruct (Hf (var_at wa x)) as [_ ->].
  - by apply valid_lists_with_var.
  - change (shm_var_list w1) with (shm_var_list w2). rewrite Hg.
    destruct Hcase as [(Hfd & ->)|(Hfd & -> & ->)]; [by left|by right].
  - change (shm_var_loc_list w1) with (shm_var_loc_list w2). rewrite Hl.
    by destruct Hcase as [(Hfd & ->)|(Hfd & -> & ->)].
  - intros y Hy Hne. unfold w1. rewrite var_at_with_var_ne by done. rewrite Hat.
    destruct Hcase as [(Hfd & ->)|(Hfd & -> & ->)]; [done|].
    by apply var_at_alloc_old.
  - intros m Hm. rewrite Hf1.
    destruct Hcase as [(Hfd & ->)|(Hfd & -> & ->)]; [done|].
    by apply find_ptr_alloc_other.
Qed.

Lemma assigned_to_set_log (n : string) (w w1 : world) (x : nat)
    (l : list (log_level * string)) :
  assigned_to n w w1 x -> assigned_to n w (set_log l w1) x.
Proof.
  intros (H1 & H2 & H3 & H4 & H5 & H6 & H7 & H8).
  assert (Hf : forall m, find_ptr (set_log l w1) m = find_ptr w1 m)
    by (intros m; by apply find_ptr_same_vars).
  unfold assigned_to. split_all; try done.
  - by rewrite Hf.
  - intros m Hm. rewrite Hf. by apply H8.
Qed.

Lemma log_found_or_allocated (n : string) (w wa : world) (x : nat) :
  find_ptr w n = Some x /\ wa = w \/
  find_ptr w n = None /\ x = length (shm_vars w) /\
    wa = alloc_world n VAR_TYPE_NORMAL w ->
  log wa = log w.
Proof. by intros [(_ & ->)|(_ & _ & ->)]. Qed.

(** [var_to_string] of a name that [var_find] resolves. *)
Lemma var_to_string_found (name : string) (x : nat) (w : world) :
  find_ptr w (skip1 name) = Some x ->
  var_to_string name w =
  match __var_to_string x w with
  | Ret text w' => Ret (Some text) w'
  | Exit code w' => Exit code w'
  | Fault w' => Fault w'
  end.
Proof.
  intros Hf. unfold var_to_string, bind. rewrite var_find_eq, Hf. simpl.
  by destruct (__var_to_string x w).
Qed.

(** X4: A successful assignment is what the next lookup sees, and it is all
    that has changed.  Whenever [var_assign_integer], [var_assign_boolean]
    or [var_assign_string] returns 0, the name (past its sigil) resolves
    to a variable that is not Random-scoped, whose facet is set and holds
    the value assigned; the variable is the one the name resolved to
    before, or a new global at the tail of the chain when it resolved to
    none; every other variable is as it was and every other name resolves
    as it did.  After [var_assign_string], [var_to_string] of the name
    answers the text assigned, whatever else the variable holds. *)
Theorem assignment_round_trip (name : string) (w w1 : world) :
  valid_lists w ->
  (forall i, var_assign_integer (Some name) i w = Ret 0%Z w1 ->
     exists x, assigned_to (skip1 name) w w1 x /\
       VAR_HAS_INTEGER (var_at w1 x) = true /\ var_integer (var_at w1 x) = i /\
       log w1 = log w ++
         [(LOG_DEBUG_SCRIPT, "Assign integer " +:+ name +:+ "=" +:+ fmt_llu i)]) /\
  (forall b, var_assign_boolean (Some name) b w = Ret 0%Z w1 ->
     exists x, assigned_to (skip1 name) w w1 x /\
       VAR_HAS_BOOLEAN (var_at w1 x) = true /\ var_boolean (var_at w1 x) = b /\
       log w1 = log w) /\
  (forall s, var_assign_string name s w = Ret 0%Z w1 ->
     exists x, assigned_to (skip1 name) w w1 x /\
       VAR_HAS_STRING (var_at w1 x) = true /\ var_string (var_at w1 x) = Some s /\
       log w1 = log w /\
       var_to_string name w1 = Ret (Some s) w1).
Proof.
  intros Hw. split_all.
  - intros i H. unfold var_assign_integer, bind in H.
    rewrite var_find_alloc_eq in H.
    destruct (match find_ptr w (skip1 name) with Some _ => _ | None => _ end)
      as [[x|] wa|c wa|wa] eqn:E; [|done..].
    apply found_or_allocated in E; [|done].
    unfold load_var in H. destruct (is_random (var_at wa x)) eqn:Er; [done|].
    rewrite update_var_eq in H. simpl in H. injection H as <-.
    exists x.
    destruct (assigned_to_store (skip1 name) w wa wa x (fun v => VAR_SET_INT v i))
      as [Ha Hx]; try done.
    split; [by apply assigned_to_set_log|].
    change (var_at (set_log ?l ?w0) x) with (var_at w0 x). rewrite Hx.
    split_all; try done. simpl. by rewrite (log_found_or_allocated _ _ _ _ E).
  - intros b H. unfold var_assign_boolean, bind in H.
    rewrite var_find_alloc_eq in H.
    destruct (match find_ptr w (skip1 name) with Some _ => _ | None => _ end)
      as [[x|] wa|c wa|wa] eqn:E; [|done..].
    apply found_or_allocated in E; [|done].
    unfold load_var in H. destruct (is_random (var_at wa x)) eqn:Er; [done|].
    rewrite update_var_eq in H. simpl in H. injection H as <-.
    exists x.
    destruct (assigned_to_store (skip1 name) w wa wa x (fun v => VAR_SET_BOOL v b))
      as [Ha Hx]; try done.
    split; [done|]. rewrite Hx.
    split_all; try done. simpl. by rewrite (log_found_or_allocated _ _ _ _ E).
  - intros s H. unfold var_assign_string, bind in H.
    rewrite var_find_eq in H.
    assert (E0 : (match find_ptr w (skip1 name) with
                  | Some _ => ret (find_ptr w (skip1 name))
                  | None => var_alloc (skip1 name)
                  end) w =
                 match find_ptr w (skip1 name) with
                 | Some y => Ret (Some y) w
                 | None => var_alloc_cmn (skip1 name) VAR_TYPE_NORMAL w
                 end) by (by destruct (find_ptr w (skip1 name))).
    rewrite E0 in H. clear E0.
    destruct (match find_ptr w (skip1 name) with Some _ => _ | None => _ end)
      as [[x|] wa|c wa|wa] eqn:E; [|done..].
    apply found_or_allocated in E; [|done].
    unfold load_var in H. destruct (is_random (var_at wa x)) eqn:Er; [done|].
    unfold ipc_stralloc in H. destruct (decide _) as [Hfit|Hfit]; [|done].
    rewrite update_var_eq in H. simpl in H. injection H as <-.
    exists x.
    set (w2 := set_free_str (ipc_free_str wa - (String.length s + 1)) wa).
    destruct (assigned_to_store (skip1 name) w wa w2 x
                (fun v => VAR_SET_STR v (Some s))) as [Ha Hx]; try done.
    simpl in Ha, Hx.
    split; [done|]. rewrite Hx.
    split_all; try done.
    + simpl. by rewrite (log_found_or_allocated _ _ _ _ E).
    + destruct Ha as (Hf1 & _ & Hr1 & _).
      rewrite (var_to_string_found _ _ _ Hf1).
      unfold __var_to_string, bind, load_var. rewrite Hr1, Hx. by simpl.
Qed.

End Assignments.

(** ** References *)

Section References.

Context {D : Double} {P : Providers}.

Local Open Scope list_scope.

Ltac split_all := repeat match goal with |- _ /\ _ => split end.

(** The world after one descriptor was taken from the arena. *)
Lemma avd_alloc_var_ptr_eq (x : nat) (w : world) :
  (0 < ipc_free_avd w)%nat ->
  let w' := set_free_avd (pred (ipc_free_avd w)) w in
  let v := var_at w x in
  avd_alloc_var_ptr (Some x) w =
  if decide (var_set_of v = VAR_TYPE_BOOL_SET) then Ret (Some (AvdVarvalBool (Some x))) w'
  else if decide (var_set_of v = VAR_TYPE_INT_SET) then Ret (Some (AvdVarvalInt (Some x))) w'
  else if decide (var_set_of v = VAR_TYPE_STR_SET) then Ret (Some (AvdVarvalStr (Some x))) w'
  else if decide (var_set_of v = VAR_TYPE_DBL_SET) then Ret (Some (AvdVarvalDbl (Some x))) w'
  else if decide (var_set_of v = VAR_TYPE_RAND_SET) then Ret (Some (AvdRandvar (var_randptr v))) w'
  else Ret None (logged_error "Illegal  variable type" w').
Proof.
  intros Ha w' v.
  unfold avd_alloc_var_ptr, bind, avd_alloc_cmn, bind, ipc_malloc_avd.
  destruct (ipc_free_avd w) as [|n] eqn:En; [lia|]. simpl.
  unfold load_var. change (var_at (set_free_avd n w) x) with v.
  subst w'. simpl. by repeat case_decide.
Qed.





End References.

(** ** Random variables *)

Section RandomVariables.

Context {D : Double} {P : Providers}.

Local Open Scope list_scope.

Ltac split_all := repeat match goal with |- _ /\ _ => split end.

(** The world [var_define_randvar] leaves when its three allocations
    succeed. *)
Lemma var_define_randvar_ok (name : string) (w : world) :
  find_ptr w (skip1 name) = None ->
  (0 < ipc_free_var w)%nat -> fits (skip1 name) w ->
  (0 < ipc_free_randdist w)%nat ->
  let x := length (shm_vars w) in
  let r := length (shm_randdists w) in
  let wa := alloc_world (skip1 name) VAR_TYPE_RANDOM w in
  var_define_randvar name w =
  Ret (Some x)
    (with_var x (VAR_SET_RAND (new_var (skip1 name) VAR_TYPE_RANDOM) (Some r))
       (set_randdists (shm_randdists w ++ [set_rnd_var randdist_zero (Some x)])
          (set_free_randdist (pred (ipc_free_randdist w)) wa))).
Proof.
  intros Hf Hv Hs Hr x r wa.
  unfold var_define_randvar, bind. rewrite var_find_eq, Hf.
  rewrite var_alloc_cmn_ok by done. fold x wa.
  unfold randdist_alloc.
  change (ipc_free_randdist wa) with (ipc_free_randdist w).
  change (shm_randdists wa) with (shm_randdists w).
  destruct (ipc_free_randdist w) as [|n] eqn:En; [lia|].
  cbv beta iota. fold r.
  unfold load_randdist, store_randdist, randdist_at.
  cbn [shm_randdists set_free_randdist set_randdists default].
  unfold r. rewrite lookup_snoc.
  cbn [shm_randdists set_free_randdist set_randdists default].
  rewrite insert_snoc.
  rewrite update_var_eq.
  assert (Hn : var_at wa x = new_var (skip1 name) VAR_TYPE_RANDOM)
    by apply var_at_alloc_new.
  change (var_at (set_randdists ?l ?w0) x) with (var_at wa x). by rewrite Hn.
Qed.

(** X6: Definition and lookup of a random variable.  On a name that
    [var_find] does not resolve, with a variable, room for the name and a
    distribution object left in the arena, [var_define_randvar] returns a
    new global at the tail of the chain: Random-scoped, with the
    distribution handle as its only set bit, pointing at a new
    distribution object that points back at the variable.  Nothing is
    logged.  In the world it leaves, and in every later world in which
    the name still resolves to that variable and the variable is as it
    was, [var_find_randvar] of the name answers with the variable and
    [var_ref_attr] with a descriptor of the random variant for that
    distribution object.  In every world that extends the one it leaves,
    the name resolves to the variable or to a local of the name that was
    allocated after it; whenever the name resolves to a variable that is
    not Random-scoped, [var_find_randvar] logs "not random" and answers
    [NULL].  Each read of a descriptor of the random
    variant calls the sampling function of the distribution once and
    stores the state it leaves. *)
Theorem define_randvar_round_trip (name : string) (w : world) :
  valid_lists w ->
  find_ptr w (skip1 name) = None ->
  (0 < ipc_free_var w)%nat -> fits (skip1 name) w ->
  (0 < ipc_free_randdist w)%nat ->
  let x := length (shm_vars w) in
  let r := length (shm_randdists w) in
  exists w1,
    var_define_randvar name w = Ret (Some x) w1 /\
    shm_var_list w1 = shm_var_list w ++ [x] /\
    shm_var_loc_list w1 = shm_var_loc_list w /\
    var_name (var_at w1 x) = skip1 name /\
    var_class_of (var_at w1 x) = VAR_TYPE_RANDOM /\
    var_set_of (var_at w1 x) = VAR_TYPE_RAND_SET /\
    var_randptr (var_at w1 x) = Some r /\
    rnd_var (randdist_at w1 r) = Some x /\
    ipc_free_randdist w1 = pred (ipc_free_randdist w) /\
    log w1 = log w /\
    (forall y, (y < length (shm_vars w))%nat -> var_at w1 y = var_at w y) /\
    var_find_randvar name w1 = Ret (Some x) w1 /\
    ((0 < ipc_free_avd w)%nat ->
     var_ref_attr name w1 =
     Ret (Some (AvdRandvar (Some r))) (set_free_avd (pred (ipc_free_avd w)) w1)) /\
    resolves_until_shadowed (skip1 name) w1 x /\
    (forall w2,
       find_ptr w2 (skip1 name) = Some x -> var_at w2 x = var_at w1 x ->
       var_find_randvar name w2 = Ret (Some x) w2 /\
       ((0 < ipc_free_avd w2)%nat ->
        var_ref_attr name w2 =
        Ret (Some (AvdRandvar (Some r))) (set_free_avd (pred (ipc_free_avd w2)) w2))) /\
    (forall w2 y,
       find_ptr w2 (skip1 name) = Some y -> is_random (var_at w2 y) = false ->
       var_find_randvar name w2 =
       Ret None
         (logged_error ("Found variable $" +:+ skip1 name +:+ " not random" +:+ nl) w2)) /\
    (forall w2,
       let d := randdist_at w2 r in
       let w3 := set_randdists (<[r := snd (rnd_get d)]> (shm_randdists w2)) w2 in
       avd_get_dbl (Some (AvdRandvar (Some r))) w2 = Ret (fst (rnd_get d)) w3 /\
       avd_get_int (Some (AvdRandvar (Some r))) w2 = Ret (u64_of_dbl (fst (rnd_get d))) w3).
Proof.
  intros Hw Hf Hv Hs Hr x r.
  pose proof (var_define_randvar_ok name w Hf Hv Hs Hr) as Hd. simpl in Hd.
  fold x r in Hd.
  set (wa := alloc_world (skip1 name) VAR_TYPE_RANDOM w) in *.
  set (wb := set_randdists (shm_randdists w ++ [set_rnd_var randdist_zero (Some x)])
               (set_free_randdist (pred (ipc_free_randdist w)) wa)) in *.
  set (nv := VAR_SET_RAND (new_var (skip1 name) VAR_TYPE_RANDOM) (Some r)) in *.
  assert (Hlen : length (shm_vars wb) = S x).
  { change (shm_vars wb) with (shm_vars wa). unfold wa.
    rewrite shm_vars_alloc_world, length_app. simpl. lia. }
  assert (Hx : var_at (with_var x nv wb) x = nv)
    by (apply var_at_with_var; lia).
  assert (Hfb : forall m, find_ptr wb m = find_ptr wa m)
    by (intros m; by apply find_ptr_same_vars).
  assert (Hnb : var_name nv = var_name (var_at wb x)).
  { change (var_at wb x) with (var_at wa x). unfold wa, x.
    by rewrite var_at_alloc_new. }
  assert (Hf1 : find_ptr (with_var x nv wb) (skip1 name) = Some x).
  { rewrite find_ptr_with_var by done. rewrite Hfb. unfold wa.
    rewrite find_ptr_alloc_global by auto. by rewrite Hf. }
  assert (Hlater : forall w2,
            find_ptr w2 (skip1 name) = Some x -> var_at w2 x = nv ->
            var_find_randvar name w2 = Ret (Some x) w2 /\
            ((0 < ipc_free_avd w2)%nat ->
             var_ref_attr name w2 =
             Ret (Some (AvdRandvar (Some r)))
               (set_free_avd (pred (ipc_free_avd w2)) w2))).
  { intros w2 Hf2 Hx2. split.
    - unfold var_find_randvar, bind. rewrite var_find_eq, Hf2.
      unfold load_var. by rewrite Hx2.
    - intros Ha. rewrite (var_ref_attr_found _ _ _ Hf2).
      rewrite avd_alloc_var_ptr_eq by done. cbv zeta. by rewrite Hx2. }
  assert (Hw1 : valid_lists (with_var x nv wb)).
  { apply valid_lists_with_var.
    assert (Hwa : valid_lists wa) by (by apply valid_lists_alloc_world).
    exact Hwa. }
  exists (with_var x nv wb). split_all; try done.
  - by rewrite Hx.
  - by rewrite Hx.
  - by rewrite Hx.
  - by rewrite Hx.
  - unfold randdist_at. simpl. unfold r. by rewrite lookup_snoc.
  - intros y Hy. rewrite var_at_with_var_ne by (unfold x; lia).
    change (var_at wb y) with (var_at wa y). by apply var_at_alloc_old.
  - by apply Hlater.
  - intros Ha. by apply (Hlater (with_var x nv wb)).
  - by apply resolves_until_shadowed_intro.
  - intros w2 Hf2 Hx2. apply Hlater; [done|]. by rewrite Hx2.
  - intros w2 y Hf2 Hr2. apply var_find_randvar_not_random with y; [done|by left].
Qed.

(** X7: A Random-scoped variable with no distribution attached cannot be
    printed.  [__var_to_string] tests the scope class alone and then reads
    through the distribution handle, so for a name resolved to such a
    variable [var_to_string] dereferences [NULL]; [var_randvar_to_string]
    does test the handle, but then falls back on [var_to_string] and
    dereferences [NULL] as well.  This is the variable that
    [var_define_randvar] leaves behind when the allocation of the
    distribution object fails. *)
Theorem printing_a_random_variable_without_distribution (name : string) (w : world) :
  (forall x, find_ptr w (skip1 name) = Some x ->
     is_random (var_at w x) = true -> var_randptr (var_at w x) = None ->
     __var_to_string x w = Fault w /\
     var_to_string name w = Fault w /\
     (forall param, VAR_HAS_RANDDIST (var_at w x) = false ->
        var_randvar_to_string name param w = Fault w)) /\
  (valid_lists w -> find_ptr w (skip1 name) = None ->
   (0 < ipc_free_var w)%nat -> fits (skip1 name) w -> ipc_free_randdist w = 0%nat ->
   exists w1, var_define_randvar name w = Ret None w1 /\
     var_to_string name w1 = Fault w1 /\
     (forall param, var_randvar_to_string name param w1 = Fault w1)).
Proof.
  assert (Hgen : forall w0 x, find_ptr w0 (skip1 name) = Some x ->
     is_random (var_at w0 x) = true -> var_randptr (var_at w0 x) = None ->
     __var_to_string x w0 = Fault w0 /\
     var_to_string name w0 = Fault w0 /\
     (forall param, VAR_HAS_RANDDIST (var_at w0 x) = false ->
        var_randvar_to_string name param w0 = Fault w0)).
  { intros w0 x Hf Hr Hp.
    assert (H1 : __var_to_string x w0 = Fault w0)
      by (unfold __var_to_string, bind, load_var; by rewrite Hr, Hp).
    assert (H2 : var_to_string name w0 = Fault w0)
      by (by rewrite (var_to_string_found _ _ _ Hf), H1).
    split_all; [done..|].
    intros param Hh. unfold var_randvar_to_string, bind.
    rewrite var_find_eq, Hf. unfold load_var. by rewrite Hr, Hh. }
  split; [apply Hgen|].
  intros Hw Hf Hv Hs Hr.
  set (w1 := logged_error ("failed to alloc random distribution object" +:+ nl)
               (alloc_world (skip1 name) VAR_TYPE_RANDOM w)).
  assert (Hd : var_define_randvar name w = Ret None w1).
  { unfold var_define_randvar, bind. rewrite var_find_eq, Hf.
    rewrite var_alloc_cmn_ok by done. unfold randdist_alloc.
    change (ipc_free_randdist (alloc_world (skip1 name) VAR_TYPE_RANDOM w))
      with (ipc_free_randdist w).
    by rewrite Hr. }
  assert (Hx : var_at w1 (length (shm_vars w)) = new_var (skip1 name) VAR_TYPE_RANDOM)
    by apply var_at_alloc_new.
  assert (Hf1 : find_ptr w1 (skip1 name) = Some (length (shm_vars w))).
  { unfold w1. rewrite find_ptr_logged_error.
    rewrite find_ptr_alloc_global by auto. by rewrite Hf. }
  destruct (Hgen w1 _ Hf1) as (_ & H2 & H3); [by rewrite Hx..|].
  exists w1. split_all; [done..|].
  intros param. apply H3. by rewrite Hx.
Qed.

End RandomVariables.

(** ** Local variables *)

Section Locals.

Context {D : Double} {P : Providers}.

Local Open Scope list_scope.

Ltac split_all := repeat match goal with |- _ /\ _ => split end.

(** A facet stored into a local that was just allocated, possibly after a
    text was allocated or an error logged. *)
Lemma local_bound_store (n : string) (w w2 : world) (v : var_t) :
  valid_lists w ->
  let x := length (shm_vars w) in
  let wa := alloc_world n VAR_TYPE_LOCAL w in
  shm_vars w2 = shm_vars wa -> shm_var_loc_list w2 = shm_var_loc_list wa ->
  shm_var_list w2 = shm_var_list wa ->
  shm_var_special_list w2 = shm_var_special_list wa ->
  var_name v = n -> var_class_of v = VAR_TYPE_LOCAL ->
  local_bound n w (with_var x v w2) x /\ var_at (with_var x v w2) x = v.
Proof.
  intros Hw x wa Hv Hl Hg Hs Hn Hc.
  assert (Hat : forall y, var_at w2 y = var_at wa y)
    by (intros y; unfold var_at; by rewrite Hv).
  assert (Hlen : length (shm_vars w2) = S x).
  { rewrite Hv. unfold wa. rewrite shm_vars_alloc_world, length_app. simpl. lia. }
  assert (Hwa : valid_lists wa) by (by apply valid_lists_alloc_world).
  assert (Hw2 : valid_lists w2)
    by (unfold valid_lists, valid_list; by rewrite Hv, Hl, Hg, Hs).
  assert (Hna : var_name v = var_name (var_at w2 x)).
  { rewrite Hat. unfold wa, x. by rewrite var_at_alloc_new. }
  assert (Hf1 : forall m, find_ptr (with_var x v w2) m = find_ptr wa m).
  { intros m. rewrite find_ptr_with_var by done. by apply find_ptr_same_vars. }
  assert (Hx : var_at (with_var x v w2) x = v) by (apply var_at_with_var; lia).
  split; [|done]. unfold local_bound. split_all; try done.
  - rewrite Hf1. subst n. apply find_ptr_alloc_local.
  - by rewrite Hx.
  - by rewrite Hx.
  - by apply valid_lists_with_var.
  - intros y Hy. rewrite var_at_with_var_ne by (unfold x; lia).
    rewrite Hat. by apply var_at_alloc_old.
  - intros m Hm. rewrite Hf1. by apply find_ptr_alloc_other.
Qed.

Lemma var_lvar_alloc_local_ok (name : string) (w : world) :
  (0 < ipc_free_var w)%nat -> fits (local_name name) w ->
  var_lvar_alloc_local name w =
  Ret (Some (length (shm_vars w))) (alloc_world (local_name name) VAR_TYPE_LOCAL w).
Proof.
  intros Hv Hs. unfold var_lvar_alloc_local. fold (local_name name).
  by apply var_alloc_cmn_ok.
Qed.

Lemma local_bound_resolves (n : string) (w w1 : world) (x : nat) :
  local_bound n w w1 x -> resolves_until_shadowed n w1 x.
Proof.
  intros (_ & Hf & _ & _ & Hw1 & _). by apply resolves_until_shadowed_intro.
Qed.

(** X8: Assignment to a new local.  With a variable and room for the name
    left in the arena, each of [var_lvar_assign_integer],
    [var_lvar_assign_boolean], [var_lvar_assign_double] and
    [var_lvar_assign_string] (when the text fits as well) allocates a new
    local under the name without its leading [$], links it at the head of
    the local chain and returns it; the variable has the facet assigned as
    its only set bit and holds the value.  In the world returned
    [var_find] resolves the name to the new local, whatever local or
    global bore the name before; older variables keep their contents and
    every other name resolves as it did.  Nothing is logged.  In every
    world that extends the one returned, the name resolves to the new
    local, or to a local of the name that was allocated after it. *)
Theorem local_assignment_round_trip (name : string) (w : world) :
  valid_lists w ->
  (0 < ipc_free_var w)%nat -> fits (local_name name) w ->
  let x := length (shm_vars w) in
  (forall i, exists w1,
     var_lvar_assign_integer name i w = Ret (Some x) w1 /\
     local_bound (local_name name) w w1 x /\
     resolves_until_shadowed (local_name name) w1 x /\ log w1 = log w /\
     var_set_of (var_at w1 x) = VAR_TYPE_INT_SET /\ var_integer (var_at w1 x) = i) /\
  (forall b, exists w1,
     var_lvar_assign_boolean name b w = Ret (Some x) w1 /\
     local_bound (local_name name) w w1 x /\
     resolves_until_shadowed (local_name name) w1 x /\ log w1 = log w /\
     var_set_of (var_at w1 x) = VAR_TYPE_BOOL_SET /\ var_boolean (var_at w1 x) = b) /\
  (forall d, exists w1,
     var_lvar_assign_double name d w = Ret (Some x) w1 /\
     local_bound (local_name name) w w1 x /\
     resolves_until_shadowed (local_name name) w1 x /\ log w1 = log w /\
     var_set_of (var_at w1 x) = VAR_TYPE_DBL_SET /\ var_dbl_flt (var_at w1 x) = d) /\
  (forall s, (String.length (local_name name) + 1 + (String.length s + 1)
              <= ipc_free_str w)%nat ->
   exists w1,
     var_lvar_assign_string name s w = Ret (Some x) w1 /\
     local_bound (local_name name) w w1 x /\
     resolves_until_shadowed (local_name name) w1 x /\ log w1 = log w /\
     var_set_of (var_at w1 x) = VAR_TYPE_STR_SET /\ var_string (var_at w1 x) = Some s).
Proof.
  intros Hw Hv Hs x.
  set (n := local_name name) in *.
  set (wa := alloc_world n VAR_TYPE_LOCAL w).
  assert (Hnv : var_at wa x = new_var n VAR_TYPE_LOCAL) by apply var_at_alloc_new.
  split_all.
  - intros i. eexists.
    unfold var_lvar_assign_integer, bind. rewrite var_lvar_alloc_local_ok by done.
    fold n wa x. rewrite update_var_eq, Hnv. split; [reflexivity|].
    destruct (local_bound_store n w wa (VAR_SET_INT (new_var n VAR_TYPE_LOCAL) i))
      as [Hb Hx]; try done.
    fold x in Hb, Hx. rewrite Hx.
    split_all; first [done|by apply local_bound_resolves with w].
  - intros b. eexists.
    unfold var_lvar_assign_boolean, bind. rewrite var_lvar_alloc_local_ok by done.
    fold n wa x. rewrite update_var_eq, Hnv. split; [reflexivity|].
    destruct (local_bound_store n w wa (VAR_SET_BOOL (new_var n VAR_TYPE_LOCAL) b))
      as [Hb Hx]; try done.
    fold x in Hb, Hx. rewrite Hx.
    split_all; first [done|by apply local_bound_resolves with w].
  - intros d. eexists.
    unfold var_lvar_assign_double, bind. rewrite var_lvar_alloc_local_ok by done.
    fold n wa x. rewrite update_var_eq, Hnv. split; [reflexivity|].
    destruct (local_bound_store n w wa (VAR_SET_DBL (new_var n VAR_TYPE_LOCAL) d))
      as [Hb Hx]; try done.
    fold x in Hb, Hx. rewrite Hx.
    split_all; first [done|by apply local_bound_resolves with w].
  - intros s Hfit. eexists.
    unfold var_lvar_assign_string, bind. rewrite var_lvar_alloc_local_ok by done.
    fold n wa x. unfold ipc_stralloc.
    change (ipc_free_str wa) with (ipc_free_str w - (String.length n + 1))%nat.
    rewrite decide_True by lia. cbv beta iota.
    rewrite update_var_eq.
    change (var_at (set_free_str ?k wa) x) with (var_at wa x). rewrite Hnv.
    split; [reflexivity|].
    destruct (local_bound_store n w
                (set_free_str
                   (ipc_free_str w - (String.length n + 1) - (String.length s + 1)) wa)
                (VAR_SET_STR (new_var n VAR_TYPE_LOCAL) (Some s)))
      as [Hb Hx]; try done.
    fold x in Hb, Hx. rewrite Hx.
    split_all; first [done|by apply local_bound_resolves with w].
Qed.

(** The new local as [var_alloc_cmn] leaves it, in a world that differs
    from that one in budgets and log only. *)
Lemma local_bound_alloc (n : string) (w w2 : world) :
  valid_lists w ->
  let x := length (shm_vars w) in
  let wa := alloc_world n VAR_TYPE_LOCAL w in
  shm_vars w2 = shm_vars wa -> shm_var_loc_list w2 = shm_var_loc_list wa ->
  shm_var_list w2 = shm_var_list wa ->
  shm_var_special_list w2 = shm_var_special_list wa ->
  local_bound n w w2 x /\ var_at w2 x = new_var n VAR_TYPE_LOCAL.
Proof.
  intros Hw x wa Hv Hl Hg Hs.
  assert (Hx : var_at w2 x = new_var n VAR_TYPE_LOCAL).
  { unfold var_at. rewrite Hv. apply var_at_alloc_new. }
  split; [|done].
  rewrite <- (with_var_id x w2). rewrite Hx.
  by apply local_bound_store.
Qed.

(** X9: A string that does not fit leaves an empty variable behind.  When the
    arena has a variable and room for the name but not for the text as
    well, [var_lvar_assign_string], and [var_lvar_assign_var] from a
    source whose first set facet is its string, log "Cannot assign
    variable" and return [NULL]; [var_assign_string] to a name that
    [var_find] does not resolve logs the same and returns -1.  In each case
    the variable allocated for the name stays linked with no set bit: in
    the world returned the name resolves to it, the new local shadowing
    whatever bore the name; and in every world that extends the one
    returned the name resolves to it, or to a local of the name that was
    allocated after it. *)
Theorem string_that_does_not_fit_leaves_empty_variable (name : string) (w : world) :
  valid_lists w ->
  (0 < ipc_free_var w)%nat ->
  let x := length (shm_vars w) in
  (forall s,
     fits (local_name name) w ->
     ~ (String.length (local_name name) + 1 + (String.length s + 1)
        <= ipc_free_str w)%nat ->
     exists w1, var_lvar_assign_string name s w = Ret None w1 /\
       local_bound (local_name name) w w1 x /\
       resolves_until_shadowed (local_name name) w1 x /\
       var_set_of (var_at w1 x) = VAR_TYPE_NONE_SET /\
       log w1 = log w ++ [(LOG_ERROR, "Cannot assign variable " +:+ name)]) /\
  (forall src_name src text,
     find_ptr w (skip1 src_name) = Some src ->
     VAR_HAS_BOOLEAN (var_at w src) = false ->
     VAR_HAS_INTEGER (var_at w src) = false ->
     VAR_HAS_STRING (var_at w src) = true ->
     var_string (var_at w src) = Some text ->
     fits (local_name name) w ->
     ~ (String.length (local_name name) + 1 + (String.length text + 1)
        <= ipc_free_str w)%nat ->
     exists w1, var_lvar_assign_var name src_name w = Ret None w1 /\
       local_bound (local_name name) w w1 x /\
       resolves_until_shadowed (local_name name) w1 x /\
       var_set_of (var_at w1 x) = VAR_TYPE_NONE_SET /\
       log w1 = log w ++ [(LOG_ERROR, "Cannot assign variable " +:+ name)]) /\
  (forall s,
     find_ptr w (skip1 name) = None ->
     fits (skip1 name) w ->
     ~ (String.length (skip1 name) + 1 + (String.length s + 1)
        <= ipc_free_str w)%nat ->
     exists w1, var_assign_string name s w = Ret (-1)%Z w1 /\
       find_ptr w1 (skip1 name) = Some x /\
       resolves_until_shadowed (skip1 name) w1 x /\
       shm_var_list w1 = shm_var_list w ++ [x] /\
       var_at w1 x = new_var (skip1 name) VAR_TYPE_NORMAL /\
       log w1 = log w ++ [(LOG_ERROR, "Cannot assign variable " +:+ skip1 name)]).
Proof.
  intros Hw Hv x. split_all.
  - intros s Hs Hfit. eexists.
    unfold var_lvar_assign_string, bind. rewrite var_lvar_alloc_local_ok by done.
    set (n := local_name name) in *.
    set (wa := alloc_world n VAR_TYPE_LOCAL w).
    unfold ipc_stralloc.
    change (ipc_free_str wa) with (ipc_free_str w - (String.length n + 1))%nat.
    rewrite decide_False by (unfold fits in Hs; lia). cbv beta iota.
    split; [reflexivity|].
    destruct (local_bound_alloc n w
                (logged_error ("Cannot assign variable " +:+ name) wa))
      as [Hb Hx]; try done.
    fold x in Hb, Hx.
    split_all; [exact Hb|exact (local_bound_resolves _ _ _ _ Hb)
               |exact (f_equal var_set_of Hx)|done].
  - intros src_name src text Hf Hbo Hin Hst Htx Hs Hfit. eexists.
    rewrite (var_lvar_assign_var_eq name src_name src w) by done. simpl.
    rewrite Hbo, Hin, Hst, Htx.
    set (n := local_name name) in *.
    set (wa := alloc_world n VAR_TYPE_LOCAL w).
    change (ipc_free_str wa) with (ipc_free_str w - (String.length n + 1))%nat.
    rewrite decide_False by (unfold fits in Hs; lia).
    split; [reflexivity|].
    destruct (local_bound_alloc n w
                (logged_error ("Cannot assign variable " +:+ name) wa))
      as [Hb Hx]; try done.
    fold x in Hb, Hx.
    split_all; [exact Hb|exact (local_bound_resolves _ _ _ _ Hb)
               |exact (f_equal var_set_of Hx)|done].
  - intros s Hf Hs Hfit. eexists.
    unfold var_assign_string, bind. rewrite var_find_eq, Hf.
    unfold var_alloc. rewrite var_alloc_cmn_ok by done.
    set (n := skip1 name) in *.
    set (wa := alloc_world n VAR_TYPE_NORMAL w).
    assert (Hx : var_at wa x = new_var n VAR_TYPE_NORMAL) by apply var_at_alloc_new.
    unfold load_var. fold x. rewrite Hx.
    change (is_random (new_var n VAR_TYPE_NORMAL)) with false. cbv beta iota.
    unfold ipc_stralloc.
    change (ipc_free_str wa) with (ipc_free_str w - (String.length n + 1))%nat.
    rewrite decide_False by (unfold fits in Hs; lia). cbv beta iota.
    split; [reflexivity|].
    assert (Hf1 : find_ptr (logged_error ("Cannot assign variable " +:+ n) wa) n = Some x).
    { rewrite find_ptr_logged_error. unfold wa.
      rewrite find_ptr_alloc_global by auto. by rewrite Hf. }
    assert (Hw1 : valid_lists (logged_error ("Cannot assign variable " +:+ n) wa)).
    { assert (Hwa : valid_lists wa) by (by apply valid_lists_alloc_world).
      exact Hwa. }
    split_all; [exact Hf1|exact (resolves_until_shadowed_intro _ _ _ Hw1 Hf1)
               |done|exact Hx|done].
Qed.


End Locals.

(** ** Special names *)

Section Specials.

Context {D : Double} {P : Providers}.

Local Open Scope list_scope.

Ltac split_all := repeat match goal with |- _ /\ _ => split end.

(** The scan of [var_find_special] and the allocation that follows it
    when nothing is found. *)
Lemma var_find_special_eq (name : string) (w : world) :
  var_find_special name w =
  match (match scan_list w name (shm_var_special_list w) with
         | Some x => Ret (Some x) w
         | None => var_alloc_cmn name VAR_TYPE_SPECIAL w
         end) with
  | Ret var w1 =>
      if Ascii.eqb (first_char name) "{" then
        match var_find_internal var w1 with
        | Ret (Some y) w2 => Ret (Some y) w2
        | Ret None w2 =>
            match var with
            | None => Fault w2
            | Some x =>
                Ret None
                  (logged_error
                     ("Cannot find internal variable " +:+ var_name (var_at w2 x)) w2)
            end
        | Exit code w2 => Exit code w2
        | Fault w2 => Fault w2
        end
      else if Ascii.eqb (first_char name) "(" then
        match var_find_environment var w1 with
        | Ret (Some y) w2 => Ret (Some y) w2
        | Ret None w2 =>
            match var with
            | None => Fault w2
            | Some x =>
                Ret None
                  (logged_error
                     ("Cannot find environment variable " +:+ var_name (var_at w2 x)) w2)
            end
        | Exit code w2 => Exit code w2
        | Fault w2 => Fault w2
        end
      else Ret None w1
  | Exit code w1 => Exit code w1
  | Fault w1 => Fault w1
  end.
Proof.
  unfold var_find_special, bind, get_world, var_alloc_special.
  destruct (scan_list w name (shm_var_special_list w)) as [x|];
    cbv beta iota delta [ret].
  - destruct (Ascii.eqb (first_char name) "{").
    + destruct (var_find_internal (Some x) w) as [[y|] w2|c w2|w2]; done.
    + destruct (Ascii.eqb (first_char name) "("); [|done].
      destruct (var_find_environment (Some x) w) as [[y|] w2|c w2|w2]; done.
  - destruct (var_alloc_cmn name VAR_TYPE_SPECIAL w) as [var w1|c w1|w1]; [|done..].
    destruct (Ascii.eqb (first_char name) "{").
    + destruct (var_find_internal var w1) as [[y|] w2|c w2|w2]; try done.
      by destruct var.
    + destruct (Ascii.eqb (first_char name) "("); [|done].
      destruct (var_find_environment var w1) as [[y|] w2|c w2|w2]; try done.
      by destruct var.
Qed.

Lemma special_in_hand_eq (name : string) (w w1 : world) (x : nat) :
  special_in_hand name w w1 x ->
  match scan_list w name (shm_var_special_list w) with
  | Some y => Ret (Some y) w
  | None => var_alloc_cmn name VAR_TYPE_SPECIAL w
  end = Ret (Some x) w1 /\
  var_name (var_at w1 x) = name.
Proof.
  intros [(Hs & ->)|(Hs & Hv & Hf & -> & ->)]; rewrite Hs.
  - split; [done|]. by apply scan_list_name with (shm_var_special_list w).
  - split; [by apply var_alloc_cmn_ok|]. by rewrite var_at_alloc_new.
Qed.

(** X11: The special resolution of a name that is neither an internal nor an
    environment one, and what the callers make of it.  Such a name is
    never resolved: [var_find_special] answers [NULL] in every world
    whose chains hold allocated variables only.  When the special chain holds a variable of the name, the world is
    left as it is.  When it holds none, a variable is allocated first.
    If the arena has a variable and room for the name, the new variable
    is linked at the tail of the special chain and nothing is logged: the
    first lookup uses up a variable and the room for the name, and a
    second lookup finds that variable and leaves the world as it is.  If
    the allocation fails, its error, "Out of memory for variables" or
    "Out of memory for strings", is logged and no chain changes.
    [var_find] never sees the special chain.  Hence, with room in the
    arena, [var_to_string] of a name that is not known allocates a
    special variable and answers [NULL], and [var_ref_attr] of it
    allocates two variables of the name, one special and one global. *)
Theorem special_lookup_of_a_plain_name (name : string) (w : world) :
  first_char name <> "{"%char -> first_char name <> "("%char ->
  valid_lists w ->
  (exists w1, var_find_special name w = Ret None w1) /\
  (forall x, scan_list w name (shm_var_special_list w) = Some x ->
     var_find_special name w = Ret None w) /\
  (scan_list w name (shm_var_special_list w) = None ->
   ipc_free_var w = 0%nat \/ ~ fits name w ->
   exists w1 msg, var_find_special name w = Ret None w1 /\
     log w1 = log w ++ [(LOG_ERROR, msg)] /\
     (msg = "Out of memory for variables" \/ msg = "Out of memory for strings") /\
     shm_var_special_list w1 = shm_var_special_list w /\
     shm_var_list w1 = shm_var_list w /\
     shm_var_loc_list w1 = shm_var_loc_list w) /\
  (scan_list w name (shm_var_special_list w) = None ->
   (0 < ipc_free_var w)%nat -> fits name w ->
   let x := length (shm_vars w) in
   let w1 := alloc_world name VAR_TYPE_SPECIAL w in
   var_find_special name w = Ret None w1 /\
   var_find_special name w1 = Ret None w1 /\
   shm_var_special_list w1 = shm_var_special_list w ++ [x] /\
   var_at w1 x = new_var name VAR_TYPE_SPECIAL /\
   ipc_free_var w1 = pred (ipc_free_var w) /\
   ipc_free_str w1 = (ipc_free_str w - (String.length name + 1))%nat /\
   log w1 = log w /\
   (forall m, find_ptr w1 m = find_ptr w m) /\
   (forall c, find_ptr w name = None ->
      var_to_string (String c name) w = Ret None w1 /\
      var_to_string (String c name) w1 = Ret None w1) /\
   (forall c, find_ptr w name = None ->
      (0 < ipc_free_var w1)%nat -> fits name w1 -> (0 < ipc_free_avd w)%nat ->
      exists w2, var_ref_attr (String c name) w = Ret None w2 /\
        shm_var_special_list w2 = shm_var_special_list w ++ [x] /\
        shm_var_list w2 = shm_var_list w ++ [S x] /\
        length (shm_vars w2) = S (S x) /\
        var_name (var_at w2 x) = name /\ var_name (var_at w2 (S x)) = name /\
        ipc_free_var w2 = pred (pred (ipc_free_var w)))).
Proof.
  intros Hc1 Hc2 Hw.
  apply Ascii.eqb_neq in Hc1, Hc2.
  assert (Hfound : forall w0 x, scan_list w0 name (shm_var_special_list w0) = Some x ->
            var_find_special name w0 = Ret None w0).
  { intros w0 x Hs. by rewrite var_find_special_eq, Hs, Hc1, Hc2. }
  assert (Hfail : scan_list w name (shm_var_special_list w) = None ->
            ipc_free_var w = 0%nat \/ ~ fits name w ->
            exists w1 msg, var_find_special name w = Ret None w1 /\
              log w1 = log w ++ [(LOG_ERROR, msg)] /\
              (msg = "Out of memory for variables" \/
               msg = "Out of memory for strings") /\
              shm_var_special_list w1 = shm_var_special_list w /\
              shm_var_list w1 = shm_var_list w /\
              shm_var_loc_list w1 = shm_var_loc_list w).
  { intros Hs Hroom. destruct (ipc_free_var w) as [|n] eqn:En.
    - eexists _, _. rewrite var_find_special_eq, Hs.
      rewrite var_alloc_cmn_no_var by done. rewrite Hc1, Hc2.
      split; [reflexivity|]. split_all; try done. by left.
    - destruct Hroom as [|Hnf]; [done|].
      destruct (var_alloc_cmn_no_str name VAR_TYPE_SPECIAL w)
        as (w1 & Hr & Hg & Hl & Hsp & Hlog); [lia|done|].
      exists w1, "Out of memory for strings".
      rewrite var_find_special_eq, Hs, Hr, Hc1, Hc2.
      split_all; try done. by right. }
  assert (Hok : scan_list w name (shm_var_special_list w) = None ->
            (0 < ipc_free_var w)%nat -> fits name w ->
            var_find_special name w = Ret None (alloc_world name VAR_TYPE_SPECIAL w)).
  { intros Hs Hv Hf. rewrite var_find_special_eq, Hs.
    rewrite var_alloc_cmn_ok by done. by rewrite Hc1, Hc2. }
  split.
  { destruct (scan_list w name (shm_var_special_list w)) as [x|] eqn:Hs.
    - exists w. by apply Hfound with x.
    - destruct (decide (0 < ipc_free_var w)%nat) as [Hv|Hv].
      + destruct (decide (String.length name + 1 <= ipc_free_str w)%nat) as [Hf|Hf].
        * eexists. by apply Hok.
        * destruct Hfail as (w1 & _ & Hr & _); [done|by right|]. by exists w1.
      + destruct Hfail as (w1 & _ & Hr & _); [done|left; lia|]. by exists w1. }
  split; [apply Hfound|].
  split; [exact Hfail|].
  intros Hs Hv Hf x w1.
  assert (H1 : var_find_special name w = Ret None w1) by (by apply Hok).
  assert (Hs1 : scan_list w1 name (shm_var_special_list w1) = Some x).
  { destruct Hw as (_ & _ & Hsp).
    change (shm_var_special_list w1) with (shm_var_special_list w ++ [x]).
    rewrite scan_list_app. unfold w1.
    rewrite scan_list_alloc_old by done. rewrite Hs.
    unfold x. rewrite scan_list_alloc_new. by rewrite String.eqb_refl. }
  assert (Hfp : forall m, find_ptr w1 m = find_ptr w m)
    by (intros m; by apply find_ptr_alloc_special).
  split_all; try done.
  - by apply Hfound with x.
  - apply var_at_alloc_new.
  - intros c Hn. split.
    + unfold var_to_string, bind. change (skip1 (String c name)) with name. rewrite var_find_eq, Hn.
      by rewrite H1.
    + unfold var_to_string, bind. change (skip1 (String c name)) with name. rewrite var_find_eq.
      rewrite Hfp, Hn. by rewrite (Hfound w1 x Hs1).
  - intros c Hn Hv1 Hf1 Ha.
    set (w2 := alloc_world name VAR_TYPE_NORMAL w1).
    assert (Hx2 : var_at w2 (S x) = new_var name VAR_TYPE_NORMAL).
    { replace (S x) with (length (shm_vars w1)); [apply var_at_alloc_new|].
      unfold w1. rewrite shm_vars_alloc_world, length_app. simpl. unfold x. lia. }
    assert (Hlen1 : length (shm_vars w1) = S x).
    { unfold w1. rewrite shm_vars_alloc_world, length_app. simpl. unfold x. lia. }
    assert (Hlen2 : length (shm_vars w2) = S (S x)).
    { unfold w2. rewrite shm_vars_alloc_world, length_app, Hlen1. simpl. lia. }
    assert (Hx1 : var_name (var_at w2 x) = name).
    { unfold w2. rewrite var_at_alloc_old by lia. unfold w1, x.
      by rewrite var_at_alloc_new. }
    exists (logged_error "Illegal  variable type"
              (set_free_avd (pred (ipc_free_avd w2)) w2)).
    split.
    + unfold var_ref_attr, bind. change (skip1 (String c name)) with name.
      rewrite var_find_eq, Hn.
      rewrite H1. unfold var_alloc. rewrite var_alloc_cmn_ok by done.
      rewrite Hlen1. fold w2. cbv beta iota delta [ret].
      rewrite avd_alloc_var_ptr_eq by done. cbv zeta. rewrite Hx2.
      by repeat case_decide.
    + split_all; [done| |exact Hlen2|exact Hx1|exact (f_equal var_name Hx2)|done].
      change (shm_var_list w ++ [length (shm_vars w1)] = shm_var_list w ++ [S x]).
      by rewrite Hlen1.
Qed.

(** X12: With the arena used up, the special resolution dereferences [NULL].
    For an internal or an environment name that the special chain does
    not hold, [var_find_special] allocates a variable; when that
    allocation fails, for want of a variable or of room for the name, it
    logs the failure and hands [NULL] to [var_find_internal] or to
    [var_find_environment], which read the name through it.  So do
    [var_to_string] and [var_ref_attr] of such a name: the latter never
    gets to shut the run down. *)
Theorem special_lookup_without_arena_faults (name : string) (w : world) :
  first_char name = "{"%char \/ first_char name = "("%char ->
  scan_list w name (shm_var_special_list w) = None ->
  ipc_free_var w = 0%nat \/ ~ fits name w ->
  exists w1 msg,
    var_find_special name w = Fault w1 /\
    log w1 = log w ++ [(LOG_ERROR, msg)] /\
    shm_var_special_list w1 = shm_var_special_list w /\
    shm_var_list w1 = shm_var_list w /\
    shm_var_loc_list w1 = shm_var_loc_list w /\
    (forall c, find_ptr w name = None ->
       var_to_string (String c name) w = Fault w1 /\
       var_ref_attr (String c name) w = Fault w1).
Proof.
  intros Hc Hs Hroom.
  destruct (var_alloc_cmn_cases name VAR_TYPE_SPECIAL w)
    as [(w1 & Hr & _ & Hg & Hl & Hsp & msg & Hlog)|(Hv & Hf & _)];
    [|destruct Hroom; [lia|done]].
  assert (H1 : var_find_special name w = Fault w1).
  { rewrite var_find_special_eq, Hs, Hr.
    destruct Hc as [Hc|Hc]; rewrite Hc; by simpl. }
  exists w1, msg. split_all; try done.
  intros c Hn. split.
  - unfold var_to_string, bind. change (skip1 (String c name)) with name.
    by rewrite var_find_eq, Hn, H1.
  - unfold var_ref_attr, bind. change (skip1 (String c name)) with name.
    by rewrite var_find_eq, Hn, H1.
Qed.

(** X13: A special name that matches nothing is not resolved, and no provider
    or environment is asked.  With the special variable of the name in
    hand, found on the special chain or newly linked there,
    [var_find_special] logs an error naming the variable and answers
    [NULL], the variable staying on the chain, for an environment name
    that lacks its closing parenthesis, for an internal name that lacks
    its closing brace, and for an internal name in braces that is none of
    the five known ones.  The single characters [(] and [{] are such
    names. *)
Theorem special_name_that_matches_nothing (body : string) (w w1 : world) (x : nat) :
  (special_in_hand (String "(" body) w w1 x ->
   last_char "(" body <> ")"%char ->
   var_find_special (String "(" body) w =
   Ret None (logged_error ("Cannot find environment variable " +:+ String "(" body) w1)) /\
  (special_in_hand (String "{" body) w w1 x ->
   last_char "{" body <> "}"%char ->
   var_find_special (String "{" body) w =
   Ret None (logged_error ("Cannot find internal variable " +:+ String "{" body) w1)) /\
  (special_in_hand (String "{" body) w w1 x ->
   last_char "{" body = "}"%char ->
   String.prefix STATS_VAR (chop_last body) = false ->
   chop_last body <> EVENTGEN_VAR -> chop_last body <> DATE_VAR ->
   chop_last body <> SCRIPT_VAR -> chop_last body <> HOST_VAR ->
   var_find_special (String "{" body) w =
   Ret None (logged_error ("Cannot find internal variable " +:+ String "{" body) w1)).
Proof.
  split_all.
  - intros Hh Hl. apply special_in_hand_eq in Hh as [Hh Hn].
    rewrite var_find_special_eq, Hh. simpl.
    unfold var_find_environment, bind, load_var, fb_stralloc. rewrite Hn.
    apply Ascii.eqb_neq in Hl. rewrite Hl. simpl. by rewrite Hn.
  - intros Hh Hl. apply special_in_hand_eq in Hh as [Hh Hn].
    rewrite var_find_special_eq, Hh. simpl.
    unfold var_find_internal, bind, load_var, fb_stralloc. rewrite Hn.
    apply Ascii.eqb_neq in Hl. rewrite Hl. simpl. by rewrite Hn.
  - intros Hh Hl Hst He Hd Hsc Hho. apply special_in_hand_eq in Hh as [Hh Hn].
    rewrite var_find_special_eq, Hh. simpl.
    unfold var_find_internal, bind, load_var, fb_stralloc. rewrite Hn.
    rewrite Hl, Hst. simpl.
    apply String.eqb_neq in He, Hd, Hsc, Hho. rewrite He, Hd, Hsc, Hho. simpl.
    by rewrite Hn.
Qed.

End Specials.

(** ** Allocation *)

Section Allocation.

Context {D : Double} {P : Providers}.

Local Open Scope list_scope.

Ltac split_all := repeat match goal with |- _ /\ _ => split end.

(** X14: The three ways [var_alloc_cmn] ends.  With no variable left it logs
    "Out of memory for variables", returns [NULL] and changes nothing
    else.  With a variable left but no room for the name it logs "Out of
    memory for strings" and returns [NULL] as well, but the variable it
    took stays taken: the pool has one variable more, zeroed but for its
    class, and no chain holds it.  Otherwise it returns the new variable,
    zeroed but for its name and class, linked to the one chain of its
    class, at the head for a local and at the tail else; one variable and
    the room for the name with its terminator are used up, nothing is
    logged, and no older variable is touched. *)
Theorem var_alloc_cmn_three_outcomes (name : string) (c : var_class) (w : world) :
  let x := length (shm_vars w) in
  (ipc_free_var w = 0%nat ->
   var_alloc_cmn name c w = Ret None (logged_error "Out of memory for variables" w)) /\
  ((0 < ipc_free_var w)%nat -> ~ fits name w ->
   exists w', var_alloc_cmn name c w = Ret None w' /\
     shm_vars w' = shm_vars w ++ [set_var_type var_zero c] /\
     ipc_free_var w' = pred (ipc_free_var w) /\
     ipc_free_str w' = ipc_free_str w /\
     shm_var_loc_list w' = shm_var_loc_list w /\
     shm_var_list w' = shm_var_list w /\
     shm_var_special_list w' = shm_var_special_list w /\
     (valid_lists w ->
      x ∉ (shm_var_loc_list w' ++ shm_var_list w' ++ shm_var_special_list w')) /\
     log w' = log w ++ [(LOG_ERROR, "Out of memory for strings")]) /\
  ((0 < ipc_free_var w)%nat -> fits name w ->
   exists w', var_alloc_cmn name c w = Ret (Some x) w' /\
     shm_vars w' = shm_vars w ++ [new_var name c] /\
     ipc_free_var w' = pred (ipc_free_var w) /\
     ipc_free_str w' = (ipc_free_str w - (String.length name + 1))%nat /\
     log w' = log w /\
     shm_var_loc_list w' =
       (if decide (c = VAR_TYPE_LOCAL) then x :: shm_var_loc_list w
        else shm_var_loc_list w) /\
     shm_var_list w' =
       (if decide (c = VAR_TYPE_NORMAL \/ c = VAR_TYPE_RANDOM)
        then shm_var_list w ++ [x] else shm_var_list w) /\
     shm_var_special_list w' =
       (if decide (c = VAR_TYPE_SPECIAL) then shm_var_special_list w ++ [x]
        else shm_var_special_list w)).
Proof.
  intros x. split_all.
  - apply var_alloc_cmn_no_var.
  - intros Hv Hs.
    unfold var_alloc_cmn, bind, ipc_malloc_var.
    destruct (ipc_free_var w) as [|n] eqn:En; [lia|].
    cbv beta iota. rewrite update_var_eq. cbv beta iota.
    unfold ipc_stralloc. rewrite decide_False by exact Hs. cbv beta iota.
    eexists. split; [reflexivity|]. simpl.
    split_all; try done.
    + unfold var_at. simpl. rewrite lookup_snoc. simpl. apply insert_snoc.
    + intros (Hl & Hg & Hsp) Hin.
      assert (Hlt : Forall (fun y => (y < x)%nat)
                (shm_var_loc_list w ++ shm_var_list w ++ shm_var_special_list w))
        by (by repeat (apply Forall_app; split)).
      rewrite Forall_forall in Hlt. specialize (Hlt x Hin). lia.
  - intros Hv Hs. exists (alloc_world name c w).
    split; [by apply var_alloc_cmn_ok|].
    destruct (lists_alloc_world name c w) as (Hl & Hg & Hsp).
    split_all; try done.
    + apply shm_vars_alloc_world.
    + by destruct c.
    + by destruct c.
    + by destruct c.
Qed.

End Allocation.

(** ** Descriptors and the arena *)

Section Descriptors.

Context {D : Double} {P : Providers}.

Local Open Scope list_scope.

Ltac split_all := repeat match goal with |- _ /\ _ => split end.

(** X15: A reference that fails still uses up a descriptor.
    [avd_alloc_var_ptr] takes its descriptor before it looks at the set
    bits, and its default arm returns [NULL] without giving the
    descriptor back.  So [var_ref_attr] of a name resolved to a variable
    with no set bit logs "Illegal  variable type", answers [NULL] and
    leaves the arena one descriptor short, the variable and the chains
    being as they were: the next reference to the name fails the same way
    and takes another one.  Once no descriptor is left, the reference
    fails with "AVD allocation failed" whatever the variable holds. *)
Theorem failed_reference_uses_a_descriptor (name : string) (x : nat) (w : world) :
  find_ptr w (skip1 name) = Some x ->
  ((0 < ipc_free_avd w)%nat -> var_set_of (var_at w x) = VAR_TYPE_NONE_SET ->
   let w1 := logged_error "Illegal  variable type"
               (set_free_avd (pred (ipc_free_avd w)) w) in
   var_ref_attr name w = Ret None w1 /\
   ipc_free_avd w1 = pred (ipc_free_avd w) /\
   find_ptr w1 (skip1 name) = Some x /\
   var_at w1 x = var_at w x) /\
  (ipc_free_avd w = 0%nat ->
   var_ref_attr name w = Ret None (logged_error "AVD allocation failed" w)).
Proof.
  intros Hf. rewrite (var_ref_attr_found _ _ _ Hf). split.
  - intros Ha Hn w1. rewrite avd_alloc_var_ptr_eq by done. cbv zeta. rewrite Hn.
    split_all; try done. by rewrite (find_ptr_same_vars w w1).
  - intros Ha. unfold avd_alloc_var_ptr, bind, avd_alloc_cmn, bind, ipc_malloc_avd.
    by rewrite Ha.
Qed.



(** What a reader may leave behind. *)
Lemma reader_frame {A : Type} (m : M A) (w : world) :
  (exists v, m w = Ret v w) \/
  (exists v msg, m w = Ret v (logged_error msg w)) \/
  (exists v r, m w = Ret v (set_randdists (<[r := snd (rnd_get (randdist_at w r))]>
                                               (shm_randdists w)) w)) ->
  exists v w', m w = Ret v w' /\ same_variables w w' /\
    (log w' = log w \/ exists msg, log w' = log w ++ [(LOG_ERROR, msg)]) /\
    (shm_randdists w' = shm_randdists w \/
     exists r, shm_randdists w' =
               <[r := snd (rnd_get (randdist_at w r))]> (shm_randdists w)).
Proof.
  intros [(v & H)|[(v & msg & H)|(v & r & H)]]; exists v; eexists;
    (split; [exact H|]); unfold same_variables; split_all; try done;
    eauto.
Qed.

(** X17: The readers write nothing.  Whatever the descriptor, each of
    [avd_get_int], [avd_get_dbl], [avd_get_bool] and [avd_get_str]
    returns in a world with the same variables, chains, arena budgets and
    environment as before.  The log is as it was or has one more error;
    the distribution objects are as they were unless the descriptor is of
    the random variant, in which case the one it points at holds the state
    the sampling function left.  Only [avd_get_int] and [avd_get_dbl]
    sample. *)
Theorem readers_write_nothing (a : avd_t) (w : world) :
  (exists v w', avd_get_int a w = Ret v w' /\ same_variables w w' /\
     (log w' = log w \/ exists msg, log w' = log w ++ [(LOG_ERROR, msg)]) /\
     (shm_randdists w' = shm_randdists w \/
      exists r, shm_randdists w' =
                <[r := snd (rnd_get (randdist_at w r))]> (shm_randdists w))) /\
  (exists v w', avd_get_dbl a w = Ret v w' /\ same_variables w w' /\
     (log w' = log w \/ exists msg, log w' = log w ++ [(LOG_ERROR, msg)]) /\
     (shm_randdists w' = shm_randdists w \/
      exists r, shm_randdists w' =
                <[r := snd (rnd_get (randdist_at w r))]> (shm_randdists w))) /\
  (exists v w', avd_get_bool a w = Ret v w' /\ same_variables w w' /\
     (log w' = log w \/ exists msg, log w' = log w ++ [(LOG_ERROR, msg)]) /\
     shm_randdists w' = shm_randdists w) /\
  (exists v w', avd_get_str a w = Ret v w' /\ same_variables w w' /\
     (log w' = log w \/ exists msg, log w' = log w ++ [(LOG_ERROR, msg)]) /\
     shm_randdists w' = shm_randdists w).
Proof.
  split_all.
  - apply reader_frame.
    destruct a as [[| | |i|[x|]| | | | |[r|]]|];
      first [left; eexists; reflexivity
            |right; left; eexists _, _; reflexivity
            |right; right; eexists _, _; reflexivity].
  - apply reader_frame.
    destruct a as [[| | |i|[x|]| | |d|[x|]|[r|]]|];
      first [left; eexists; reflexivity
            |right; left; eexists _, _; reflexivity
            |right; right; eexists _, _; reflexivity].
  - destruct a as [[|b|[x|]|i|[x|]| | | | |r]|];
      eexists _, _; (split; [reflexivity|]); unfold same_variables;
      split_all; try done; eauto.
  - destruct a as [[| | | | |s|[x|]| | |r]|];
      eexists _, _; (split; [reflexivity|]); unfold same_variables;
      split_all; try done; eauto.
Qed.

End Descriptors.

Section Examples.

#[local] Existing Instance whole_double.
#[local] Existing Instance quiet_providers.

Local Open Scope list_scope.

Ltac valid_world := repeat split; vm_compute; repeat constructor.

(** [$x] is referenced before anything was assigned to it. *)
Example fresh_reference_is_null :
  exists w', var_ref_attr "$x" fresh_world = Ret None w' /\
    log w' = [(LOG_ERROR, "Illegal  variable type")] /\
    shm_var_list w' = [1%nat] /\
    var_at w' 1 = new_var "x" VAR_TYPE_NORMAL.
Proof.
  pose (w1 := world_of (var_find_special "x" fresh_world)).
  pose (w2 := world_of (var_alloc "x" w1)).
  destruct (var_ref_attr_fresh_global_null "$x" fresh_world w1 w2 1)
    as (Hx & Hl & w' & Hr & _ & Hv & Hg); [reflexivity..|].
  exists w'. split; [exact Hr|].
  vm_compute in Hr. inversion Hr. subst w'. by vm_compute.
Defined.

(** The second lookup of [(PATH)] stores what [PATH] holds by then. *)
Example environment_value_not_cached :
  var_find_special "(PATH)" (world_init 8 8 8 64 env_bin) = Ret (Some 0%nat) path_world /\
  var_string (var_at path_world 0) = Some "/bin" /\
  exists w', var_find_special "(PATH)" path_world_later = Ret (Some 0%nat) w' /\
    var_string (var_at w' 0) = Some "/usr/bin" /\
    var_string (var_at w' 0) <> var_string (var_at path_world 0).
Proof.
  split; [by vm_compute|]. split; [by vm_compute|].
  eexists. split; [by vm_compute|]. split; by vm_compute.
Qed.

Example environment_lookup_requeries_witness :
  (exists w', var_find_special "(PATH)" (world_init 8 8 8 64 env_bin) = Ret (Some 0%nat) w' /\
     var_string (var_at w' 0) = Some "/bin") /\
  (exists w', var_find_special "(PATH)" path_world_later = Ret (Some 0%nat) w' /\
     var_string (var_at w' 0) = Some "/usr/bin").
Proof.
  split.
  - destruct (environment_lookup_requeries "PATH" (world_init 8 8 8 64 env_bin))
      as [H _]; [valid_world|].
    destruct (H eq_refl) with (text := "/bin") as (w' & Hr & _ & _ & Hs & _);
      [vm_compute; repeat constructor..|reflexivity|].
    exists w'. by split.
  - destruct (environment_lookup_requeries "PATH" path_world_later) as [_ H];
      [valid_world|].
    destruct (H 0%nat eq_refl) as [H1 _].
    destruct (H1 "/usr/bin" eq_refl) as (w' & Hr & Hs & _).
    exists w'. by split.
Defined.


Example avd_readers_total_witness :
  avd_get_int (Some AvdInvalid) fresh_world =
    Ret 0%Z (logged_error "Attempt to get integer from uninitialized avd" fresh_world) /\
  avd_get_str (Some (AvdValInt 5)) fresh_world =
    Ret None (logged_error "Attempt to get string from integer value avd" fresh_world) /\
  avd_get_bool None fresh_world = Ret false fresh_world.
Proof.
  destruct (avd_readers_total fresh_world) as (_ & (_ & _ & Hn & _) & Hi & _ & _ & Hs).
  split; [exact (Hi AvdInvalid eq_refl)|].
  split; [exact (Hs (AvdValInt 5) eq_refl)|exact Hn].
Defined.

(** Of two locals [$x] the newer is found; of two globals [$y] the older. *)
Example var_find_shadowing_witness :
  var_find "x"
    (alloc_all [("x", VAR_TYPE_NORMAL); ("x", VAR_TYPE_LOCAL); ("y", VAR_TYPE_LOCAL);
                ("x", VAR_TYPE_LOCAL); ("x", VAR_TYPE_NORMAL)] fresh_world) =
  Ret (Some 3%nat)
    (alloc_all [("x", VAR_TYPE_NORMAL); ("x", VAR_TYPE_LOCAL); ("y", VAR_TYPE_LOCAL);
                ("x", VAR_TYPE_LOCAL); ("x", VAR_TYPE_NORMAL)] fresh_world) /\
  (exists w', var_alloc_cmn "x" VAR_TYPE_LOCAL
                (world_of (var_alloc_cmn "x" VAR_TYPE_LOCAL fresh_world)) =
              Ret (Some 1%nat) w' /\
     shm_var_loc_list w' = [1%nat; 0%nat] /\
     var_find "x" w' = Ret (Some 1%nat) w') /\
  (exists w', var_alloc_cmn "y" VAR_TYPE_NORMAL
                (world_of (var_alloc_cmn "y" VAR_TYPE_NORMAL fresh_world)) =
              Ret (Some 1%nat) w' /\
     shm_var_list w' = [0%nat; 1%nat] /\
     var_find "y" w' = Ret (Some 0%nat) w').
Proof.
  split; [|split].
  - destruct (var_find_shadowing "x" fresh_world) as (_ & _ & _ & _ & _ & _ & H & _).
    apply (H [("x", VAR_TYPE_NORMAL); ("x", VAR_TYPE_LOCAL); ("y", VAR_TYPE_LOCAL);
              ("x", VAR_TYPE_LOCAL); ("x", VAR_TYPE_NORMAL)]); [valid_world|reflexivity].
  - pose (w := world_of (var_alloc_cmn "x" VAR_TYPE_LOCAL fresh_world)).
    destruct (var_find_shadowing "x" w) as (_ & _ & _ & H & _).
    eexists. split; [by vm_compute|].
    destruct (H 1%nat _ eq_refl) as (Hl & _ & Hf).
    split; [exact Hl|exact Hf].
  - pose (w := world_of (var_alloc_cmn "y" VAR_TYPE_NORMAL fresh_world)).
    destruct (var_find_shadowing "y" w) as (_ & _ & _ & _ & H & _).
    edestruct (H VAR_TYPE_NORMAL 1%nat) as (Hg & _ & Hf);
      [by left|valid_world|by vm_compute|].
    eexists. split; [by vm_compute|].
    split; [exact Hg|exact Hf].
Defined.

(** The random variable [$x] sits behind a local [$x]: the assignment
    reaches the local and succeeds. *)
Example assign_through_shadowing_local_succeeds :
  var_define_randvar "$x" fresh_world = Ret (Some 0%nat) random_world /\
  var_lvar_assign_integer "$x" 5 random_world = Ret (Some 1%nat) shadowed_world /\
  shm_var_list shadowed_world = [0%nat] /\
  var_name (var_at shadowed_world 0) = "x" /\
  var_class_of (var_at shadowed_world 0) = VAR_TYPE_RANDOM /\
  (exists w', var_assign_integer (Some "$x") 7 shadowed_world = Ret 0%Z w' /\
     var_integer (var_at w' 1) = 7%Z) /\
  (forall w', var_assign_integer (Some "$x") 7 shadowed_world <> Ret (-1)%Z w').
Proof.
  repeat apply conj; try by vm_compute.
  eexists. split; by vm_compute.
Qed.

Example assign_to_random_rejected_witness :
  var_assign_integer (Some "$x") 7 random_world =
    Ret (-1)%Z (logged_error "Cannot assign integer to random variable $x" random_world) /\
  var_assign_string "$x" "abc" random_world =
    Ret (-1)%Z (logged_error "Cannot assign string to random variable x" random_world) /\
  var_define_randvar "$x" random_world =
    Ret None (logged_error ("variable name already in use" +:+ nl) random_world).
Proof.
  destruct (assign_to_random_rejected "$x" 0 random_world) as (Ha & Hd & _);
    [reflexivity|].
  destruct (Ha eq_refl) as (_ & Hi & Hs).
  repeat apply conj; [exact (Hi 7%Z)|exact (Hs "abc")|exact Hd].
Defined.

(** The copy statement takes the boolean of [$s] and leaves its integer
    behind, where [var_copy] takes both; and it stores a double of [$s]
    in the integer facet. *)
Example copy_statement_skips_facets :
  (VAR_HAS_BOOLEAN (var_at both_set_world 0) = true /\
   VAR_HAS_INTEGER (var_at both_set_world 0) = true /\
   (exists w', var_lvar_assign_var "$d" "$s" both_set_world = Ret (Some 1%nat) w' /\
      VAR_HAS_BOOLEAN (var_at w' 1) = true /\ VAR_HAS_INTEGER (var_at w' 1) = false) /\
   (exists w', var_lvar_alloc_local "$d" both_set_world = Ret (Some 1%nat) copy_target_world /\
      var_copy 1 0 copy_target_world = Ret 0%Z w' /\
      VAR_HAS_BOOLEAN (var_at w' 1) = true /\ VAR_HAS_INTEGER (var_at w' 1) = true)) /\
  (VAR_HAS_DOUBLE (var_at double_world 0) = true /\
   (exists w', var_lvar_assign_var "$d" "$s" double_world = Ret (Some 1%nat) w' /\
      VAR_HAS_DOUBLE (var_at w' 1) = false /\ VAR_HAS_INTEGER (var_at w' 1) = true) /\
   (exists w', var_lvar_alloc_local "$d" double_world = Ret (Some 1%nat) double_target_world /\
      var_copy 1 0 double_target_world = Ret 0%Z w' /\
      VAR_HAS_DOUBLE (var_at w' 1) = true /\ VAR_HAS_INTEGER (var_at w' 1) = false)).
Proof.
  repeat apply conj; try by vm_compute.
  all: eexists; repeat apply conj; by vm_compute.
Qed.

Example var_copy_every_set_facet_witness :
  exists w', var_copy 1 0 copy_target_world = Ret 0%Z w' /\
    var_name (var_at w' 1) = "d" /\ var_class_of (var_at w' 1) = VAR_TYPE_LOCAL /\
    var_boolean (var_at w' 1) = true /\ var_integer (var_at w' 1) = 5%Z.
Proof.
  destruct (var_copy_every_set_facet 1 0 copy_target_world) as (Heq & Hfacets & _);
    [vm_compute; repeat constructor|].
  pose (w' := world_of (var_copy 1 0 copy_target_world)).
  assert (Hr : var_copy 1 0 copy_target_world = Ret 0%Z w') by (vm_compute; reflexivity).
  exists w'. split; [exact Hr|].
  destruct (Hfacets 0%Z w' Hr) as (Hn & Hc & _ & _ & Hb & _ & Hi & _).
  repeat apply conj; [exact Hn|exact Hc|exact Hb|exact Hi].
Defined.

(** The new local [$n] inherits 42 from the prototype's [$n]. *)
Example var_update_comp_lvars_defaults_witness :
  exists w', var_update_comp_lvars 1 [0%nat] [] proto_world = Ret tt w' /\
    VAR_HAS_INTEGER (var_at w' 1) = true /\ var_integer (var_at w' 1) = 42%Z /\
    VAR_HAS_BOOLEAN (var_at w' 1) = false /\ log w' = [].
Proof.
  destruct (var_update_comp_lvars_defaults 1 [0%nat] [] proto_world)
    as (_ & _ & H & _); [vm_compute; repeat constructor|].
  destruct (H 0%nat eq_refl eq_refl) as (w' & Hr & _ & _ & Hb & _ & Hi & Hiv & _ & _ & _ & _ & Hl & _);
    [discriminate|].
  exists w'. repeat apply conj; [exact Hr|exact Hi|exact (Hiv eq_refl)|exact Hb|exact Hl].
Defined.

(** A new local [$n] that holds a distribution handle and no value
    inherits nothing from the prototype's [$n]; a new local [$n] with
    nothing set does not inherit a text that the arena has no room for,
    and an error is logged. *)
Example unset_local_does_not_inherit :
  (var_lvar_assign_var "$n" "$r" random_and_local_world =
     Ret (Some 2%nat) handle_only_world /\
   var_name (var_at handle_only_world 2) = "n" /\
   VAR_HAS_BOOLEAN (var_at handle_only_world 2) = false /\
   VAR_HAS_INTEGER (var_at handle_only_world 2) = false /\
   VAR_HAS_DOUBLE (var_at handle_only_world 2) = false /\
   VAR_HAS_STRING (var_at handle_only_world 2) = false /\
   var_name (var_at handle_only_world 0) = "n" /\
   VAR_HAS_INTEGER (var_at handle_only_world 0) = true /\
   var_update_comp_lvars 2 [0%nat] [] handle_only_world = Ret tt handle_only_world /\
   VAR_HAS_INTEGER (var_at handle_only_world 2) <>
     VAR_HAS_INTEGER (var_at handle_only_world 0)) /\
  (var_lvar_alloc_local "$n" long_text_world = Ret (Some 1%nat) long_text_target_world /\
   var_set_of (var_at long_text_target_world 1) = VAR_TYPE_NONE_SET /\
   var_name (var_at long_text_target_world 0) = "n" /\
   VAR_HAS_STRING (var_at long_text_target_world 0) = true /\
   exists w', var_update_comp_lvars 1 [0%nat] [] long_text_target_world = Ret tt w' /\
     VAR_HAS_STRING (var_at w' 1) = false /\
     VAR_HAS_STRING (var_at w' 1) <> VAR_HAS_STRING (var_at long_text_target_world 0) /\
     log long_text_target_world = [] /\
     log w' = [(LOG_ERROR, "Cannot assign string for variable n")]).
Proof.
  split.
  - repeat apply conj; by vm_compute.
  - repeat apply conj; try by vm_compute.
    eexists. repeat apply conj; by vm_compute.
Qed.

(** [$x] holds the empty text: that text is the answer, not "No default". *)
Example empty_string_is_returned :
  var_assign_string "$x" "" fresh_world = Ret 0%Z empty_string_world /\
  is_random (var_at empty_string_world 0) = false /\
  VAR_HAS_STRING (var_at empty_string_world 0) = true /\
  var_string (var_at empty_string_world 0) = Some "" /\
  VAR_HAS_BOOLEAN (var_at empty_string_world 0) = false /\
  VAR_HAS_INTEGER (var_at empty_string_world 0) = false /\
  __var_to_string 0 empty_string_world = Ret "" empty_string_world /\
  __var_to_string 0 empty_string_world <> Ret "No default" empty_string_world /\
  var_to_string "$x" empty_string_world = Ret (Some "") empty_string_world.
Proof. repeat apply conj; by vm_compute. Qed.

Example var_to_string_priority_witness :
  __var_to_string 0 forty_two_world = Ret "42" forty_two_world.
Proof.
  destruct (var_to_string_priority 0 forty_two_world) as (_ & _ & _ & H & _).
  exact (H eq_refl (or_introl eq_refl) eq_refl eq_refl).
Defined.

(** An unknown name is answered with [NULL] and nothing is logged, and so
    is an unknown parameter of a random variable. *)
Example var_to_string_fails_silently :
  (exists w', var_to_string "$nosuch" fresh_world = Ret None w' /\
     log w' = log fresh_world /\ ~ appends_error fresh_world w') /\
  (exists x w1 w', var_define_randvar "$r" fresh_world = Ret (Some x) w1 /\
     var_randvar_to_string "$r" RAND_PARAM_OTHER w1 = Ret None w' /\
     log w' = log w1 /\ ~ appends_error w1 w').
Proof.
  assert (Hno : forall w w' : world, log w' = log w -> ~ appends_error w w').
  { intros w w' Hl (l & msg & H). rewrite Hl in H.
    apply (f_equal length) in H. rewrite !length_app in H. simpl in H. lia. }
  split.
  - eexists. split; [by vm_compute|]. split; [by vm_compute|].
    apply Hno. by vm_compute.
  - eexists _, _, _. split; [by vm_compute|]. split; [by vm_compute|].
    split; [by vm_compute|]. apply Hno. by vm_compute.
Qed.

(** With no room for a variable the reference shuts the run down. *)
Example shutdown_only_from_var_ref_attr_witness :
  exists w', var_ref_attr "$x" no_var_world = Exit 1%Z w' /\
    log w' = [(LOG_ERROR, "Out of memory for variables");
              (LOG_ERROR, "Out of memory for variables");
              (LOG_ERROR, "Invalid variable $x")].
Proof.
  destruct shutdown_only_from_var_ref_attr as (H & _).
  eexists. split.
  - apply H. split; [reflexivity|]. split; [reflexivity|].
    eexists _, _. repeat apply conj; by vm_compute.
  - by vm_compute.
Defined.

Example define_randvar_consumes_name_witness :
  exists w1, var_define_randvar "$r" no_randdist_world = Ret None w1 /\
    shm_var_list w1 = [0%nat] /\
    var_class_of (var_at w1 0) = VAR_TYPE_RANDOM /\
    (exists w2, var_define_randvar "$r" w1 = Ret None w2) /\
    (exists w2, var_find_randvar "$r" w1 = Ret None w2).
Proof.
  destruct (define_randvar_consumes_name "$r" no_randdist_world)
    as (Hr & Hl & Hx & _ & _ & _ & Hd & Hf & _);
    [valid_world|reflexivity|vm_compute; repeat constructor..|reflexivity|].
  eexists. split; [exact Hr|].
  split; [exact Hl|]. split; [exact (f_equal var_class_of Hx)|].
  split; eexists; [exact Hd|exact Hf].
Defined.

(** The literal 5 reads as 5 and as true. *)
Example literal_descriptor_round_trip_witness :
  exists a w', avd_int_alloc 5 fresh_world = Ret (Some a) w' /\
    avd_get_int (Some a) w' = Ret 5%Z w' /\ avd_get_bool (Some a) w' = Ret true w'.
Proof.
  destruct (literal_descriptor_round_trip fresh_world) as (Hi & _);
    [vm_compute; repeat constructor|].
  destruct (Hi 5%Z) as (a & w' & Hr & _ & _ & _ & Hg & _ & Hb).
  exists a, w'. repeat apply conj; [exact Hr|exact Hg|exact Hb].
Defined.

(** Five characters do not fit in four bytes: the descriptor comes back
    with no text. *)
Example avd_str_alloc_unchecked_text_witness :
  exists w', avd_str_alloc (Some "abcd") tight_world = Ret (Some (AvdValStr None)) w' /\
    log w' = [] /\ avd_get_str (Some (AvdValStr None)) w' = Ret None w'.
Proof.
  destruct (avd_str_alloc_unchecked_text tight_world) as (_ & H & _).
  destruct (H "abcd") as (w' & Hr & _ & _ & Hl & Hg);
    [vm_compute; repeat constructor|vm_compute; lia|].
  exists w'. repeat apply conj; [exact Hr|exact Hl|exact Hg].
Defined.

(** The local [$x] allocated in [random_world] is in front of the chain
    of [shadowed_world]; the random [$x] is still on its chain. *)
Example registry_only_grows_witness :
  valid_lists shadowed_world /\ extends random_world shadowed_world /\
  find_ptr random_world "x" = Some 0%nat /\ find_ptr shadowed_world "x" = Some 1%nat.
Proof.
  destruct registry_only_grows
    as ((_ & _ & _ & _ & _ & _ & _ & _ & _ & _ & _ & _ & _ & _ & _ & H & _) & _).
  destruct (H "$x" 5%Z random_world (Some 1%nat) shadowed_world) as [Hv He];
    [valid_world|reflexivity|].
  split; [exact Hv|]. split; [exact He|]. split; reflexivity.
Defined.

Example assignment_round_trip_witness :
  exists x, assigned_to "i" fresh_world forty_two_world x /\
    var_integer (var_at forty_two_world x) = 42%Z.
Proof.
  destruct (assignment_round_trip "$i" fresh_world forty_two_world) as (Hi & _);
    [valid_world|].
  destruct (Hi 42%Z eq_refl) as (x & Ha & _ & Hv & _).
  exists x. split; [exact Ha|exact Hv].
Defined.


Example define_randvar_round_trip_witness :
  exists w1, var_define_randvar "$x" fresh_world = Ret (Some 0%nat) w1 /\
    var_class_of (var_at w1 0) = VAR_TYPE_RANDOM /\
    var_randptr (var_at w1 0) = Some 0%nat /\
    var_find_randvar "$x" w1 = Ret (Some 0%nat) w1 /\
    var_find_randvar "$x" shadowed_world =
      Ret None (logged_error ("Found variable $x not random" +:+ nl) shadowed_world).
Proof.
  destruct (define_randvar_round_trip "$x" fresh_world)
    as (w1 & Hd & _ & _ & _ & Hc & _ & Hp & _ & _ & _ & _ & Hf & _ & _ & _ & Hnot & _);
    [valid_world|reflexivity|vm_compute; repeat constructor..|].
  exists w1. repeat apply conj; [exact Hd|exact Hc|exact Hp|exact Hf|].
  exact (Hnot shadowed_world 1%nat eq_refl eq_refl).
Defined.

(** [$r] could not be given a distribution; printing it reads through
    [NULL]. *)
Example printing_a_random_variable_without_distribution_witness :
  var_define_randvar "$r" no_randdist_world = Ret None orphan_world /\
  var_to_string "$r" orphan_world = Fault orphan_world /\
  var_randvar_to_string "$r" RAND_PARAM_TYPE orphan_world = Fault orphan_world.
Proof.
  destruct (printing_a_random_variable_without_distribution "$r" orphan_world)
    as (H & _).
  destruct (H 0%nat eq_refl eq_refl eq_refl) as (_ & Hs & Hp).
  repeat apply conj; [reflexivity|exact Hs|exact (Hp RAND_PARAM_TYPE eq_refl)].
Defined.

(** The name [s] takes two of the four bytes; the text does not fit in
    the two that are left. *)
Example string_that_does_not_fit_leaves_empty_variable_witness :
  exists w1, var_lvar_assign_string "$s" "abcdef" tight_world = Ret None w1 /\
    local_bound "s" tight_world w1 0 /\
    var_set_of (var_at w1 0) = VAR_TYPE_NONE_SET.
Proof.
  destruct (string_that_does_not_fit_leaves_empty_variable "$s" tight_world)
    as (H & _); [valid_world|vm_compute; repeat constructor|].
  destruct (H "abcdef") as (w1 & Hr & Hb & _ & Hs & _);
    [vm_compute; repeat constructor|vm_compute; lia|].
  exists w1. split; [exact Hr|]. split; [exact Hb|exact Hs].
Defined.

Example local_assignment_round_trip_witness :
  exists w1, var_lvar_assign_integer "$x" 5 random_world = Ret (Some 1%nat) w1 /\
    local_bound "x" random_world w1 1 /\
    var_integer (var_at w1 1) = 5%Z.
Proof.
  destruct (local_assignment_round_trip "$x" random_world) as (H & _);
    [valid_world|vm_compute; repeat constructor..|].
  destruct (H 5%Z) as (w1 & Hr & Hb & _ & _ & _ & Hv).
  exists w1. split; [exact Hr|]. split; [exact Hb|exact Hv].
Defined.


(** Printing the unknown [$x] twice: the first call allocates. *)
Example special_lookup_of_a_plain_name_witness :
  var_to_string "$x" fresh_world =
    Ret None (alloc_world "x" VAR_TYPE_SPECIAL fresh_world) /\
  var_to_string "$x" (alloc_world "x" VAR_TYPE_SPECIAL fresh_world) =
    Ret None (alloc_world "x" VAR_TYPE_SPECIAL fresh_world) /\
  shm_var_special_list (alloc_world "x" VAR_TYPE_SPECIAL fresh_world) = [0%nat].
Proof.
  destruct (special_lookup_of_a_plain_name "x" fresh_world) as (_ & _ & _ & H);
    [discriminate|discriminate|valid_world|].
  destruct H as (_ & _ & Hl & _ & _ & _ & _ & _ & Hs & _);
    [reflexivity|vm_compute; repeat constructor..|].
  destruct (Hs "$"%char eq_refl) as (H1 & H2).
  repeat apply conj; [exact H1|exact H2|exact Hl].
Defined.

(** With no variable left, the lookup of [(HOME)] reads through [NULL]. *)
Example special_lookup_without_arena_faults_witness :
  exists w1, var_ref_attr "$(HOME)" no_var_world = Fault w1 /\
    log w1 = [(LOG_ERROR, "Out of memory for variables")].
Proof.
  destruct (special_lookup_without_arena_faults "(HOME)" no_var_world)
    as (w1 & msg & Hr & Hl & _ & _ & _ & Hc);
    [by right|reflexivity|by left|].
  destruct (Hc "$"%char eq_refl) as (_ & Href).
  exists w1. split; [exact Href|].
  clear Hc Href.
  assert (Hf : var_find_special "(HOME)" no_var_world =
               Fault (logged_error "Out of memory for variables" no_var_world))
    by reflexivity.
  rewrite Hf in Hr. injection Hr as <-. reflexivity.
Defined.

(** [(HOME] lacks its parenthesis. *)
Example special_name_that_matches_nothing_witness :
  var_find_special "(HOME" fresh_world =
  Ret None
    (logged_error "Cannot find environment variable (HOME"
       (alloc_world "(HOME" VAR_TYPE_SPECIAL fresh_world)).
Proof.
  destruct (special_name_that_matches_nothing "HOME" fresh_world
              (alloc_world "(HOME" VAR_TYPE_SPECIAL fresh_world) 0) as (H & _).
  apply H; [|discriminate].
  right. repeat apply conj; try reflexivity; vm_compute; repeat constructor.
Defined.

(** A name of five characters in a segment with four bytes of text. *)
Example var_alloc_cmn_three_outcomes_witness :
  exists w', var_alloc_cmn "abcd" VAR_TYPE_NORMAL tight_world = Ret None w' /\
    length (shm_vars w') = 1%nat /\ shm_var_list w' = [] /\
    ipc_free_var w' = 7%nat.
Proof.
  destruct (var_alloc_cmn_three_outcomes "abcd" VAR_TYPE_NORMAL tight_world)
    as (_ & H & _).
  destruct H as (w' & Hr & Hv & Hf & _ & _ & Hg & _);
    [vm_compute; repeat constructor|vm_compute; lia|].
  exists w'. repeat apply conj; [exact Hr|by rewrite Hv|exact Hg|exact Hf].
Defined.

(** A second reference to the unset [$x] takes a second descriptor. *)
Example failed_reference_uses_a_descriptor_witness :
  ipc_free_avd unset_world = 7%nat /\
  exists w1, var_ref_attr "$x" unset_world = Ret None w1 /\
    ipc_free_avd w1 = 6%nat.
Proof.
  split; [reflexivity|].
  destruct (failed_reference_uses_a_descriptor "$x" 1 unset_world) as (H & _);
    [reflexivity|].
  destruct H as (Hr & Ha & _); [vm_compute; repeat constructor|reflexivity|].
  eexists. split; [exact Hr|exact Ha].
Defined.


(** Reading the random [$x] as a double samples its distribution and
    touches no variable. *)
Example readers_write_nothing_witness :
  exists v w', avd_get_dbl (Some (AvdRandvar (Some 0%nat))) random_world = Ret v w' /\
    shm_vars w' = shm_vars random_world /\ log w' = log random_world.
Proof.
  destruct (readers_write_nothing (Some (AvdRandvar (Some 0%nat))) random_world)
    as (_ & (v & w' & Hr & Hs & Hl & _) & _).
  exists v, w'. split; [exact Hr|]. split; [apply Hs|].
  destruct Hl as [Hl|(msg & Hl)]; [exact Hl|].
  assert (Hc : avd_get_dbl (Some (AvdRandvar (Some 0%nat))) random_world =
               Ret (7%Z : @double whole_double) random_world) by reflexivity.
  rewrite Hc in Hr. injection Hr as _ <-.
  apply (f_equal length) in Hl. rewrite length_app in Hl. simpl in Hl. lia.
Defined.

End Examples.
